(** * wiki_import: the extraction core of the Wikipedia / Wikidata importers

    A shallow embedding of [src/import_wikipedia.py] and
    [src/update_wikidata.py]: the SAX content handlers that rebuild pages
    from markup events, the wikitext tag extraction, the typed value
    resolver [map_value] and the statement aggregation of [parse_props];
    of the loop of [main] of [src/wd_downloader.py], which chooses the
    incremental dumps to load; and of the loop of [main] of
    [src/import_stats.py], which tallies the page views.

    Conventions of the embedding.
    - A Python value produced by [json.loads] is a [json]; Python's [None]
      is [JNull].  A [dict] is an association list in insertion order whose
      first binding of a key is the live one ([json.loads] never produces
      two bindings of one key).
    - A Python [str] is a [string]; its characters are the code points
      below 256.  On these [str.lower] maps one character to one
      character; the one code point it maps to two, U+0130, lies outside.
    - A Python call that may raise returns a [res]: [Ok v] or [Raise e].
    - What the two scripts obtain from outside the repository
      ([mwparserfromhell.parse], the iteration order of a [set], the
      builtins [float] and [int] on arbitrary input, [urllib.unquote],
      the decoding of bytes, the content of a remote resource) is a
      parameter of the definitions that use it. *)

From Stdlib Require Import ZArith List String Ascii Floats DecimalString Lia.
From stdpp Require Import base option list strings gmap.
Import ListNotations.
Local Open Scope Z_scope.
Local Set Warnings "-register-all,-inexact-float".

(** ** Exceptions and results *)

Inductive exn : Type :=
| KeyError
| TypeError
| AttributeError
| IndexError
| ValueError
| ParserError
| RecursionError
| Unmodelled.

Inductive res (A : Type) : Type :=
| Ok (a : A)
| Raise (e : exn).

Arguments Ok {A} a.
Arguments Raise {A} e.

#[global] Instance res_ret : MRet res := fun A a => Ok a.
#[global] Instance res_bind : MBind res := fun A B f m =>
  match m with
  | Ok a => f a
  | Raise e => Raise e
  end.

#[global] Instance res_fmap : FMap res := fun A B f m =>
  match m with
  | Ok a => Ok (f a)
  | Raise e => Raise e
  end.

(** [try: m except: h] with a bare [except]. *)
Definition try_except {A} (m : res A) (h : A) : A :=
  match m with
  | Ok a => a
  | Raise _ => h
  end.

(** ** Characters and strings of Python *)

Definition code (c : ascii) : N := N_of_ascii c.

(** [str.isspace] on one character, which is also the class [\s] of [re]
    on [str] patterns. *)
Definition py_isspace (c : ascii) : bool :=
  let n := code c in
  ((9 <=? n) && (n <=? 13) || (28 <=? n) && (n <=? 32)
   || (n =? 133) || (n =? 160))%N.

Definition lower_char (c : ascii) : ascii :=
  let n := code c in
  if ((65 <=? n) && (n <=? 90)
      || (192 <=? n) && (n <=? 222) && negb (n =? 215))%N
  then ascii_of_N (n + 32) else c.

Definition chars (s : string) : list ascii := list_ascii_of_string s.
Definition str (l : list ascii) : string := string_of_list_ascii l.

(** [s.lower()], which keeps the length of a string of these characters *)
Definition lower (s : string) : string := str (map lower_char (chars s)).

Fixpoint lstrip_chars (l : list ascii) : list ascii :=
  match l with
  | c :: l' => if py_isspace c then lstrip_chars l' else l
  | [] => []
  end.

(** [s.strip()] *)
Definition strip (s : string) : string :=
  str (rev (lstrip_chars (rev (lstrip_chars (chars s))))).

Fixpoint starts_with (p l : list ascii) : bool :=
  match p, l with
  | [], _ => true
  | a :: p', b :: l' => if decide (a = b) then starts_with p' l' else false
  | _ :: _, [] => false
  end.

(** [s.startswith(p)] *)
Definition startswith (s p : string) : bool := starts_with (chars p) (chars s).

(** [s[n:]] *)
Definition str_from (n : nat) (s : string) : string := str (drop n (chars s)).

(** [len(s)] *)
Definition len (s : string) : nat := String.length s.

(** [''.join(parts)] *)
Definition join (parts : list string) : string := fold_right String.append "" parts.

Fixpoint last_segment (sep : ascii) (acc l : list ascii) : list ascii :=
  match l with
  | [] => acc
  | c :: l' =>
      if decide (c = sep) then last_segment sep [] l'
      else last_segment sep (acc ++ [c]) l'
  end.

(** [s.rsplit(sep, 1)[-1]]: what follows the last [sep], all of [s] when
    there is none. *)
Definition rsplit_last (sep : ascii) (s : string) : string :=
  str (last_segment sep [] (chars s)).

(** Lexicographic order on code points, the order of [<] on [str]. *)
Fixpoint chars_ltb (a b : list ascii) : bool :=
  match a, b with
  | [], [] => false
  | [], _ :: _ => true
  | _ :: _, [] => false
  | x :: a', y :: b' =>
      if (code x <? code y)%N then true
      else if (code y <? code x)%N then false
      else chars_ltb a' b'
  end.

Definition str_ltb (a b : string) : bool := chars_ltb (chars a) (chars b).

(** ** Decoded JSON values *)

Inductive json : Type :=
| JNull
| JBool (b : bool)
| JInt (z : Z)
| JFloat (f : float)
| JStr (s : string)
| JArr (l : list json)
| JObj (kv : list (string * json)).

(** Truth value of a Python object. *)
Definition truthy (v : json) : bool :=
  match v with
  | JNull => false
  | JBool b => b
  | JInt z => negb (z =? 0)
  | JFloat f => negb (PrimFloat.eqb f 0%float)
  | JStr s => negb (String.eqb s "")
  | JArr l => match l with [] => false | _ => true end
  | JObj kv => match kv with [] => false | _ => true end
  end.

Fixpoint dict_lookup (kv : list (string * json)) (k : string) : option json :=
  match kv with
  | [] => None
  | (k', v) :: kv' => if String.eqb k' k then Some v else dict_lookup kv' k
  end.

(** [d[k] = v] on a dict: the key keeps its place when it is already there. *)
Fixpoint dict_set (kv : list (string * json)) (k : string) (v : json)
  : list (string * json) :=
  match kv with
  | [] => [(k, v)]
  | (k', v') :: kv' =>
      if String.eqb k' k then (k, v) :: kv' else (k', v') :: dict_set kv' k v
  end.

(** [type(v) == dict] *)
Definition is_dict (v : json) : bool :=
  match v with JObj _ => true | _ => false end.

(** [v.get(k, dflt)]: only a dict has the method. *)
Definition py_get (v : json) (k : string) (dflt : json) : res json :=
  match v with
  | JObj kv => Ok (default dflt (dict_lookup kv k))
  | _ => Raise AttributeError
  end.

(** [v[k]] for a string [k]. *)
Definition py_item (v : json) (k : string) : res json :=
  match v with
  | JObj kv =>
      match dict_lookup kv k with
      | Some x => Ok x
      | None => Raise KeyError
      end
  | _ => Raise TypeError
  end.

Fixpoint is_infix (p l : list ascii) : bool :=
  starts_with p l || match l with [] => false | _ :: l' => is_infix p l' end.

(** [k in v] for a string [k]. *)
Definition py_in (k : string) (v : json) : res bool :=
  match v with
  | JObj kv => Ok (bool_decide (is_Some (dict_lookup kv k)))
  | JStr s => Ok (is_infix (chars k) (chars s))
  | JArr l =>
      Ok (existsb (fun x => match x with JStr s => String.eqb s k | _ => false end) l)
  | _ => Raise TypeError
  end.

(** The values a [for x in v] loop visits. *)
Definition py_iter (v : json) : res (list json) :=
  match v with
  | JObj kv => Ok (map (fun p => JStr (fst p)) kv)
  | JArr l => Ok l
  | JStr s => Ok (map (fun c => JStr (String c EmptyString)) (chars s))
  | _ => Raise TypeError
  end.

(** ** Regular expressions: the fragment of [re] the two scripts use

    A backtracking matcher in continuation-passing style.  It tries the
    alternatives in the order of [re]: the left branch of [|] first, one
    more iteration first for a greedy repetition, one fewer first for a
    lazy one.  [Grp i r] is the capture group number [i]. *)

Inductive regex : Type :=
| Eps
| Chr (c : ascii)
| Dot
| Range (lo hi : ascii)
| OneOf (l : list ascii)
| Space
| Seq (r1 r2 : regex)
| Alt (r1 r2 : regex)
| Opt (r : regex)
| Star (greedy : bool) (r : regex)
| Grp (i : nat) (r : regex)
| Eos.

Definition Plus (greedy : bool) (r : regex) : regex := Seq r (Star greedy r).

Infix "@@" := Seq (at level 60, right associativity).

Fixpoint Lit (l : list ascii) : regex :=
  match l with
  | [] => Eps
  | [c] => Chr c
  | c :: l' => Chr c @@ Lit l'
  end.

Definition in_range (lo hi c : ascii) : bool :=
  ((code lo <=? code c) && (code c <=? code hi))%N.
Definition is_digit (c : ascii) : bool := in_range "0" "9" c.
Definition newline : ascii := ascii_of_N 10.

(** The text of each group that has matched so far. *)
Abbreviation captures := (list (option (list ascii))).

Definition or_else {A} (a : option A) (b : unit -> option A) : option A :=
  match a with
  | Some x => Some x
  | None => b tt
  end.

Definition one_char (p : ascii -> bool) (s : list ascii) (cs : captures)
    (k : list ascii -> captures -> option captures) : option captures :=
  match s with
  | c :: s' => if p c then k s' cs else None
  | [] => None
  end.

(** The iterations of a repetition whose body is matched by [body]: at
    most [fuel] of them, and an iteration must consume a character. *)
Fixpoint star_loop (greedy : bool)
    (body : list ascii -> captures ->
            (list ascii -> captures -> option captures) -> option captures)
    (k : list ascii -> captures -> option captures)
    (fuel : nat) (s : list ascii) (cs : captures) {struct fuel} : option captures :=
  match fuel with
  | O => k s cs
  | S fuel' =>
      let more := fun _ : unit =>
        body s cs (fun s' cs' =>
          if (length s' <? length s)%nat then star_loop greedy body k fuel' s' cs'
          else None) in
      if greedy then or_else (more tt) (fun _ => k s cs)
      else or_else (k s cs) more
  end.

(** [rmatch r s cs k]: match [r] at the start of [s] with the captures
    [cs] so far, then go on with [k] on what is left of [s]. *)
Fixpoint rmatch (r : regex) (s : list ascii) (cs : captures)
    (k : list ascii -> captures -> option captures) {struct r} : option captures :=
  match r with
  | Eps => k s cs
  | Chr c => one_char (fun x => bool_decide (x = c)) s cs k
  | Dot => one_char (fun x => negb (bool_decide (x = newline))) s cs k
  | Range lo hi => one_char (in_range lo hi) s cs k
  | OneOf l => one_char (fun x => bool_decide (x ∈ l)) s cs k
  | Space => one_char py_isspace s cs k
  | Seq r1 r2 => rmatch r1 s cs (fun s' cs' => rmatch r2 s' cs' k)
  | Alt r1 r2 => or_else (rmatch r1 s cs k) (fun _ => rmatch r2 s cs k)
  | Opt r1 => or_else (rmatch r1 s cs k) (fun _ => k s cs)
  | Star greedy r1 => star_loop greedy (rmatch r1) k (length s) s cs
  | Grp i r1 =>
      rmatch r1 s cs (fun s' cs' =>
        k s' (<[i := Some (take (length s - length s') s)]> cs'))
  | Eos =>
      match s with
      | [] => k s cs
      | [c] => if bool_decide (c = newline) then k s cs else None
      | _ => None
      end
  end.

(** [pattern.match(s)] followed by [.groups()]: the match is anchored at
    the start of [s] only; [n] is the number of groups of the pattern. *)
Definition re_match (n : nat) (r : regex) (s : string) : option (list (option string)) :=
  match rmatch r (chars s) (replicate n None) (fun _ cs => Some cs) with
  | Some cs => Some (map (option_map str) cs)
  | None => None
  end.

(** ** Loops, [sorted] and subscripts *)

Fixpoint mapM {A B} (f : A -> res B) (l : list A) : res (list B) :=
  match l with
  | [] => Ok []
  | a :: l' => b ← f a; bs ← mapM f l'; Ok (b :: bs)
  end.

Fixpoint foldM {A S} (f : S -> A -> res S) (l : list A) (s : S) : res S :=
  match l with
  | [] => Ok s
  | a :: l' => s' ← f s a; foldM f l' s'
  end.

(** [a < b] as [sorted] asks it.  Python also orders an [int] against a
    [float] and a list against a list; those two cases are left out
    ([Unmodelled]). *)
Definition py_lt (a b : json) : res bool :=
  match a, b with
  | JStr x, JStr y => Ok (str_ltb x y)
  | JFloat x, JFloat y => Ok (PrimFloat.ltb x y)
  | JInt x, JInt y => Ok (x <? y)
  | JBool x, JBool y => Ok (Z.b2z x <? Z.b2z y)
  | JInt x, JBool y => Ok (x <? Z.b2z y)
  | JBool x, JInt y => Ok (Z.b2z x <? y)
  | (JInt _ | JBool _), JFloat _ | JFloat _, (JInt _ | JBool _) => Raise Unmodelled
  | JArr _, JArr _ => Raise Unmodelled
  | _, _ => Raise TypeError
  end.

(** Stable insertion: [x] goes before the first element it is smaller than. *)
Fixpoint sorted_insert (x : json) (l : list json) : res (list json) :=
  match l with
  | [] => Ok [x]
  | y :: l' =>
      b ← py_lt x y;
      if b : bool then Ok (x :: y :: l') else l'' ← sorted_insert x l'; Ok (y :: l'')
  end.

(** [sorted(l)]: stable, and a [TypeError] when two elements cannot be
    ordered.  Exact on lists whose order is total (no NaN). *)
Definition sorted (l : list json) : res (list json) :=
  foldM (fun acc x => sorted_insert x acc) l [].

(** [v[x]] for an arbitrary subscript [x]. *)
Definition py_at (v x : json) : res json :=
  match v, x with
  | JObj _, JStr k => py_item v k
  | JObj _, (JArr _ | JObj _) => Raise TypeError
  | JObj _, _ => Raise KeyError
  | JArr l, JInt i =>
      let j := if i <? 0 then i + Z.of_nat (length l) else i in
      if j <? 0 then Raise IndexError
      else from_option Ok (Raise IndexError) (l !! Z.to_nat j)
  | JArr l, JBool b => from_option Ok (Raise IndexError) (l !! (if b then 1%nat else 0%nat))
  | _, _ => Raise TypeError
  end.

(** ** The page buffer, the same text in both handlers

    [reset], [startElement], [characters] and the first [if] of
    [endElement] are written identically in the [WikiXmlHandler] of
    [import_wikipedia.py] and in that of [update_wikidata.py]. *)

Record page_buffer : Type := {
  _buffer : list string;
  _state : option string;
  _values : gmap string string
}.

Definition reset : page_buffer :=
  {| _buffer := []; _state := None; _values := ∅ |}.

Definition startElement (name : string) (b : page_buffer) : page_buffer :=
  if bool_decide (name ∈ ["title"; "text"; "id"])
  then {| _buffer := _buffer b; _state := Some name; _values := _values b |}
  else b.

Definition characters (content : string) (b : page_buffer) : page_buffer :=
  match _state b with
  | Some st =>
      if negb (String.eqb st "")
      then {| _buffer := _buffer b ++ [content]; _state := _state b; _values := _values b |}
      else b
  | None => b
  end.

(** The first [if] of [endElement]:
    [if name == self._state:
       if name not in self._values: self._values[name] = ''.join(self._buffer)
       self._state = None
       self._buffer = []] *)
Definition close_field (name : string) (b : page_buffer) : page_buffer :=
  if bool_decide (Some name = _state b) then
    {| _buffer := [];
       _state := None;
       _values := match _values b !! name with
                  | None => <[name := join (_buffer b)]> (_values b)
                  | Some _ => _values b
                  end |}
  else b.

(** [self._values[k]] *)
Definition values_item (b : page_buffer) (k : string) : res string :=
  from_option Ok (Raise KeyError) (_values b !! k).

(** The events the markup decoder delivers. *)
Inductive event : Type :=
| Start (name : string)
| Chars (content : string)
| End (name : string).

(** [print]: the lines written so far, oldest first. *)
Definition print (line : string) (out : list string) : list string := out ++ [line].

Module UpdateWikidata.

(** ** [update_wikidata.py]: the typed value resolver *)

Definition digit : regex := Range "0" "9".

(** [DATE_PARSE_RE]:
    [([-+]?[0-9]+)-([0-9][0-9])-([0-9][0-9])T([0-9][0-9]):([0-9][0-9]):([0-9][0-9])Z?] *)
Definition DATE_PARSE_RE : regex :=
  Grp 0 (Opt (OneOf ["-"; "+"]%char) @@ Plus true digit) @@ Chr "-" @@
  Grp 1 (digit @@ digit) @@ Chr "-" @@
  Grp 2 (digit @@ digit) @@ Chr "T" @@
  Grp 3 (digit @@ digit) @@ Chr ":" @@
  Grp 4 (digit @@ digit) @@ Chr ":" @@
  Grp 5 (digit @@ digit) @@ Opt (Chr "Z").

Definition digit_val (c : ascii) : Z := Z.of_N (code c) - 48.

Definition digits_val (l : list ascii) : Z :=
  fold_left (fun acc c => 10 * acc + digit_val c) l 0.

(** The number [int(s)] converts a string made of an optional sign and
    decimal digits to, the only strings a group of [DATE_PARSE_RE] can
    hold. *)
Definition int_value (s : string) : Z :=
  match chars s with
  | "-"%char :: l => - digits_val l
  | "+"%char :: l => digits_val l
  | l => digits_val l
  end.

(** The digits of such a string, leading zeros included. *)
Definition int_digits (s : string) : list ascii :=
  match chars s with
  | "-"%char :: l => l
  | "+"%char :: l => l
  | l => l
  end.

(** The default of [sys.int_max_str_digits]. *)
Definition int_max_str_digits : nat := 4300.

(** [int(s)] on such a string: a [ValueError] when it has more digits than
    the interpreter converts. *)
Definition py_int (s : string) : res Z :=
  if (int_max_str_digits <? length (int_digits s))%nat then Raise ValueError
  else Ok (int_value s).

Definition decimal (n : Z) : string := NilZero.string_of_uint (N.to_uint (Z.to_N n)).

Definition zeros (n : nat) : string := str (replicate n "0"%char).

(** ['%0wd' % z]: the sign counts in the width [w]. *)
Definition pad_int (w : nat) (z : Z) : string :=
  if z <? 0
  then "-" +:+ zeros (w - 1 - len (decimal (- z))) +:+ decimal (- z)
  else zeros (w - len (decimal z)) +:+ decimal z.

(** [m.get(k)] on the id -> label map, whose keys are strings: a list or a
    dict is not hashable, any other key that is not a string is absent. *)
Definition map_get (m : gmap string string) (k : json) : res json :=
  match k with
  | JStr s => Ok (from_option JStr JNull (m !! s))
  | JArr _ | JObj _ => Raise TypeError
  | _ => Ok JNull
  end.

(** [v == s] for a string literal [s]. *)
Definition is_str (v : json) (s : string) : bool :=
  match v with
  | JStr t => String.eqb t s
  | _ => false
  end.

(** [DATE_PARSE_RE.match(v)], which wants a [str]. *)
Definition date_match (v : json) : res (option (list (option string))) :=
  match v with
  | JStr s => Ok (re_match 6 DATE_PARSE_RE s)
  | _ => Raise TypeError
  end.

(** [v.rsplit('/', 1)[-1]]: only a [str] has the method. *)
Definition py_rsplit_last (v : json) : res string :=
  match v with
  | JStr s => Ok (rsplit_last "/" s)
  | _ => Raise AttributeError
  end.

Definition zero_to_one (z : Z) : Z := if z =? 0 then 1 else z.

(** ['%04d-%02d-%02dT%02d:%02d:%02d' % (year, month, day, hour, minute, second)] *)
Definition format_time (year month day hour minute second : Z) : string :=
  pad_int 4 year +:+ "-" +:+ pad_int 2 month +:+ "-" +:+ pad_int 2 day +:+ "T" +:+
  pad_int 2 hour +:+ ":" +:+ pad_int 2 minute +:+ ":" +:+ pad_int 2 second.

Section resolver.

(** The builtin [float] applied to a decoded value. *)
Variable py_float : json -> res json.

Definition map_value (value : json) (id_name_map : gmap string string) : res json :=
  if negb (truthy value) then Ok JNull else
  has_type ← py_in "type" value;
  if negb has_type then Ok JNull else
  has_value ← py_in "value" value;
  if negb has_value then Ok JNull else
  typ ← py_item value "type";
  value ← py_item value "value";
  if is_str typ "string" then Ok value
  else if is_str typ "wikibase-entityid" then
    entitiy_id ← py_item value "id";
    map_get id_name_map entitiy_id
  else if is_str typ "time" then
    t ← py_item value "time";
    time_split ← date_match t;
    match time_split with
    | None => Ok JNull
    | Some [Some year; Some month; Some day; Some hour; Some minute; Some second] =>
        year ← py_int year;
        month ← py_int month;
        day ← py_int day;
        hour ← py_int hour;
        minute ← py_int minute;
        second ← py_int second;
        let day := zero_to_one day in
        let month := zero_to_one month in
        Ok (JStr (format_time year month day hour minute second))
    | Some _ => Raise TypeError
    end
  else if is_str typ "quantity" then
    amount ← py_item value "amount";
    py_float amount
  else if is_str typ "monolingualtext" then
    py_item value "text"
  else if is_str typ "globecoordinate" then
    lat ← py_get value "latitude" JNull;
    lng ← py_get value "longitude" JNull;
    if truthy lat || truthy lng then
      let res0 := [("lat", lat); ("lng", lng)] in
      g ← py_get value "globe" (JStr "");
      globe ← py_rsplit_last g;
      let res1 :=
        if negb (String.eqb globe "Q2") && bool_decide (is_Some (id_name_map !! globe))
        then dict_set res0 "globe" (JStr globe) else res0 in
      altitude ← py_get value "altitude" JNull;
      res2 ← (if truthy altitude
              then a ← py_item value "altitude"; Ok (dict_set res1 "altitude" a)
              else Ok res1);
      Ok (JObj res2)
    else Ok JNull
  else Ok JNull.

(** ** [update_wikidata.py]: the statement aggregation of [parse_props] *)

(** The tuple [parse_props] returns when it does not return six [None]s. *)
Record entity : Type := {
  wikipedia_id : json;
  title : json;
  labels : list json;
  sitelinks : json;
  description : json;
  properties : list (string * json)
}.

(** The buckets of one property: [ranks = defaultdict(list)].  Only the
    buckets of string ranks are kept, no other bucket is ever read. *)
Definition bucket (ranks : gmap string (list json)) (r : string) : list json :=
  default [] (ranks !! r).

(** The body of [for claim in claims]. *)
Definition add_claim (id_name_map : gmap string string)
    (ranks : gmap string (list json)) (claim : json) : res (gmap string (list json)) :=
  mainsnak ← py_get claim "mainsnak" JNull;
  if truthy mainsnak then
    datavalue ← py_get mainsnak "datavalue" JNull;
    data_value ← map_value datavalue id_name_map;
    if truthy data_value then
      rank ← py_item claim "rank";
      dv ← py_item mainsnak "datavalue";
      typ ← py_get dv "type" JNull;
      match rank with
      | JStr r =>
          let lst := bucket ranks r in
          let lst := if negb (is_str typ "wikibase-entityid") then [] else lst in
          Ok (<[r := lst ++ [data_value]]> ranks)
      | JArr _ | JObj _ => Raise TypeError
      | _ => Ok ranks
      end
    else Ok ranks
  else Ok ranks.

(** [value[0] if len(value) == 1 else sorted(value)] *)
Definition collapse (value : list json) : res json :=
  match value with
  | [v] => Ok v
  | _ => JArr <$> sorted value
  end.

(** [for r in 'preferred', 'normal', 'depricated': ... break] *)
Fixpoint pick_rank (ranks : gmap string (list json)) (rs : list string) : res (option json) :=
  match rs with
  | [] => Ok None
  | r :: rs' =>
      match bucket ranks r with
      | [] => pick_rank ranks rs'
      | value => Some <$> collapse value
      end
  end.

Definition rank_order : list string := ["preferred"; "normal"; "depricated"].

(** The body of [for prop_id, claims in d['claims'].items()]. *)
Definition add_property (id_name_map : gmap string string)
    (properties : list (string * json)) (item : string * json)
  : res (list (string * json)) :=
  let '(prop_id, claims) := item in
  match id_name_map !! prop_id with
  | Some prop_name =>
      if negb (String.eqb prop_name "") then
        cl ← py_iter claims;
        ranks ← foldM (add_claim id_name_map) cl ∅;
        value ← pick_rank ranks rank_order;
        match value with
        | Some v => Ok (dict_set properties prop_name v)
        | None => Ok properties
        end
      else Ok properties
  | None => Ok properties
  end.

Definition empty_dict : json := JObj [].

(** [parse_props(d, id_name_map)]; [None] is the tuple of six [None]s. *)
Definition parse_props (d : json) (id_name_map : gmap string string) : res (option entity) :=
  match d with
  | JObj kv =>
      let d_get k dflt := default dflt (dict_lookup kv k) in
      if is_dict (d_get "labels" empty_dict) && truthy (d_get "labels" JNull) then
        lbls ← py_item d "labels";
        keys ← py_iter (d_get "labels" empty_dict);
        labels ← mapM (fun x => e ← py_at lbls x; py_item e "value") keys;
        en ← py_get lbls "en" empty_dict;
        title ← py_get en "value" JNull;
        let '(sitelinks, wikipedia_id) :=
          match (xs ← py_iter (d_get "sitelinks" empty_dict);
                 mapM (fun x => e ← py_at (d_get "sitelinks" JNull) x; py_item e "title") xs) with
          | Ok sl =>
              (JArr sl,
               try_except (enwiki ← py_get (d_get "sitelinks" empty_dict) "enwiki" empty_dict;
                           py_get enwiki "title" JNull) JNull)
          | Raise _ => (JNull, JNull)
          end in
        let description :=
          try_except (ds ← py_item d "descriptions";
                      en ← py_get ds "en" empty_dict;
                      py_get en "value" JNull) JNull in
        let properties :=
          [("sitelinks", d_get "sitelinks" JNull); ("labels", d_get "labels" JNull)] in
        if truthy wikipedia_id && truthy title then
          claims ← py_item d "claims";
          match claims with
          | JObj items =>
              properties ← foldM (add_property id_name_map) items properties;
              Ok (Some {| wikipedia_id := wikipedia_id; title := title;
                          labels := labels; sitelinks := sitelinks;
                          description := description; properties := properties |})
          | _ => Ok None
          end
        else Ok None
      else Ok None
  | _ => Ok None
  end.

End resolver.

(** ** [update_wikidata.py]: the handler *)

Record handler : Type := {
  buf : page_buffer;
  _id_name_map : gmap string string;
  _count : Z;
  stdout : list string
}.

Definition with_buf (h : handler) (b : page_buffer) : handler :=
  {| buf := b; _id_name_map := _id_name_map h; _count := _count h; stdout := stdout h |}.

Section handler.

Variable py_float : json -> res json.

(** [json.loads]: the decoded value, or the exception it raises (a
    [JSONDecodeError], which is a [ValueError], on a text that is no JSON; a
    [RecursionError] on a text nested too deep). *)
Variable json_loads : string -> res json.

(** The [try] block of the [page] branch. *)
Definition page_try (h : handler) : res handler :=
  qcode ← values_item (buf h) "title";
  data ← values_item (buf h) "text";
  data ← json_loads data;
  _ ← parse_props py_float data (_id_name_map h);
  Ok {| buf := buf h; _id_name_map := _id_name_map h;
        _count := _count h + 1; stdout := stdout h |}.

Definition endElement (name : string) (h : handler) : res handler :=
  let h := with_buf h (close_field name (buf h)) in
  if String.eqb name "page" then
    h ← match page_try h with
        | Ok h' => Ok h'
        | Raise ParserError =>
            t ← values_item (buf h) "title";
            Ok {| buf := buf h; _id_name_map := _id_name_map h; _count := _count h;
                  stdout := print ("mwparser error for: " +:+ t) (stdout h) |}
        | Raise ValueError =>
            qcode ← values_item (buf h) "title";
            Ok {| buf := buf h; _id_name_map := _id_name_map h; _count := _count h;
                  stdout := print ("failed to parse json " +:+ qcode) (stdout h) |}
        | Raise e => Raise e
        end;
    Ok (with_buf h reset)
  else Ok h.

Definition handle (h : handler) (e : event) : res handler :=
  match e with
  | Start name => Ok (with_buf h (startElement name (buf h)))
  | Chars content => Ok (with_buf h (characters content (buf h)))
  | End name => endElement name h
  end.

(** The decoder calls the handler once per event; an exception that leaves
    a callback ends the run. *)
Definition feed (events : list event) (h : handler) : res handler :=
  foldM handle events h.

End handler.

(** [WikiXmlHandler(cursor, conn, id_name_map)] *)
Definition init (id_name_map : gmap string string) : handler :=
  {| buf := reset; _id_name_map := id_name_map; _count := 0; stdout := [] |}.

End UpdateWikidata.

Module ImportWikipedia.

(** ** [import_wikipedia.py]: the wikitext analysis *)

Definition CAT_PREFIX : string := "Category:".
Definition INFOBOX_PREFIX : string := "infobox ".

Definition in_of_by : regex := Alt (Lit (chars "in")) (Alt (Lit (chars "of")) (Lit (chars "by"))).

(** [RE_GENERAL]: [(.+?)(\ (in|of|by)\ )(.+)] *)
Definition RE_GENERAL : regex :=
  Grp 0 (Plus false Dot) @@ Grp 1 (Chr " " @@ Grp 2 in_of_by @@ Chr " ") @@
  Grp 3 (Plus true Dot).

Definition extact_general (category : string) : option string :=
  match re_match 4 RE_GENERAL category with
  | Some (Some head :: _) => Some head
  | _ => None
  end.

(** The order in which [list(set(...))] lists a set built from the values
    of a sequence: some enumeration, without repetition, of the values. *)
Record SetOrder : Type := {
  set_list : list string -> list string;
  set_list_NoDup : forall l, NoDup (set_list l);
  set_list_elem : forall l x, x ∈ set_list l <-> x ∈ l
}.

(** What [mwparserfromhell] gives for a page: for each template the text
    of [template.name.strip_code()] and the text of the template itself,
    and for each wikilink its title. *)
Record template : Type := { name_code : string; template_text : string }.
Record wikicode : Type := {
  filter_templates : list template;
  filter_wikilinks : list string
}.

(** One executed [INSERT INTO import.wikipedia]. *)
Record row : Type := {
  row_id : string;
  row_title : string;
  row_infobox : option string;
  row_wikitext : string;
  row_templates : list string;
  row_categories : list string;
  row_general : list string
}.

Record handler : Type := {
  buf : page_buffer;
  _count : Z;
  inserted : list row;
  commits : nat;
  stdout : list string
}.

Definition with_buf (h : handler) (b : page_buffer) : handler :=
  {| buf := b; _count := _count h; inserted := inserted h;
     commits := commits h; stdout := stdout h |}.

Definition with_stdout (h : handler) (out : list string) : handler :=
  {| buf := buf h; _count := _count h; inserted := inserted h;
     commits := commits h; stdout := out |}.

Section analysis.

(** The set order of the running interpreter. *)
Variable order : SetOrder.

(** [mwparserfromhell.parse]; [None] is the [ParserError]. *)
Variable mw_parse : string -> option wikicode.

(** [make_tags(iterable)]; an item of the iterable is a string or [None]. *)
Definition make_tags (iterable : list (option string)) : list string :=
  set_list order
    (omap (fun x =>
             match x with
             | Some x =>
                 if negb (String.eqb x "") && (len x <? 256)%nat
                 then Some (lower (strip x)) else None
             | None => None
             end) iterable).

(** [strip_template_name(template.name)] *)
Definition strip_template_name (t : template) : string := strip (name_code t).

(** [for template in template_names: if ...: infobox = ...; break] *)
Fixpoint find_infobox (template_names : list string) : option string :=
  match template_names with
  | [] => None
  | template :: rest =>
      if startswith template INFOBOX_PREFIX
      then Some (str_from (len INFOBOX_PREFIX) template)
      else find_infobox rest
  end.

Definition template_names (w : wikicode) : list string :=
  make_tags (map (fun t => Some (strip_template_name t)) (filter_templates w)).

Definition categories (w : wikicode) : list string :=
  make_tags (map (fun l => Some (str_from (len CAT_PREFIX) l))
               (filter (fun l => startswith l CAT_PREFIX = true) (filter_wikilinks w))).

Definition general (categories : list string) : list string :=
  make_tags (map extact_general categories).

(** The [try] block of the [page] branch: the handler it leaves, and the
    exception when it raises. *)
Definition page_try (h : handler) : handler * option exn :=
  match _values (buf h) !! "text" with
  | None => (h, Some KeyError)
  | Some text =>
  match mw_parse text with
  | None => (h, Some ParserError)
  | Some w =>
  let infobox := find_infobox (template_names w) in
  let too_long := (with_stdout h (print "Too long" (stdout h)), Some ParserError) in
  if (1024 <? len (default "" infobox))%nat then too_long else
  match _values (buf h) !! "title" with
  | None => (h, Some KeyError)
  | Some title =>
  if (1024 <? len title)%nat then too_long else
  let cats := categories w in
  let gen := general cats in
  match _values (buf h) !! "id" with
  | None => (h, Some KeyError)
  | Some id =>
  let r := {| row_id := id; row_title := title; row_infobox := infobox;
              row_wikitext := text;
              row_templates := make_tags (map (fun t => Some (template_text t)) (filter_templates w));
              row_categories := cats; row_general := gen |} in
  let count := _count h + 1 in
  ({| buf := buf h; _count := count; inserted := inserted h ++ [r];
      commits := if count mod 100000 =? 0 then S (commits h) else commits h;
      stdout := stdout h |}, None)
  end end end end.

Definition endElement (name : string) (h : handler) : res handler :=
  let h := with_buf h (close_field name (buf h)) in
  if String.eqb name "page" then
    h ← match page_try h with
        | (h', None) => Ok h'
        | (h', Some ParserError) =>
            t ← values_item (buf h') "title";
            Ok (with_stdout h' (print ("mwparser error for: " +:+ t) (stdout h')))
        | (_, Some e) => Raise e
        end;
    Ok (with_buf h reset)
  else Ok h.

Definition handle (h : handler) (e : event) : res handler :=
  match e with
  | Start name => Ok (with_buf h (startElement name (buf h)))
  | Chars content => Ok (with_buf h (characters content (buf h)))
  | End name => endElement name h
  end.

Definition feed (events : list event) (h : handler) : res handler :=
  foldM handle events h.

End analysis.

(** [WikiXmlHandler(cursor, conn)] *)
Definition init : handler :=
  {| buf := reset; _count := 0; inserted := []; commits := 0; stdout := [] |}.

(** The order in which the values first appear is one possible order. *)
Definition first_seen : SetOrder := {|
  set_list := remove_dups;
  set_list_NoDup := NoDup_remove_dups;
  set_list_elem := fun l x => elem_of_remove_dups l x
|}.

End ImportWikipedia.

Module WdDownloader.

(** ** [wd_downloader.py]: the choice of the incremental dumps to load *)

Definition STATUS_DONE : string := "done:all".

(** One day of the loop of [main]: its [date_str], and what
    [read_url_resource] returns for its status and for its highest
    revision id (the empty string when the resource cannot be read). *)
Record day : Type := {
  date_str : string;
  status : string;
  maxrevid : string
}.

(** The variable [max_rev_id], and the versions [download] and [update]
    were called with, oldest call first; the two calls are taken to
    return. *)
Record run : Type := {
  max_rev_id : Z;
  loaded : list string
}.

Section main.

(** The builtin [int] applied to a string. *)
Variable py_int : string -> res Z.

(** The body of the [while] loop of [main]. *)
Definition step (r : run) (d : day) : res run :=
  if String.eqb (strip (status d)) STATUS_DONE then
    rev_id ← py_int (maxrevid d);
    if max_rev_id r <? rev_id
    then Ok {| max_rev_id := rev_id; loaded := loaded r ++ [date_str d] |}
    else Ok r
  else Ok r.

(** [main(max_days, max_rev_id, ...)] over the days from [max_days] days
    ago to today. *)
Definition main (days : list day) (max_rev_id : Z) : res run :=
  foldM step days {| max_rev_id := max_rev_id; loaded := [] |}.

End main.

End WdDownloader.

Module ImportStats.

(** ** [import_stats.py]: the tally of the page views

    The script is Python 2: a [str] is a string of bytes. *)

(** [s.split(sep)] for a separator of one character. *)
Fixpoint split_chars (sep : ascii) (cur l : list ascii) : list (list ascii) :=
  match l with
  | [] => [cur]
  | c :: l' =>
      if decide (c = sep) then cur :: split_chars sep [] l'
      else split_chars sep (cur ++ [c]) l'
  end.

Definition split (sep : ascii) (s : string) : list string :=
  map str (split_chars sep [] (chars s)).

(** [s.endswith(p)] *)
Definition endswith (s p : string) : bool :=
  starts_with (rev (chars p)) (rev (chars s)).

(** [s.replace(a, b)] for two strings of one character. *)
Definition replace (a b : ascii) (s : string) : string :=
  str (map (fun c => if decide (c = a) then b else c) (chars s)).

Section tally.

(** [urllib.unquote]. *)
Variable unquote : string -> string.

(** [s.decode('utf8')]; [None] is the [UnicodeDecodeError]. *)
Variable decode : string -> option string.

(** The builtin [int] applied to a string. *)
Variable py_int : string -> res Z.

(** The body of [for line in ...stdout] on the counter [c]. *)
Definition count_line (c : gmap string Z) (line : string) : res (gmap string Z) :=
  if startswith line "en " then
    match split " " line with
    | [_; wikipedia_id; count; size] =>
        if negb (is_infix (chars ":") (chars wikipedia_id)) then
          match decode (replace "_" " " (unquote wikipedia_id)) with
          | None => Ok c
          | Some title =>
              n ← py_int count;
              Ok (<[title := default 0 (c !! title) + n]> c)
          end
        else Ok c
    | _ => Raise ValueError
    end
  else Ok c.

(** The body of [for fn in os.listdir(dump_dir)]: a file is its name and
    the lines [zcat] gives for it. *)
Definition count_file (c : gmap string Z) (f : string * list string)
  : res (gmap string Z) :=
  if endswith (fst f) ".gz" then foldM count_line (snd f) c else Ok c.

(** The counter [c] that [main] fills from the files of the directory. *)
Definition main (files : list (string * list string)) : res (gmap string Z) :=
  foldM count_file files ∅.

End tally.

End ImportStats.

(** * Vocabulary of the statements and inputs of the examples *)

(** ** The page buffer *)

Definition tracked : list string := ["title"; "text"; "id"].

(** A page buffer in which the page id is committed and a second [id]
    element (that of the revision) is being closed. *)
Definition second_id : page_buffer :=
  {| _buffer := ["999"]; _state := Some "id"; _values := {["id" := "1"]} |}.

(** ** The rank buckets of one property *)

Import UpdateWikidata.

(** [resolves] describes a statement the loop files: its main snak has a
    data value that [map_value] resolves to the truthy [v], its rank is the
    string [r], and [e] tells whether the data value is declared an entity
    reference. *)
Inductive resolves (py_float : json → res json) (m : gmap string string)
    (claim : json) (r : string) (e : bool) (v : json) : Prop :=
| resolves_intro kv ms dv :
    claim = JObj kv →
    dict_lookup kv "mainsnak" = Some (JObj ms) →
    dict_lookup ms "datavalue" = Some (JObj dv) →
    map_value py_float (JObj dv) m = Ok v →
    truthy v = true →
    dict_lookup kv "rank" = Some (JStr r) →
    e = is_str (default JNull (dict_lookup dv "type")) "wikibase-entityid" →
    resolves py_float m claim r e v.

(** [skips] describes a statement the loop leaves out: it has no main snak,
    or its data value resolves to a falsy value (an unknown entity, no
    value at all). *)
Inductive skips (py_float : json → res json) (m : gmap string string)
    (claim : json) : Prop :=
| skips_mainsnak kv :
    claim = JObj kv →
    truthy (default JNull (dict_lookup kv "mainsnak")) = false →
    skips py_float m claim
| skips_value kv ms v :
    claim = JObj kv →
    dict_lookup kv "mainsnak" = Some (JObj ms) →
    ms ≠ [] →
    map_value py_float (default JNull (dict_lookup ms "datavalue")) m = Ok v →
    truthy v = false →
    skips py_float m claim.

(** What the loop does with a statement: file [v] under [r], or nothing. *)
Definition files (py_float : json → res json) (m : gmap string string)
    (claim : json) (t : option (string * bool * json)) : Prop :=
  match t with
  | Some (r, e, v) => resolves py_float m claim r e v
  | None => skips py_float m claim
  end.

(** What one filed statement does to its bucket: [del lst[:]] unless it is
    an entity reference, then [lst.append(data_value)]. *)
Definition file_one (acc : list json) (t : bool * json) : list json :=
  (if fst t then acc else []) ++ [snd t].

(** What one statement does to the bucket of rank [r]. *)
Definition file_value (r : string) (acc : list json)
    (t : option (string * bool * json)) : list json :=
  match t with
  | Some (r', e, v) => if String.eqb r' r then file_one acc (e, v) else acc
  | None => acc
  end.

(** The statements from the last one that is not an entity reference on,
    all of them when every one is an entity reference. *)
Fixpoint last_run (ts : list (bool * json)) : list (bool * json) :=
  match ts with
  | [] => []
  | t :: ts' => if forallb fst ts' then t :: ts' else last_run ts'
  end.

(** The statements filed under the rank [r]. *)
Definition of_rank (r : string) (ts : list (option (string * bool * json)))
  : list (bool * json) :=
  omap (λ t, match t with
             | Some (r', e, v) => if String.eqb r' r then Some (e, v) else None
             | None => None
             end) ts.

Definition buckets (py_float : json → res json) (m : gmap string string)
    (claims : list json) : res (gmap string (list json)) :=
  foldM (add_claim py_float m) claims ∅.

Definition no_float : json → res json := fun _ => Raise ValueError.

Definition datavalue (typ : string) (v : json) : json :=
  JObj [("value", v); ("type", JStr typ)].

Definition entity_ref (id : string) : json :=
  datavalue "wikibase-entityid" (JObj [("entity-type", JStr "item"); ("id", JStr id)]).

Definition statement (rank : string) (dv : json) : json :=
  JObj [("mainsnak", JObj [("snaktype", JStr "value"); ("property", JStr "P1");
                           ("datavalue", dv)]);
        ("type", JStr "statement"); ("rank", JStr rank)].

Definition lookup_X : gmap string string := {["P1" := "color"; "Q5" := "X"; "Q6" := "B"; "Q7" := "C"; "Q111" := "Mars"]}.

Definition mixed_bucket : list json :=
  [statement "normal" (entity_ref "Q5");
   statement "normal" (datavalue "string" (JStr "raw string"))].

(** An entity reference the lookup knows, one it does not know, a string,
    and an entity reference again, all of one rank. *)
Definition longer_bucket : list json :=
  [statement "normal" (entity_ref "Q5"); statement "normal" (entity_ref "Q404");
   statement "normal" (datavalue "string" (JStr "raw string"));
   statement "normal" (entity_ref "Q6")].

(** One step of a Python expression: a method call on a known dict, a
    bind on a known result. *)
Ltac py_step :=
  cbn [py_get py_item mbind res_bind fmap res_fmap default from_option id].

(** ** The choice of the rank *)

Definition entity_doc (claims : list (string * json)) : json :=
  JObj ([("type", JStr "item"); ("id", JStr "Q1");
         ("labels", JObj [("en", JObj [("language", JStr "en"); ("value", JStr "T")])]);
         ("sitelinks", JObj [("enwiki", JObj [("site", JStr "enwiki"); ("title", JStr "T")])])]
        ++ claims).

Definition string_statement (rank value : string) : json :=
  statement rank (datavalue "string" (JStr value)).

Definition color_of (claims : list json) : res (option (option json)) :=
  (λ e : option entity, (λ e, dict_lookup (properties e) "color") <$> e)
  <$> parse_props no_float (entity_doc [("claims", JObj [("P1", JArr claims)])]) lookup_X.

(** ** Coordinates *)

(** The [globe] entry of a resolved coordinate: the last path segment of
    the globe, unless it is ["Q2"] or the lookup does not know it. *)
Definition globe_field (m : gmap string string) (globe : string) : list (string * json) :=
  if negb (String.eqb globe "Q2") && bool_decide (is_Some (m !! globe))
  then [("globe", JStr globe)] else [].

Definition altitude_field (kv : list (string * json)) : list (string * json) :=
  let a := default JNull (dict_lookup kv "altitude") in
  if truthy a then [("altitude", a)] else [].

Definition coordinate (kv : list (string * json)) : json :=
  datavalue "globecoordinate" (JObj kv).

Definition null_island : list (string * json) :=
  [("latitude", JInt 0); ("longitude", JInt 0); ("altitude", JNull);
   ("precision", JFloat 0.0001); ("globe", JStr "http://www.wikidata.org/entity/Q2")].

Definition paris : list (string * json) :=
  [("latitude", JFloat 48.8); ("longitude", JFloat 2.3)].

(** ** The matcher on the patterns of the scripts *)

(** The longest prefix of [s] made of characters of the class [p], and
    what follows it. *)
Fixpoint span (p : ascii → bool) (s : list ascii) : list ascii :=
  match s with
  | c :: s' => if p c then c :: span p s' else []
  | [] => []
  end.

Fixpoint skip (p : ascii → bool) (s : list ascii) : list ascii :=
  match s with
  | c :: s' => if p c then skip p s' else s
  | [] => []
  end.

(** What a lazy repetition of one character class finds: the first point,
    going right through characters of the class, where the continuation
    succeeds. *)
Fixpoint lazy_scan (p : ascii → bool) (k : list ascii → captures → option captures)
    (s : list ascii) (cs : captures) : option captures :=
  or_else (k s cs) (λ _,
    match s with
    | c :: s' => if p c then lazy_scan p k s' cs else None
    | [] => None
    end).

Definition two_digits (s : list ascii) : option (list ascii * list ascii) :=
  match s with
  | c1 :: c2 :: rest => if is_digit c1 && is_digit c2 then Some ([c1; c2], rest) else None
  | _ => None
  end.

Definition year_body (R : regex) (k : list ascii → captures → option captures)
    (cs : captures) (sg s1 : list ascii) : option captures :=
  match s1 with
  | c :: s2 =>
      if is_digit c
      then rmatch R (skip is_digit s2) (<[0%nat := Some (sg ++ c :: span is_digit s2)]> cs) k
      else None
  | [] => None
  end.

Definition expect (c : ascii) (s : list ascii) : option (list ascii) :=
  match s with
  | x :: rest => if bool_decide (x = c) then Some rest else None
  | [] => None
  end.

(** What follows the year in [DATE_PARSE_RE]. *)
Definition DATE_TAIL : regex :=
  Chr "-" @@ Grp 1 (digit @@ digit) @@ Chr "-" @@
  Grp 2 (digit @@ digit) @@ Chr "T" @@
  Grp 3 (digit @@ digit) @@ Chr ":" @@
  Grp 4 (digit @@ digit) @@ Chr ":" @@
  Grp 5 (digit @@ digit) @@ Opt (Chr "Z").

(** The five two-digit fields that follow the year, read directly. *)
Definition date_tail (s : list ascii) : option (list (list ascii)) :=
  s ← expect "-" s; '(month, s) ← two_digits s;
  s ← expect "-" s; '(day, s) ← two_digits s;
  s ← expect "T" s; '(hour, s) ← two_digits s;
  s ← expect ":" s; '(minute, s) ← two_digits s;
  s ← expect ":" s; '(second, s) ← two_digits s;
  Some [month; day; hour; minute; second].

Definition year_digits (sg s1 : list ascii) : option (list (list ascii)) :=
  match s1 with
  | c :: s2 =>
      if is_digit c
      then (λ gs, (sg ++ c :: span is_digit s2) :: gs) <$> date_tail (skip is_digit s2)
      else None
  | [] => None
  end.

(** The six groups of [DATE_PARSE_RE] at the start of [s], read directly. *)
Definition date_groups (s : list ascii) : option (list (list ascii)) :=
  or_else
    (match s with
     | c :: s1 => if bool_decide (c ∈ ["-"; "+"]%char) then year_digits [c] s1 else None
     | [] => None
     end)
    (λ _, year_digits [] s).

(** ** Time values *)

(** The text [DATE_PARSE_RE] matches at the start of a string: an optional
    sign, the digits of the year, and five fields of two digits. *)
Record time_fields : Type := {
  t_sign : list ascii;
  t_year : list ascii;
  t_month : list ascii;
  t_day : list ascii;
  t_hour : list ascii;
  t_minute : list ascii;
  t_second : list ascii
}.

Definition time_text (f : time_fields) : list ascii :=
  t_sign f ++ t_year f ++ "-"%char :: t_month f ++ "-"%char :: t_day f ++
  "T"%char :: t_hour f ++ ":"%char :: t_minute f ++ ":"%char :: t_second f.

Definition is_field (l : list ascii) : bool :=
  match l with
  | [a; b] => is_digit a && is_digit b
  | _ => false
  end.

Definition is_year (l : list ascii) : bool :=
  match l with
  | [] => false
  | _ => forallb is_digit l
  end.

Definition valid_time (f : time_fields) : bool :=
  bool_decide (t_sign f ∈ [[]; ["-"%char]; ["+"%char]]) && is_year (t_year f)
  && is_field (t_month f) && is_field (t_day f) && is_field (t_hour f)
  && is_field (t_minute f) && is_field (t_second f).

Definition field_val (l : list ascii) : Z := int_value (str l).
Definition year_of (f : time_fields) : Z := int_value (str (t_sign f ++ t_year f)).

(** What [map_value] makes of the fields. *)
Definition normalized (f : time_fields) : string :=
  format_time (year_of f)
    (zero_to_one (field_val (t_month f))) (zero_to_one (field_val (t_day f)))
    (field_val (t_hour f)) (field_val (t_minute f)) (field_val (t_second f)).

(** The form [YYYY-MM-DDTHH:MM:SS]. *)
Definition iso_form (s : string) : bool :=
  match chars s with
  | [y1; y2; y3; y4; a; m1; m2; b; d1; d2; c; h1; h2; d; n1; n2; e; s1; s2] =>
      forallb is_digit [y1; y2; y3; y4; m1; m2; d1; d2; h1; h2; n1; n2; s1; s2]
      && bool_decide ([a; b; c; d; e] = ["-"; "-"; "T"; ":"; ":"]%char)
  | _ => false
  end.

Definition time_value (s : string) : json :=
  datavalue "time" (JObj [("time", JStr s); ("timezone", JInt 0); ("precision", JInt 11)]).

Definition the_digits : list ascii := ["0"; "1"; "2"; "3"; "4"; "5"; "6"; "7"; "8"; "9"]%char.

Definition groups_of (f : time_fields) : list (list ascii) :=
  [t_sign f ++ t_year f; t_month f; t_day f; t_hour f; t_minute f; t_second f].

Definition four_digits (s : string) : bool :=
  match chars s with
  | [a; b; c; d] => forallb is_digit [a; b; c; d]
  | _ => false
  end.

Definition two_digit_text (s : string) : bool :=
  match chars s with
  | [a; b] => is_digit a && is_digit b
  | _ => false
  end.

Definition year_1999 : time_fields :=
  {| t_sign := ["+"%char]; t_year := chars "1999"; t_month := chars "00";
     t_day := chars "00"; t_hour := chars "00"; t_minute := chars "00";
     t_second := chars "00" |}.

(** ** The head of a category *)

Import ImportWikipedia.

Definition not_newline (c : ascii) : bool := negb (bool_decide (c = newline)).

Definition is_word (a b : ascii) : bool :=
  bool_decide (a = "i"%char) && bool_decide (b = "n"%char)
  || bool_decide (a = "o"%char) && bool_decide (b = "f"%char)
  || bool_decide (a = "b"%char) && bool_decide (b = "y"%char).

(** [s] starts with [" in "], [" of "] or [" by "] and goes on with a
    character that is not a newline. *)
Definition sep_ok (s : list ascii) : bool :=
  match s with
  | c0 :: a :: b :: c3 :: c4 :: _ =>
      bool_decide (c0 = " "%char) && is_word a b && bool_decide (c3 = " "%char)
      && not_newline c4
  | _ => false
  end.

(** What follows the head in [RE_GENERAL]. *)
Definition GENERAL_TAIL : regex :=
  Grp 1 (Chr " " @@ Grp 2 in_of_by @@ Chr " ") @@ Grp 3 (Plus true Dot).

(** The head of a category, read directly: the shortest non-empty prefix,
    free of newlines, that is followed by a separator. *)
Fixpoint find_head (pre s : list ascii) : option (list ascii) :=
  if sep_ok s then Some pre
  else match s with
       | c :: s' => if not_newline c then find_head (pre ++ [c]) s' else None
       | [] => None
       end.

Definition general_head (s : list ascii) : option (list ascii) :=
  match s with
  | c :: s1 => if not_newline c then find_head [c] s1 else None
  | [] => None
  end.

(** [h] is a head of [s]: not empty, free of newlines, and followed in [s]
    by a separator and one more character of the line. *)
Definition is_head (h s : list ascii) : Prop :=
  h ≠ [] ∧ forallb not_newline h = true ∧ ∃ rest, s = h ++ rest ∧ sep_ok rest = true.

(** The pattern as the specification words it: [^(.+?)\s(in|of|by)\s(.+)$]. *)
Definition SPEC_RE_GENERAL : regex :=
  Grp 0 (Plus false Dot) @@ Space @@ Grp 1 in_of_by @@ Space @@
  Grp 2 (Plus true Dot) @@ Eos.

Definition spec_general (category : string) : option string :=
  match re_match 3 SPEC_RE_GENERAL category with
  | Some (Some head :: _) => Some head
  | _ => None
  end.

Definition tab : ascii := "009"%char.

Definition tab_separated : string :=
  str (chars "cities" ++ tab :: chars "in" ++ tab :: chars "france").

(** ** The infobox of a page *)

(** The page of the example: the templates [Infobox settlement] and
    [Cite web]. *)
Definition infobox_settlement : template :=
  {| name_code := "Infobox settlement"; template_text := "{{Infobox settlement|name=Paris}}" |}.

Definition cite_web : template :=
  {| name_code := "Cite web"; template_text := "{{Cite web|url=x}}" |}.

Definition settlement_page : wikicode :=
  {| filter_templates := [infobox_settlement; cite_web];
     filter_wikilinks := ["Category:Cities in France"; "France"] |}.

(** A page that invokes two infobox templates, [Infobox a] first. *)
Definition two_infoboxes : wikicode :=
  {| filter_templates := [{| name_code := "Infobox a"; template_text := "{{Infobox a}}" |};
                          {| name_code := "Infobox b"; template_text := "{{Infobox b}}" |}];
     filter_wikilinks := [] |}.

(** Another possible order of a set: the values that appear last come
    first. *)
Definition last_seen : SetOrder := {|
  set_list := λ l, reverse (remove_dups l);
  set_list_NoDup := λ l,
    proj2 (NoDup_Permutation_proper _ _ (reverse_Permutation _)) (NoDup_remove_dups l);
  set_list_elem := λ l x, iff_trans (elem_of_reverse _ _) (elem_of_remove_dups l x)
|}.

(** ** Pages of the wikitext dump *)

Definition long_title : string := str (replicate 1025 "x"%char).

(** A handler that has read the fields of a page whose title has 1025
    characters, and has inserted one row before. *)
Definition oversized : handler :=
  {| buf := {| _buffer := []; _state := None;
               _values := {["title" := long_title; "id" := "7"; "text" := "{{Infobox x}}"]} |};
     _count := 1;
     inserted := [{| row_id := "1"; row_title := "A"; row_infobox := None;
                     row_wikitext := ""; row_templates := []; row_categories := [];
                     row_general := [] |}];
     commits := 0;
     stdout := [] |}.

Definition parse_settlement : string → option wikicode := λ _, Some settlement_page.

(** ** Records of the entity dump *)

(** [labels] is the dict of the labels when the record has one that is
    not empty. *)
Definition has_labels (kv : list (string * json)) : bool :=
  is_dict (default empty_dict (dict_lookup kv "labels"))
  && truthy (default JNull (dict_lookup kv "labels")).

(** The labels and the title as [parse_props] reads them. *)
Definition read_labels (kv : list (string * json)) : res (list json * json) :=
  lbls ← py_item (JObj kv) "labels";
  keys ← py_iter (default empty_dict (dict_lookup kv "labels"));
  labels ← mapM (λ x, e ← py_at lbls x; py_item e "value") keys;
  en ← py_get lbls "en" empty_dict;
  title ← py_get en "value" JNull;
  Ok (labels, title).

(** The sitelinks and the [enwiki] title as the first [try] block of
    [parse_props] leaves them. *)
Definition read_sitelinks (kv : list (string * json)) : json * json :=
  match (xs ← py_iter (default empty_dict (dict_lookup kv "sitelinks"));
         mapM (λ x, e ← py_at (default JNull (dict_lookup kv "sitelinks")) x;
                    py_item e "title") xs) with
  | Ok sl =>
      (JArr sl,
       try_except (enwiki ← py_get (default empty_dict (dict_lookup kv "sitelinks"))
                              "enwiki" empty_dict;
                   py_get enwiki "title" JNull) JNull)
  | Raise _ => (JNull, JNull)
  end.

Definition enwiki_title (kv : list (string * json)) : json := snd (read_sitelinks kv).

(** Every label is a dict with a [value]. *)
Definition labels_well_formed (labels : list (string * json)) : Prop :=
  Forall (λ p, ∃ ekv v, snd p = JObj ekv ∧ dict_lookup ekv "value" = Some v) labels.

(** A record with labels and an [enwiki] sitelink whose only label has no
    dict around its value. *)
Definition bare_label_doc : json :=
  JObj [("id", JStr "Q1"); ("labels", JObj [("en", JStr "T")]);
        ("sitelinks", JObj [("enwiki", JObj [("site", JStr "enwiki"); ("title", JStr "T")])]);
        ("claims", JObj [])].

(** ** Pages of the entity dump *)

(** The events of one page of a dump: the title, the page id, and in the
    revision its own id and the text. *)
Definition page_events (title id text : string) : list event :=
  [Start "page"; Start "title"; Chars title; End "title";
   Start "ns"; Chars "0"; End "ns"; Start "id"; Chars id; End "id";
   Start "revision"; Start "id"; Chars "1001"; End "id";
   Start "text"; Chars text; End "text"; End "revision"; End "page"].

(** The decoder of the examples: it knows the text of these pages; any
    other text does not decode. *)
Definition example_loads (text : string) : res json :=
  from_option Ok (Raise ValueError)
    (dict_lookup
       [("text of Q1",
         entity_doc [("claims", JObj [("P1", JArr [string_statement "normal" "A"])])]);
        ("text of Q3", entity_doc [])] text).

Definition wikidata_feed (events : list event) : res UpdateWikidata.handler :=
  UpdateWikidata.feed no_float example_loads events (UpdateWikidata.init lookup_X).

Definition parse_unless_bad : string → option wikicode :=
  λ text, if String.eqb text "bad" then None else Some settlement_page.

(** ** Runs of events *)

(** What an event other than the end of a page does to the page buffer
    (the end of a page also runs the page branch of [endElement]). *)
Definition buffer_step (b : page_buffer) (e : event) : page_buffer :=
  match e with
  | Start name => startElement name b
  | Chars content => characters content b
  | End name => close_field name b
  end.

Definition ends_page (e : event) : bool :=
  match e with
  | End name => String.eqb name "page"
  | _ => false
  end.

(** The states the handlers can be in: no field is active, or one of the
    three tracked fields is. *)
Definition state_ok (b : page_buffer) : Prop :=
  _state b = None ∨ ∃ name, name ∈ tracked ∧ _state b = Some name.

(** Inside a field: text, and the tags of elements that are neither
    tracked nor the page. *)
Definition inner (e : event) : bool :=
  match e with
  | Chars _ => true
  | Start name | End name =>
      negb (bool_decide (name ∈ tracked)) && negb (String.eqb name "page")
  end.

(** The pieces of text of a run of events, in order. *)
Definition texts (es : list event) : list string :=
  omap (λ e, match e with Chars content => Some content | _ => None end) es.

(** ** Streams of pages of the wikitext dump *)

(** A page of a dump: its title, its id and its text. *)
Record raw_page : Type := { page_title : string; page_id : string; page_text : string }.

Definition events_of (p : raw_page) : list event :=
  page_events (page_title p) (page_id p) (page_text p).

Definition fields_of (p : raw_page) : gmap string string :=
  {["title" := page_title p; "id" := page_id p; "text" := page_text p]}.

Section stream.

Variable order : SetOrder.
Variable mw_parse : string → option wikicode.

(** The row of a page, when the page gets one: its text parses and neither
    its infobox nor its title is too long. *)
Definition row_of (p : raw_page) : option row :=
  w ← mw_parse (page_text p);
  let infobox := find_infobox (template_names order w) in
  if (1024 <? len (default "" infobox))%nat || (1024 <? len (page_title p))%nat
  then None
  else Some {| row_id := page_id p; row_title := page_title p; row_infobox := infobox;
               row_wikitext := page_text p;
               row_templates :=
                 make_tags order (map (λ t, Some (template_text t)) (filter_templates w));
               row_categories := categories order w;
               row_general := general order (categories order w) |}.

(** The lines printed for a page that gets no row. *)
Definition rejection_lines (p : raw_page) : list string :=
  match mw_parse (page_text p) with
  | Some _ => ["Too long"; "mwparser error for: " +:+ page_title p]
  | None => ["mwparser error for: " +:+ page_title p]
  end.

(** The lines printed for a page. *)
Definition page_log (p : raw_page) : list string :=
  match row_of p with
  | Some _ => []
  | None => rejection_lines p
  end.

(** The handler after a whole page. *)
Definition after_page (h : handler) (p : raw_page) : handler :=
  match row_of p with
  | Some r =>
      {| buf := reset; _count := _count h + 1; inserted := inserted h ++ [r];
         commits := if (_count h + 1) mod 100000 =? 0 then S (commits h) else commits h;
         stdout := stdout h |}
  | None =>
      {| buf := reset; _count := _count h; inserted := inserted h;
         commits := commits h; stdout := stdout h ++ rejection_lines p |}
  end.

End stream.

(** A decoder that finds the text [deep] nested too deep. *)
Definition nested_loads (text : string) : res json :=
  if String.eqb text "deep" then Raise RecursionError else example_loads text.

(** ** Days of the incremental dumps *)

(** The dump of the day is complete. *)
Definition ready (d : WdDownloader.day) : bool :=
  String.eqb (strip (WdDownloader.status d)) WdDownloader.STATUS_DONE.

(** An [int] for the examples: it reads three numerals and rejects any
    other string. *)
Definition example_int (s : string) : res Z :=
  if String.eqb s "90" then Ok 90
  else if String.eqb s "100" then Ok 100
  else if String.eqb s "120" then Ok 120
  else Raise ValueError.

(** ** Lines of the page-view dumps *)

(** A decoder for the examples: every title is plain ASCII. *)
Definition ascii_title : string → option string := Some.

(** An [int] for the examples: it reads the numerals of one digit and
    rejects any other string. *)
Definition digit_int (s : string) : res Z :=
  match chars s with
  | [c] => if is_digit c then Ok (Z.of_N (code c) - 48) else Raise ValueError
  | _ => Raise ValueError
  end.

(** ** Tags *)

(** Neither end of [l] is a space. *)
Definition trimmed (l : list ascii) : Prop :=
  lstrip_chars l = l ∧ lstrip_chars (rev l) = rev l.

(** ** Runs of events *)

(** The states the handlers keep the buffer in: no field is active or a
    tracked one is, and the text buffer is empty when none is active. *)
Definition buffer_ok (b : page_buffer) : Prop :=
  state_ok b ∧ (_state b = None → _buffer b = []).

(** ** The value of a property *)

(** The values the property gets: those filed under the first of the
    ranks [preferred], [normal], [depricated] that has any, from the last
    one that is not an entity reference on. *)
Definition chosen_run (ts : list (option (string * bool * json))) : list json :=
  let run r := map snd (last_run (of_rank r ts)) in
  match run "preferred" with
  | [] => match run "normal" with
          | [] => run "depricated"
          | value => value
          end
  | value => value
  end.

(** ** The value of a property with several statements *)

(** No string of the list is smaller than the one before it. *)
Fixpoint ascending (l : list string) : bool :=
  match l with
  | a :: (b :: _) as l' => negb (str_ltb b a) && ascending l'
  | _ => true
  end.

(** [sorted_insert] on strings. *)
Fixpoint insert_str (x : string) (l : list string) : list string :=
  match l with
  | [] => [x]
  | y :: l' => if str_ltb x y then x :: y :: l' else y :: insert_str x l'
  end.

(** ** Records of the entity dump: what [parse_props] returns *)

Ltac py_step_in H :=
  cbn [py_get py_item mbind res_bind fmap res_fmap default from_option id] in H.

(** * Properties *)

(** ** The page buffer *)

Lemma close_field_inactive name b :
  _state b ≠ Some name → close_field name b = b.
Proof.
  intros Hne. unfold close_field.
  rewrite bool_decide_eq_false_2; [done | congruence].
Qed.

(** C10, as stated, fails: closing an [id] element while [id] is active
    does not commit the buffered text when the page already has an id. *)
Lemma close_field_overwrites_counterexample :
  ¬ (∀ name b, name ∈ tracked → _state b = Some name →
       _values (close_field name b) !! name = Some (join (_buffer b))
       ∧ _buffer (close_field name b) = []).
Proof.
  intros Hclaim.
  destruct (Hclaim "id" second_id) as [Hcommit _].
  - unfold tracked. rewrite !elem_of_cons. auto.
  - reflexivity.
  - vm_compute in Hcommit. discriminate.
Qed.

(** C10 (amended): closing the active field always clears the buffer and
    the active state; the buffered text is committed to the field when the
    page has no value for that field yet, and a value committed earlier for
    the same page is kept; no other field changes. *)
Theorem close_field_first_wins name b :
  _state b = Some name →
  _buffer (close_field name b) = []
  ∧ _state (close_field name b) = None
  ∧ _values (close_field name b) !! name
    = Some (default (join (_buffer b)) (_values b !! name))
  ∧ ∀ k, k ≠ name → _values (close_field name b) !! k = _values b !! k.
Proof.
  intros Hst. unfold close_field.
  rewrite bool_decide_eq_true_2 by done. cbn.
  repeat split.
  - destruct (_values b !! name) as [v|] eqn:Hv; cbn.
    + done.
    + by rewrite lookup_insert_eq.
  - intros k Hk. destruct (_values b !! name) eqn:Hv; [done|].
    by rewrite lookup_insert_ne.
Qed.

Lemma close_field_first_wins_witness :
  _state second_id = Some "id"
  ∧ _values (close_field "id" second_id) !! "id" = Some "1".
Proof.
  split; [reflexivity|].
  destruct (close_field_first_wins "id" second_id eq_refl) as (_ & _ & Hv & _).
  rewrite Hv. reflexivity.
Defined.

(** ** The rank buckets of one property *)

Section buckets.

Variable py_float : json → res json.
Variable m : gmap string string.

Lemma truthy_dict_lookup kv k v :
  dict_lookup kv k = Some v → truthy (JObj kv) = true.
Proof. destruct kv; [discriminate | reflexivity]. Qed.

Lemma add_claim_resolves ranks claim r e v :
  resolves py_float m claim r e v →
  add_claim py_float m ranks claim
  = Ok (<[r := (if e then bucket ranks r else []) ++ [v]]> ranks).
Proof.
  intros [kv ms dv -> Hms Hdv Hmv Hv Hr ->].
  unfold add_claim. py_step.
  rewrite Hms. py_step. rewrite (truthy_dict_lookup _ _ _ Hdv).
  rewrite Hdv. py_step. rewrite Hmv. py_step. rewrite Hv, Hr. py_step.
  by destruct (is_str _ _).
Qed.

Lemma add_claim_skips ranks claim :
  skips py_float m claim → add_claim py_float m ranks claim = Ok ranks.
Proof.
  intros [kv -> Hms | kv ms v -> Hms Hne Hmv Hv]; unfold add_claim; py_step.
  - by rewrite Hms.
  - rewrite Hms. py_step. destruct ms as [|p ms]; [done|]. cbn [truthy].
    rewrite Hmv. py_step. by rewrite Hv.
Qed.

Lemma bucket_insert ranks r r' l :
  bucket (<[r' := l]> ranks) r = if String.eqb r' r then l else bucket ranks r.
Proof.
  unfold bucket. destruct (String.eqb_spec r' r) as [->|Hne].
  - by rewrite lookup_insert_eq.
  - by rewrite lookup_insert_ne.
Qed.

Lemma foldM_add_claim claims ts ranks :
  Forall2 (files py_float m) claims ts →
  ∃ ranks', foldM (add_claim py_float m) claims ranks = Ok ranks'
    ∧ ∀ r, bucket ranks' r = fold_left (file_value r) ts (bucket ranks r).
Proof.
  intros H. revert ranks.
  induction H as [|claim [[[r e] v]|] claims ts Hres _ IH]; intros ranks.
  - by exists ranks.
  - cbn [foldM]. rewrite (add_claim_resolves _ _ _ _ _ Hres). cbn [mbind res_bind].
    destruct (IH (<[r := (if e then bucket ranks r else []) ++ [v]]> ranks))
      as (ranks' & -> & Hb).
    exists ranks'. split; [done|]. intros r0. rewrite Hb. cbn [fold_left].
    f_equal. rewrite bucket_insert. unfold file_value.
    destruct (String.eqb_spec r r0) as [->|]; done.
  - cbn [foldM]. rewrite (add_claim_skips _ _ Hres). cbn [mbind res_bind].
    destruct (IH ranks) as (ranks' & -> & Hb). by exists ranks'.
Qed.

End buckets.

Lemma fold_file_value_of_rank r ts acc :
  fold_left (file_value r) ts acc
  = fold_left file_one (of_rank r ts) acc.
Proof.
  revert acc. induction ts as [|[[[r' e] v]|] ts IH]; intros acc; [done| |].
  - cbn. destruct (String.eqb r' r); cbn; by rewrite IH.
  - cbn. by rewrite IH.
Qed.

Lemma fold_entities ts acc :
  forallb fst ts = true →
  fold_left file_one ts acc
  = acc ++ map snd ts.
Proof.
  revert acc. induction ts as [|[e v] ts IH]; intros acc H; cbn.
  - by rewrite app_nil_r.
  - cbn in H. apply andb_prop in H as [-> H]. rewrite IH by done.
    unfold file_one. cbn. by rewrite <- app_assoc.
Qed.

Lemma fold_last_run ts :
  fold_left file_one ts []
  = map snd (last_run ts).
Proof.
  assert (∀ acc, forallb fst ts = false →
    fold_left file_one ts acc
    = map snd (last_run ts)) as Hgen.
  { induction ts as [|[e v] ts IH]; intros acc H; [discriminate|].
    cbn [fold_left last_run].
    destruct (forallb fst ts) eqn:Hts.
    - cbn in H. rewrite Hts, andb_true_r in H. subst e.
      by rewrite fold_entities.
    - by apply IH. }
  destruct (forallb fst ts) eqn:Hts; [|by apply Hgen].
  rewrite fold_entities by done. cbn.
  destruct ts as [|t ts']; [done|]. cbn [last_run].
  cbn in Hts. apply andb_prop in Hts as [_ ->]. done.
Qed.

Lemma last_run_suffix ts :
  ∃ pre, ts = pre ++ last_run ts
    ∧ forallb fst (tail (last_run ts)) = true
    ∧ (pre ≠ [] → ∃ v rest, last_run ts = (false, v) :: rest).
Proof.
  induction ts as [|[e v] ts (pre & Hpre & Hall & Hhd)].
  - by exists [].
  - cbn [last_run]. destruct (forallb fst ts) eqn:Hts.
    + by exists [].
    + exists ((e, v) :: pre). split; [cbn; congruence|]. split; [done|].
      intros _. destruct pre as [|p pre].
      * cbn in Hpre. rewrite <- Hpre in Hall |- *.
        destruct ts as [|[b v'] ts']; [done|]. cbn in Hall, Hts.
        rewrite Hall, andb_true_r in Hts. subst b. eauto.
      * by apply Hhd.
Qed.

(** C1, as stated, fails: the bucket of the sequence [entity reference
    resolving to "X", string "raw string"] of one rank is not [["X"]]. *)
Lemma mixed_bucket_counterexample :
  ¬ (∃ ranks, buckets no_float lookup_X mixed_bucket = Ok ranks
       ∧ bucket ranks "normal" = [JStr "X"]).
Proof.
  intros (ranks & Hrun & Hb). vm_compute in Hrun.
  injection Hrun as <-. vm_compute in Hb. discriminate.
Qed.

(** C1 (amended): over the statements of a property, each of them filed
    or left out, the bucket of each rank holds the values filed under that
    rank from the last value that is not an entity reference on (all of
    them when every value is an entity reference): a value that is not an
    entity reference empties what the bucket held and becomes its first
    element, an entity reference is appended. *)
Theorem bucket_last_run py_float m claims ts :
  Forall2 (files py_float m) claims ts →
  ∃ ranks, buckets py_float m claims = Ok ranks
    ∧ ∀ r, bucket ranks r = map snd (last_run (of_rank r ts)).
Proof.
  intros H. destruct (foldM_add_claim py_float m claims ts ∅ H) as (ranks & Hrun & Hb).
  exists ranks. split; [done|]. intros r.
  rewrite Hb, fold_file_value_of_rank. unfold bucket. rewrite lookup_empty.
  apply fold_last_run.
Qed.

Lemma bucket_last_run_witness :
  (∃ ranks, buckets no_float lookup_X mixed_bucket = Ok ranks
     ∧ bucket ranks "normal" = [JStr "raw string"])
  ∧ (∃ ranks, buckets no_float lookup_X longer_bucket = Ok ranks
       ∧ bucket ranks "normal" = [JStr "raw string"; JStr "B"]).
Proof.
  split.
  - destruct (bucket_last_run no_float lookup_X mixed_bucket
                [Some ("normal", true, JStr "X"); Some ("normal", false, JStr "raw string")])
      as (ranks & Hrun & Hb).
    + repeat constructor; econstructor; reflexivity.
    + exists ranks. split; [exact Hrun|]. rewrite Hb. reflexivity.
  - destruct (bucket_last_run no_float lookup_X longer_bucket
                [Some ("normal", true, JStr "X"); None;
                 Some ("normal", false, JStr "raw string"); Some ("normal", true, JStr "B")])
      as (ranks & Hrun & Hb).
    + repeat constructor.
      * econstructor; reflexivity.
      * eapply skips_value; [reflexivity..|discriminate|reflexivity|reflexivity].
      * econstructor; reflexivity.
      * econstructor; reflexivity.
    + exists ranks. split; [exact Hrun|]. rewrite Hb. reflexivity.
Defined.

(** ** The choice of the rank *)

Lemma pick_rank_unread ranks r vs :
  r ∉ rank_order →
  pick_rank (<[r := vs]> ranks) rank_order = pick_rank ranks rank_order.
Proof.
  intros Hr. induction rank_order as [|r' rs IH]; [done|].
  apply not_elem_of_cons in Hr as [Hne Hr]. cbn [pick_rank].
  rewrite bucket_insert. destruct (String.eqb_spec r r') as [->|_]; [done|].
  by rewrite IH.
Qed.

Example preferred_before_normal :
  color_of [string_statement "normal" "A"; string_statement "preferred" "B"]
  = Ok (Some (Some (JStr "B"))).
Proof. vm_compute. reflexivity. Qed.

Example two_preferred_sorted :
  color_of [statement "preferred" (entity_ref "Q7"); string_statement "normal" "A";
            statement "preferred" (entity_ref "Q6")]
  = Ok (Some (Some (JArr [JStr "B"; JStr "C"]))).
Proof. vm_compute. reflexivity. Qed.

(** C2, the defect: the loop reads the bucket ["depricated"], a rank no
    statement carries, so whatever is filed under ["deprecated"] never
    reaches the result, and a property whose only statement is deprecated
    gets no value, where the same statement under the misspelt rank does. *)
Theorem deprecated_bucket_never_read :
  (∀ ranks vs, pick_rank (<["deprecated" := vs]> ranks) rank_order
               = pick_rank ranks rank_order)
  ∧ color_of [string_statement "deprecated" "A"] = Ok (Some None)
  ∧ color_of [string_statement "depricated" "A"] = Ok (Some (Some (JStr "A"))).
Proof.
  split; [|split; vm_compute; reflexivity].
  intros ranks vs. apply pick_rank_unread.
  unfold rank_order. rewrite !elem_of_cons, elem_of_nil.
  intros [?|[?|[?|[]]]]; discriminate.
Qed.

(** ** Coordinates *)

(** C6, as stated, fails: a coordinate whose latitude and longitude are
    both given, and both zero, resolves to no value. *)
Lemma zero_coordinate_counterexample :
  ¬ (∀ kv m,
       map_value no_float (coordinate kv) m = Ok JNull
       ↔ dict_lookup kv "latitude" = None ∧ dict_lookup kv "longitude" = None).
Proof.
  intros Hclaim. destruct (Hclaim null_island ∅) as [Hnull _].
  destruct Hnull as [Hlat _]; [vm_compute; reflexivity | discriminate Hlat].
Qed.

(** C6 (amended): a globe-coordinate value resolves to no value exactly when
    its latitude and its longitude are both falsy (absent, null or zero);
    otherwise, the globe being absent or a string, it resolves to the object
    with the latitude under [lat] and the longitude under [lng], then
    [globe] when the last path segment of the globe is not ["Q2"] and is a
    key of the lookup, then [altitude] when the altitude is truthy. *)
Theorem map_value_globecoordinate py_float m o kv :
  dict_lookup o "type" = Some (JStr "globecoordinate") →
  dict_lookup o "value" = Some (JObj kv) →
  let lat := default JNull (dict_lookup kv "latitude") in
  let lng := default JNull (dict_lookup kv "longitude") in
  (truthy lat || truthy lng = false → map_value py_float (JObj o) m = Ok JNull)
  ∧ (truthy lat || truthy lng = true →
     ∀ g, default (JStr "") (dict_lookup kv "globe") = JStr g →
       map_value py_float (JObj o) m
       = Ok (JObj ([("lat", lat); ("lng", lng)]
                   ++ globe_field m (rsplit_last "/" g) ++ altitude_field kv))).
Proof.
  intros Hty Hval lat lng.
  assert (map_value py_float (JObj o) m
    = (if truthy lat || truthy lng then
         g ← py_get (JObj kv) "globe" (JStr "");
         globe ← py_rsplit_last g;
         let res1 := if negb (String.eqb globe "Q2") && bool_decide (is_Some (m !! globe))
                     then dict_set [("lat", lat); ("lng", lng)] "globe" (JStr globe)
                     else [("lat", lat); ("lng", lng)] in
         altitude ← py_get (JObj kv) "altitude" JNull;
         res2 ← (if truthy altitude
                 then a ← py_item (JObj kv) "altitude"; Ok (dict_set res1 "altitude" a)
                 else Ok res1);
         Ok (JObj res2)
       else Ok JNull)) as Heq.
  { unfold map_value.
    rewrite (truthy_dict_lookup _ _ _ Hty). cbn [negb py_in mbind res_bind].
    rewrite Hty, Hval. cbn [py_item is_Some bool_decide]. rewrite Hty, Hval.
    rewrite !bool_decide_eq_true_2 by eauto. cbn [negb mbind res_bind].
    reflexivity. }
  rewrite Heq. split.
  - by intros ->.
  - intros -> g Hg. py_step. rewrite Hg. cbn [py_rsplit_last mbind res_bind].
    unfold globe_field, altitude_field.
    destruct (dict_lookup kv "altitude") as [a|] eqn:Ha; cbn [default from_option id];
      destruct (negb _ && _); cbn; try destruct (truthy a); reflexivity.
Qed.

Lemma map_value_globecoordinate_witness :
  map_value no_float (coordinate paris) lookup_X
  = Ok (JObj [("lat", JFloat 48.8); ("lng", JFloat 2.3)])
  ∧ map_value no_float
      (coordinate (("globe", JStr "http://www.wikidata.org/entity/Q111") :: paris)) lookup_X
    = Ok (JObj [("lat", JFloat 48.8); ("lng", JFloat 2.3); ("globe", JStr "Q111")])
  ∧ map_value no_float (coordinate null_island) lookup_X = Ok JNull.
Proof.
  pose (o kv := [("value", JObj kv); ("type", JStr "globecoordinate")]).
  split; [|split].
  - apply (proj2 (map_value_globecoordinate no_float lookup_X (o paris) paris
                    eq_refl eq_refl) eq_refl "" eq_refl).
  - apply (proj2 (map_value_globecoordinate no_float lookup_X (o _)
                    (("globe", JStr "http://www.wikidata.org/entity/Q111") :: paris)
                    eq_refl eq_refl)
             eq_refl "http://www.wikidata.org/entity/Q111" eq_refl).
  - apply (proj1 (map_value_globecoordinate no_float lookup_X (o null_island) null_island
                    eq_refl eq_refl) eq_refl).
Defined.

(** ** The matcher on the patterns of the scripts *)

Lemma span_skip p s : span p s ++ skip p s = s.
Proof. induction s as [|c s IH]; cbn; [done|]. destruct (p c); cbn; congruence. Qed.

Lemma span_Forall p s : Forall (λ c, p c = true) (span p s).
Proof.
  induction s as [|c s IH]; cbn; [constructor|].
  destruct (p c) eqn:Hc; by constructor.
Qed.

Lemma skip_head p c s : skip p s = c :: tail (skip p s) → p c = false.
Proof.
  induction s as [|x s IH]; cbn; [done|].
  destruct (p x) eqn:Hx; [done|]. intros [= <-]. done.
Qed.

Lemma span_app p ds rest :
  Forall (λ c, p c = true) ds → span p rest = [] → span p (ds ++ rest) = ds.
Proof.
  induction 1 as [|c ds Hc _ IH]; intros Hrest; cbn; [done|].
  rewrite Hc. f_equal. by apply IH.
Qed.

Lemma skip_app p ds rest :
  Forall (λ c, p c = true) ds → span p rest = [] → skip p (ds ++ rest) = rest.
Proof.
  intros Hds Hrest. apply (app_inv_head (span p (ds ++ rest))).
  rewrite span_skip. by rewrite span_app.
Qed.

Lemma take_consumed (pre rest : list ascii) :
  take (length (pre ++ rest) - length rest) (pre ++ rest) = pre.
Proof.
  rewrite length_app. replace (length pre + length rest - length rest)%nat
    with (length pre) by lia.
  by rewrite take_app_length.
Qed.

Lemma or_else_None {A} (b : unit → option A) : or_else None b = b tt.
Proof. done. Qed.

(** A greedy repetition of one character class, before a continuation
    that cannot start with a character of the class, takes the whole run. *)
Lemma star_loop_greedy_class p k fuel s cs :
  (∀ c s' cs', p c = true → k (c :: s') cs' = None) →
  (length s ≤ fuel)%nat →
  star_loop true (one_char p) k fuel s cs = k (skip p s) cs.
Proof.
  intros Hk. revert s. induction fuel as [|fuel IH]; intros s Hlen.
  - destruct s; [done | cbn in Hlen; lia].
  - cbn [star_loop]. destruct s as [|c s]; [done|].
    cbn [one_char skip]. destruct (p c) eqn:Hc; [|done].
    rewrite (proj2 (Nat.ltb_lt _ _)) by (cbn; lia).
    rewrite IH by (cbn in Hlen; lia).
    destruct (k (skip p s) cs) eqn:Hres; cbn; [done|]. by rewrite Hk.
Qed.

Lemma star_loop_lazy_class p k fuel s cs :
  (length s ≤ fuel)%nat →
  star_loop false (one_char p) k fuel s cs = lazy_scan p k s cs.
Proof.
  revert s. induction fuel as [|fuel IH]; intros s Hlen.
  - destruct s; [|cbn in Hlen; lia]. cbn. by destruct (k [] cs).
  - cbn [star_loop]. destruct s as [|c s]; [done|].
    cbn [one_char lazy_scan]. destruct (k (c :: s) cs); [done|]. cbn [or_else].
    destruct (p c); [|done].
    rewrite (proj2 (Nat.ltb_lt _ _)) by (cbn; lia).
    apply IH. cbn in Hlen. lia.
Qed.

Lemma rmatch_two_digits i R s cs k :
  rmatch (Grp i (digit @@ digit) @@ R) s cs k
  = match two_digits s with
    | Some (p, rest) => rmatch R rest (<[i := Some p]> cs) k
    | None => None
    end.
Proof.
  destruct s as [|c1 [|c2 rest]]; cbn [rmatch one_char two_digits digit]; [done| |].
  - by destruct (in_range _ _ c1).
  - unfold is_digit. destruct (in_range _ _ c1); [|done].
    destruct (in_range _ _ c2); [|done]. cbn [andb].
    pose proof (take_consumed [c1; c2] rest) as Ht. cbn [app] in Ht. by rewrite Ht.
Qed.

Lemma rmatch_chr c R s cs k :
  rmatch (Chr c @@ R) s cs k
  = match s with
    | x :: rest => if bool_decide (x = c) then rmatch R rest cs k else None
    | [] => None
    end.
Proof. done. Qed.

Lemma rmatch_year R s cs k :
  (∀ c s' cs', is_digit c = true → rmatch R (c :: s') cs' k = None) →
  rmatch (Grp 0 (Opt (OneOf ["-"; "+"]%char) @@ Plus true digit) @@ R) s cs k
  = or_else
      (match s with
       | c :: s1 => if bool_decide (c ∈ ["-"; "+"]%char) then year_body R k cs [c] s1 else None
       | [] => None
       end)
      (λ _, year_body R k cs [] s).
Proof.
  intros HR.
  assert (∀ sg s1, s = sg ++ s1 →
    rmatch (Plus true digit) s1 cs
      (λ s' cs', rmatch R s' (<[0%nat := Some (take (length s - length s') s)]> cs') k)
    = year_body R k cs sg s1) as Hbody.
  { intros sg s1 ->. destruct s1 as [|c s2]; [done|].
    cbn [Plus rmatch one_char digit year_body]. unfold is_digit.
    destruct (in_range _ _ c) eqn:Hc; [|done].
    change (rmatch (Range "0" "9")) with (one_char (in_range "0" "9")).
    rewrite star_loop_greedy_class; [| |done].
    - do 3 f_equal.
      assert (sg ++ c :: s2
              = (sg ++ c :: span (in_range "0" "9") s2) ++ skip (in_range "0" "9") s2) as ->.
      { rewrite <- app_assoc. cbn [app]. by rewrite span_skip. }
      apply take_consumed.
    - intros c' s' cs' Hc'. by apply HR. }
  cbn [rmatch]. rewrite (Hbody [] s eq_refl).
  destruct s as [|c s1]; [done|]. cbn [one_char].
  destruct (bool_decide _); [|done]. by rewrite (Hbody [c] s1 eq_refl).
Qed.

Lemma rmatch_expect c R s cs k :
  rmatch (Chr c @@ R) s cs k
  = match expect c s with
    | Some rest => rmatch R rest cs k
    | None => None
    end.
Proof. destruct s as [|x rest]; cbn; [done|]. by destruct (bool_decide _). Qed.

Lemma rmatch_opt_chr_last c s cs :
  rmatch (Opt (Chr c)) s cs (λ _ cs', Some cs') = Some cs.
Proof.
  destruct s as [|x s]; cbn; [done|].
  by destruct (bool_decide (x = c)).
Qed.

Lemma rmatch_date_tail s y a1 a2 a3 a4 a5 :
  rmatch DATE_TAIL s [y; a1; a2; a3; a4; a5] (λ _ cs', Some cs')
  = (λ gs, y :: map Some gs) <$> date_tail s.
Proof.
  unfold DATE_TAIL, date_tail.
  repeat (rewrite rmatch_expect;
          destruct (expect _ _) as [?|]; cbn [mbind option_bind]; [|done];
          rewrite rmatch_two_digits;
          destruct (two_digits _) as [[? ?]|]; cbn [mbind option_bind]; [|done]).
  by rewrite rmatch_opt_chr_last.
Qed.

Lemma rmatch_date_tail_digit c s cs k :
  is_digit c = true → rmatch DATE_TAIL (c :: s) cs k = None.
Proof.
  intros Hc. unfold DATE_TAIL. rewrite rmatch_expect. cbn [expect].
  case_bool_decide as Heq; [|done]. subst c. discriminate Hc.
Qed.

Lemma rmatch_date s :
  rmatch DATE_PARSE_RE s (replicate 6 None) (λ _ cs', Some cs')
  = map Some <$> date_groups s.
Proof.
  change DATE_PARSE_RE
    with (Grp 0 (Opt (OneOf ["-"; "+"]%char) @@ Plus true digit) @@ DATE_TAIL).
  rewrite rmatch_year by (intros; by apply rmatch_date_tail_digit).
  assert (∀ sg s1, year_body DATE_TAIL (λ _ cs', Some cs') (replicate 6 None) sg s1
                   = map Some <$> year_digits sg s1) as Hbody.
  { intros sg [|c s2]; [done|]. cbn [year_body year_digits].
    destruct (is_digit c); [|done]. cbn [replicate list_insert insert].
    rewrite rmatch_date_tail. by destruct (date_tail _). }
  unfold date_groups. rewrite (Hbody [] s).
  destruct s as [|c s1]; [done|].
  destruct (bool_decide _); [|done]. rewrite (Hbody [c] s1).
  by destruct (year_digits [c] s1).
Qed.

Lemma str_chars s : str (chars s) = s.
Proof. apply string_of_list_ascii_of_string. Qed.

Lemma chars_str l : chars (str l) = l.
Proof. apply list_ascii_of_string_of_list_ascii. Qed.

Lemma re_match_date s :
  re_match 6 DATE_PARSE_RE s = map (λ g, Some (str g)) <$> date_groups (chars s).
Proof.
  unfold re_match. rewrite rmatch_date.
  destruct (date_groups _) as [gs|]; cbn; [|done].
  f_equal. by rewrite map_map.
Qed.

(** ** Time values *)

Lemma is_digit_cases c : is_digit c = true → c ∈ the_digits.
Proof.
  intros H. apply list_elem_of_In.
  destruct c as [[] [] [] [] [] [] [] []]; try discriminate H; cbn; tauto.
Qed.

Lemma expect_Some c s rest : expect c s = Some rest → s = c :: rest.
Proof.
  destruct s as [|x s]; [done|]. cbn. case_bool_decide; [|done].
  intros [= ->]. congruence.
Qed.

Lemma two_digits_Some s p rest :
  two_digits s = Some (p, rest) → s = p ++ rest ∧ is_field p = true.
Proof.
  destruct s as [|c1 [|c2 s]]; [done..|]. cbn.
  destruct (is_digit c1 && is_digit c2) eqn:H; [|done].
  intros [= <- <-]. done.
Qed.

Lemma two_digits_field p rest :
  is_field p = true → two_digits (p ++ rest) = Some (p, rest).
Proof.
  destruct p as [|a [|b [|]]]; [done.. | | done]. cbn. by intros ->.
Qed.

Lemma date_tail_Some s gs :
  date_tail s = Some gs →
  ∃ mo d h mi se rest,
    gs = [mo; d; h; mi; se]
    ∧ s = "-"%char :: mo ++ "-"%char :: d ++ "T"%char :: h ++ ":"%char :: mi
          ++ ":"%char :: se ++ rest
    ∧ is_field mo = true ∧ is_field d = true ∧ is_field h = true
    ∧ is_field mi = true ∧ is_field se = true.
Proof.
  unfold date_tail. intros H.
  repeat match type of H with
  | (expect ?c ?x ≫= _) = Some _ =>
      let r := fresh "r" in let Hr := fresh "Hr" in
      destruct (expect c x) as [r|] eqn:Hr; [|discriminate H];
      apply expect_Some in Hr; cbn [mbind option_bind] in H
  | (two_digits ?x ≫= _) = Some _ =>
      let p := fresh "p" in let r := fresh "r" in let Hr := fresh "Hr" in
      destruct (two_digits x) as [[p r]|] eqn:Hr; [|discriminate H];
      apply two_digits_Some in Hr as [Hr ?]; cbn [mbind option_bind] in H
  end.
  injection H as <-. subst.
  by exists p, p0, p1, p2, p3, r8.
Qed.

Lemma date_tail_fields mo d h mi se rest :
  is_field mo = true → is_field d = true → is_field h = true →
  is_field mi = true → is_field se = true →
  date_tail ("-"%char :: mo ++ "-"%char :: d ++ "T"%char :: h ++ ":"%char :: mi
             ++ ":"%char :: se ++ rest)
  = Some [mo; d; h; mi; se].
Proof.
  intros Hmo Hd Hh Hmi Hse. unfold date_tail.
  repeat (cbn [expect mbind option_bind app];
          rewrite bool_decide_eq_true_2 by done;
          cbn [mbind option_bind];
          rewrite two_digits_field by done;
          cbn [mbind option_bind]).
  done.
Qed.

Lemma span_digits_year ds rest :
  forallb is_digit ds = true →
  span is_digit (ds ++ "-"%char :: rest) = ds
  ∧ skip is_digit (ds ++ "-"%char :: rest) = "-"%char :: rest.
Proof.
  intros H. assert (Forall (λ c, is_digit c = true) ds) as HF.
  { apply Forall_forall. intros c Hc. rewrite forallb_forall in H.
    apply H. by apply list_elem_of_In. }
  split; [by apply span_app | by apply skip_app].
Qed.

Lemma year_digits_valid sg yr tail_text gs :
  is_year yr = true →
  date_tail ("-"%char :: tail_text) = Some gs →
  year_digits sg (yr ++ "-"%char :: tail_text) = Some ((sg ++ yr) :: gs).
Proof.
  intros Hyr Htail. destruct yr as [|c yr]; [done|].
  cbn [is_year forallb] in Hyr. apply andb_prop in Hyr as [Hc Hyr].
  cbn [app year_digits]. rewrite Hc.
  destruct (span_digits_year yr tail_text Hyr) as [-> ->].
  by rewrite Htail.
Qed.

(** [DATE_PARSE_RE] matches the strings that start with such a text. *)
Lemma date_groups_valid f rest :
  valid_time f = true →
  date_groups (time_text f ++ rest) = Some (groups_of f).
Proof.
  unfold valid_time. rewrite !andb_true_iff, bool_decide_eq_true.
  intros [[[[[[Hsg Hyr] Hmo] Hd] Hh] Hmi] Hse].
  assert (∀ sg, year_digits sg
      (t_year f ++ "-"%char :: t_month f ++ "-"%char :: t_day f ++ "T"%char ::
       t_hour f ++ ":"%char :: t_minute f ++ ":"%char :: t_second f ++ rest)
    = Some ((sg ++ t_year f) :: [t_month f; t_day f; t_hour f; t_minute f; t_second f]))
    as Hbody.
  { intros sg. apply year_digits_valid; [done|]. by apply date_tail_fields. }
  unfold date_groups, time_text, groups_of.
  rewrite !elem_of_cons, elem_of_nil in Hsg.
  destruct Hsg as [->|[->|[->|[]]]]; cbn [app].
  - rewrite <- !app_assoc. cbn [app]. rewrite <- !app_assoc. cbn [app].
    rewrite <- !app_assoc. cbn [app]. rewrite <- !app_assoc. cbn [app].
    rewrite <- !app_assoc. cbn [app].
    rewrite (Hbody []). 
    destruct (t_year f) as [|c yr]; [done|]. cbn [app].
    cbn [is_year forallb] in Hyr. apply andb_prop in Hyr as [Hc _].
    case_bool_decide as Hin; [|done]. exfalso.
    rewrite !elem_of_cons, elem_of_nil in Hin.
    destruct Hin as [->|[->|[]]]; discriminate Hc.
  - rewrite <- !app_assoc. cbn [app]. rewrite <- !app_assoc. cbn [app].
    rewrite <- !app_assoc. cbn [app]. rewrite <- !app_assoc. cbn [app].
    rewrite <- !app_assoc. cbn [app].
    rewrite bool_decide_eq_true_2 by (rewrite !elem_of_cons; auto).
    by rewrite (Hbody ["-"%char]).
  - rewrite <- !app_assoc. cbn [app]. rewrite <- !app_assoc. cbn [app].
    rewrite <- !app_assoc. cbn [app]. rewrite <- !app_assoc. cbn [app].
    rewrite <- !app_assoc. cbn [app].
    rewrite bool_decide_eq_true_2 by (rewrite !elem_of_cons; auto).
    by rewrite (Hbody ["+"%char]).
Qed.

Lemma year_digits_Some sg s1 gs :
  year_digits sg s1 = Some gs →
  ∃ yr mo d h mi se rest,
    gs = [sg ++ yr; mo; d; h; mi; se]
    ∧ s1 = yr ++ "-"%char :: mo ++ "-"%char :: d ++ "T"%char :: h ++ ":"%char :: mi
           ++ ":"%char :: se ++ rest
    ∧ is_year yr = true
    ∧ is_field mo = true ∧ is_field d = true ∧ is_field h = true
    ∧ is_field mi = true ∧ is_field se = true.
Proof.
  destruct s1 as [|c s2]; [done|]. cbn [year_digits].
  destruct (is_digit c) eqn:Hc; [|done].
  destruct (date_tail (skip is_digit s2)) as [tl|] eqn:Htl; [|done].
  intros [= <-].
  apply date_tail_Some in Htl as (mo & d & h & mi & se & rest & -> & Hskip & Hf).
  exists (c :: span is_digit s2), mo, d, h, mi, se, rest.
  split; [done|]. split; [|split; [|done]].
  - cbn [app]. rewrite <- Hskip. by rewrite span_skip.
  - cbn [is_year forallb]. rewrite Hc. cbn [andb].
    apply forallb_forall. intros x Hx.
    pose proof (span_Forall is_digit s2) as HF. rewrite Forall_forall in HF.
    apply HF. by apply list_elem_of_In.
Qed.

(** [DATE_PARSE_RE] matches no other string. *)
Lemma date_groups_Some s gs :
  date_groups s = Some gs →
  ∃ f rest, valid_time f = true ∧ s = time_text f ++ rest ∧ gs = groups_of f.
Proof.
  assert (∀ sg s1, sg ∈ [[]; ["-"%char]; ["+"%char]] → year_digits sg s1 = Some gs →
    ∃ f rest, valid_time f = true ∧ sg ++ s1 = time_text f ++ rest ∧ gs = groups_of f)
    as Hbody.
  { intros sg s1 Hsg H.
    apply year_digits_Some in H
      as (yr & mo & d & h & mi & se & rest & -> & -> & Hyr & Hmo & Hd & Hh & Hmi & Hse).
    exists {| t_sign := sg; t_year := yr; t_month := mo; t_day := d; t_hour := h;
              t_minute := mi; t_second := se |}, rest.
    split; [|split; [|done]].
    - unfold valid_time. cbn. rewrite Hyr, Hmo, Hd, Hh, Hmi, Hse.
      by rewrite bool_decide_eq_true_2.
    - unfold time_text. cbn. by repeat (rewrite <- !app_assoc; cbn [app]). }
  unfold date_groups. intros H.
  destruct s as [|c s1].
  - apply (Hbody [] []); [rewrite !elem_of_cons; auto | done].
  - case_bool_decide as Hin.
    + destruct (year_digits [c] s1) as [gs'|] eqn:Hy.
      * cbn in H. injection H as ->. apply (Hbody [c] s1); [|done].
        rewrite !elem_of_cons, elem_of_nil in Hin. rewrite !elem_of_cons.
        destruct Hin as [->|[->|[]]]; auto.
      * apply (Hbody [] (c :: s1)); [rewrite !elem_of_cons; auto | done].
    + apply (Hbody [] (c :: s1)); [rewrite !elem_of_cons; auto | done].
Qed.

Section time.

Variable py_float : json → res json.
Variable m : gmap string string.

Lemma map_value_time_groups o v s :
  dict_lookup o "type" = Some (JStr "time") →
  dict_lookup o "value" = Some (JObj v) →
  dict_lookup v "time" = Some (JStr s) →
  map_value py_float (JObj o) m
  = match date_groups (chars s) with
    | None => Ok JNull
    | Some [y; mo; d; h; mi; se] =>
        year ← py_int (str y);
        month ← py_int (str mo);
        day ← py_int (str d);
        hour ← py_int (str h);
        minute ← py_int (str mi);
        second ← py_int (str se);
        Ok (JStr (format_time year (zero_to_one month) (zero_to_one day)
                    hour minute second))
    | Some _ => Raise TypeError
    end.
Proof.
  intros Hty Hval Htime. unfold map_value.
  rewrite (truthy_dict_lookup _ _ _ Hty). cbn [negb py_in mbind res_bind].
  rewrite Hty, Hval. cbn [py_item is_Some bool_decide]. rewrite Hty, Hval.
  rewrite !bool_decide_eq_true_2 by eauto. cbn [negb mbind res_bind].
  change (is_str (JStr "time") "string") with false.
  change (is_str (JStr "time") "wikibase-entityid") with false.
  change (is_str (JStr "time") "time") with true.
  cbn [py_item mbind res_bind]. rewrite Htime.
  cbn [date_match mbind res_bind]. rewrite re_match_date.
  destruct (date_groups (chars s)) as [gs|]; [|done].
  destruct gs as [|y [|mo [|d [|h [|mi [|se [|]]]]]]]; done.
Qed.

End time.

Lemma pad_int_4 y : 0 ≤ y ≤ 9999 → four_digits (pad_int 4 y) = true.
Proof.
  intros Hy.
  assert (forallb (λ n, four_digits (pad_int 4 (Z.of_nat n))) (seq 0 (Z.to_nat 10000)) = true) as H
    by (vm_compute; reflexivity).
  rewrite forallb_forall in H. specialize (H (Z.to_nat y)).
  rewrite Z2Nat.id in H by lia. apply H, in_seq. lia.
Qed.

Lemma pad_int_2 v : 0 ≤ v ≤ 99 → two_digit_text (pad_int 2 v) = true.
Proof.
  intros Hv.
  assert (forallb (λ n, two_digit_text (pad_int 2 (Z.of_nat n))) (seq 0 (Z.to_nat 100)) = true) as H
    by (vm_compute; reflexivity).
  rewrite forallb_forall in H. specialize (H (Z.to_nat v)).
  rewrite Z2Nat.id in H by lia. apply H, in_seq. lia.
Qed.

Lemma field_val_range l : is_field l = true → 0 ≤ field_val l ≤ 99.
Proof.
  destruct l as [|a [|b [|]]]; [done.. | | done]. cbn [is_field].
  intros [Ha Hb]%andb_prop.
  apply is_digit_cases in Ha, Hb. unfold the_digits in Ha, Hb.
  rewrite !elem_of_cons, elem_of_nil in Ha, Hb.
  destruct Ha as [->|[->|[->|[->|[->|[->|[->|[->|[->|[->|[]]]]]]]]]]];
    destruct Hb as [->|[->|[->|[->|[->|[->|[->|[->|[->|[->|[]]]]]]]]]]];
    vm_compute; split; discriminate.
Qed.

Lemma py_int_field l : is_field l = true → py_int (str l) = Ok (field_val l).
Proof.
  destruct l as [|a [|b [|]]]; [done.. | | done]. cbn [is_field].
  intros [Ha _]%andb_prop. unfold py_int, int_digits, field_val. rewrite chars_str.
  apply is_digit_cases in Ha. unfold the_digits in Ha.
  rewrite !elem_of_cons, elem_of_nil in Ha.
  by destruct Ha as [->|[->|[->|[->|[->|[->|[->|[->|[->|[->|[]]]]]]]]]]].
Qed.

(** [int] reads the year unless it has more digits than it converts. *)
Lemma py_int_year f :
  valid_time f = true →
  py_int (str (t_sign f ++ t_year f))
  = if (int_max_str_digits <? length (t_year f))%nat then Raise ValueError
    else Ok (year_of f).
Proof.
  unfold valid_time. rewrite !andb_true_iff, bool_decide_eq_true.
  intros [[[[[[Hsg Hyr] _] _] _] _] _].
  unfold py_int, year_of. 
  assert (int_digits (str (t_sign f ++ t_year f)) = t_year f) as ->; [|done].
  unfold int_digits. rewrite chars_str.
  rewrite !elem_of_cons, elem_of_nil in Hsg.
  destruct Hsg as [->|[->|[->|[]]]]; [|done..]. cbn [app].
  destruct (t_year f) as [|c yr]; [done|].
  cbn [is_year forallb] in Hyr. apply andb_prop in Hyr as [Hc _].
  apply is_digit_cases in Hc. unfold the_digits in Hc.
  rewrite !elem_of_cons, elem_of_nil in Hc.
  by destruct Hc as [->|[->|[->|[->|[->|[->|[->|[->|[->|[->|[]]]]]]]]]]].
Qed.

Lemma zero_to_one_range v : 0 ≤ v ≤ 99 → 0 ≤ zero_to_one v ≤ 99.
Proof. unfold zero_to_one. destruct (Z.eqb_spec v 0); lia. Qed.

Lemma four_digits_inv s :
  four_digits s = true →
  ∃ a b c d, s = str [a; b; c; d] ∧ forallb is_digit [a; b; c; d] = true.
Proof.
  unfold four_digits. destruct (chars s) as [|a [|b [|c [|d [|]]]]] eqn:Hs; try done.
  intros H. exists a, b, c, d. split; [|done]. by rewrite <- Hs, str_chars.
Qed.

Lemma two_digit_text_inv s :
  two_digit_text s = true →
  ∃ a b, s = str [a; b] ∧ is_digit a = true ∧ is_digit b = true.
Proof.
  unfold two_digit_text. destruct (chars s) as [|a [|b [|]]] eqn:Hs; try done.
  intros [Ha Hb]%andb_prop. exists a, b. by rewrite <- Hs, str_chars.
Qed.

Lemma chars_app a b : chars (a +:+ b) = chars a ++ chars b.
Proof.
  induction a as [|c a IH]; [done|].
  change (chars (String c (a +:+ b)) = c :: chars a ++ chars b).
  cbn [chars list_ascii_of_string]. f_equal. exact IH.
Qed.

Lemma format_time_iso y mo d h mi se :
  0 ≤ y ≤ 9999 → 0 ≤ mo ≤ 99 → 0 ≤ d ≤ 99 → 0 ≤ h ≤ 99 → 0 ≤ mi ≤ 99 → 0 ≤ se ≤ 99 →
  iso_form (format_time y mo d h mi se) = true.
Proof.
  intros Hy Hmo Hd Hh Hmi Hse. unfold format_time.
  destruct (four_digits_inv _ (pad_int_4 y Hy)) as (y1 & y2 & y3 & y4 & -> & Hyd).
  destruct (two_digit_text_inv _ (pad_int_2 mo Hmo)) as (m1 & m2 & -> & Hm1 & Hm2).
  destruct (two_digit_text_inv _ (pad_int_2 d Hd)) as (d1 & d2 & -> & Hd1 & Hd2).
  destruct (two_digit_text_inv _ (pad_int_2 h Hh)) as (h1 & h2 & -> & Hh1 & Hh2).
  destruct (two_digit_text_inv _ (pad_int_2 mi Hmi)) as (n1 & n2 & -> & Hn1 & Hn2).
  destruct (two_digit_text_inv _ (pad_int_2 se Hse)) as (s1 & s2 & -> & Hs1 & Hs2).
  cbn [forallb] in Hyd. rewrite !andb_true_iff in Hyd.
  destruct Hyd as (Hy1 & Hy2 & Hy3 & Hy4 & _).
  unfold iso_form. rewrite !chars_app, !chars_str. cbn [chars list_ascii_of_string app].
  cbn [forallb]. rewrite Hy1, Hy2, Hy3, Hy4, Hm1, Hm2, Hd1, Hd2, Hh1, Hh2, Hn1, Hn2, Hs1, Hs2.
  reflexivity.
Qed.

(** C7, as stated, fails: a year before the common era matches the pattern
    and is not rendered with four digits. *)
Lemma negative_year_counterexample :
  ¬ (∀ s, is_Some (re_match 6 DATE_PARSE_RE s) →
       ∃ out, map_value no_float (time_value s) ∅ = Ok (JStr out)
              ∧ iso_form out = true).
Proof.
  intros Hclaim.
  destruct (Hclaim "-0044-03-15T00:00:00Z") as (out & Hout & Hform).
  - vm_compute. eauto.
  - vm_compute in Hout. injection Hout as <-. vm_compute in Hform. discriminate.
Qed.

(** C7 (amended): a time string that starts with an optional sign, the
    digits of a year and the five two-digit fields, separated as in
    [Y-MM-DDTHH:MM:SS], resolves, when the year has at most 4300 digits, to
    ['%04d-%02d-%02dT%02d:%02d:%02d'] of the numbers read, a zero month or
    day replaced by 1; this has the form [YYYY-MM-DDTHH:MM:SS] when the year
    is between 0 and 9999 (a negative year is printed with its sign, a
    longer one with all its digits).  When the year has more than 4300
    digits, the default limit of [int], a [ValueError] is raised.  Any other
    time string resolves to no value. *)
Theorem map_value_time_normalized py_float m o v s :
  dict_lookup o "type" = Some (JStr "time") →
  dict_lookup o "value" = Some (JObj v) →
  dict_lookup v "time" = Some (JStr s) →
  (∀ f rest, valid_time f = true → s = str (time_text f ++ rest) →
     ((length (t_year f) ≤ int_max_str_digits)%nat →
      map_value py_float (JObj o) m = Ok (JStr (normalized f))
      ∧ (0 ≤ year_of f ≤ 9999 → iso_form (normalized f) = true))
     ∧ ((int_max_str_digits < length (t_year f))%nat →
        map_value py_float (JObj o) m = Raise ValueError))
  ∧ ((∀ f rest, valid_time f = true → s ≠ str (time_text f ++ rest)) →
     map_value py_float (JObj o) m = Ok JNull).
Proof.
  intros Hty Hval Htime. rewrite (map_value_time_groups py_float m o v s Hty Hval Htime).
  split.
  - intros f rest Hf ->. rewrite chars_str, (date_groups_valid f rest Hf).
    unfold groups_of. rewrite (py_int_year f Hf).
    pose proof Hf as Hf'. unfold valid_time in Hf'. rewrite !andb_true_iff in Hf'.
    destruct Hf' as [[[[[_ Hmo] Hd] Hh] Hmi] Hse].
    split.
    + intros Hlen. rewrite (proj2 (Nat.ltb_ge _ _) Hlen). cbn [mbind res_bind].
      rewrite !py_int_field by done. cbn [mbind res_bind]. split; [done|].
      intros Hy. apply format_time_iso; auto using field_val_range, zero_to_one_range.
    + intros Hlen. by rewrite (proj2 (Nat.ltb_lt _ _) Hlen).
  - intros Hno. destruct (date_groups (chars s)) as [gs|] eqn:Hgs; [|done].
    apply date_groups_Some in Hgs as (f & rest & Hf & Hs & _).
    destruct (Hno f rest Hf). by rewrite <- Hs, str_chars.
Qed.

Lemma map_value_time_normalized_witness :
  map_value no_float (time_value "+1999-00-00T00:00:00Z") ∅
  = Ok (JStr "1999-01-01T00:00:00").
Proof.
  destruct (map_value_time_normalized no_float ∅
              [("value", JObj [("time", JStr "+1999-00-00T00:00:00Z"); ("timezone", JInt 0);
                               ("precision", JInt 11)]);
               ("type", JStr "time")] _ _ eq_refl eq_refl eq_refl) as [Hmatch _].
  destruct (Hmatch year_1999 (chars "Z") eq_refl eq_refl) as [Hshort _].
  apply Hshort. unfold int_max_str_digits. cbn. lia.
Defined.

(** ** The head of a category *)

(** A greedy repetition of one character class before a continuation that
    always succeeds takes the whole run. *)
Lemma star_loop_greedy_total p k fuel s cs :
  (∀ s' cs', is_Some (k s' cs')) →
  (length s ≤ fuel)%nat →
  star_loop true (one_char p) k fuel s cs = k (skip p s) cs.
Proof.
  intros Hk. revert s. induction fuel as [|fuel IH]; intros s Hlen.
  - destruct s; [done | cbn in Hlen; lia].
  - cbn [star_loop]. destruct s as [|c s]; [done|].
    cbn [one_char skip]. destruct (p c) eqn:Hc; [|done].
    rewrite (proj2 (Nat.ltb_lt _ _)) by (cbn; lia).
    rewrite IH by (cbn in Hlen; lia).
    by destruct (Hk (skip p s) cs) as [r ->].
Qed.

Lemma rmatch_general_tail s cs :
  (λ r : captures, r !! 0%nat) <$> rmatch GENERAL_TAIL s cs (λ _ cs', Some cs')
  = if sep_ok s then Some (cs !! 0%nat) else None.
Proof.
  destruct s as [|c0 [|a [|b [|c3 [|c4 s5]]]]];
    cbn [GENERAL_TAIL in_of_by Lit chars list_ascii_of_string rmatch one_char or_else
         sep_ok Plus];
    repeat (case_bool_decide; cbn [or_else andb orb negb fmap option_fmap option_map]);
    try done.
  all: unfold is_word, not_newline; subst;
    repeat (case_bool_decide; cbn [or_else andb orb negb fmap option_fmap option_map]);
    try done.
  all: match goal with
       | |- context [star_loop true ?b ?k ?f ?s ?c] =>
           rewrite (star_loop_greedy_total not_newline k f s c (λ _ _, mk_is_Some _ _ eq_refl)
                      (le_n _) : star_loop true b k f s c = _)
       end;
    cbn [or_else fmap option_fmap option_map]; f_equal;
    by rewrite !list_lookup_insert_ne.
Qed.

Lemma fmap_Some_inv {A B} (f : A → B) (o : option A) y :
  f <$> o = Some y → ∃ x, o = Some x ∧ y = f x.
Proof. destruct o as [x|]; [|done]. intros [= <-]. eauto. Qed.

Lemma fmap_None_inv {A B} (f : A → B) (o : option A) :
  f <$> o = None → o = None.
Proof. by destruct o. Qed.

Lemma lazy_scan_head s cs s1 pre :
  s = pre ++ s1 → (0 < length cs)%nat →
  (λ r : captures, r !! 0%nat)
    <$> lazy_scan not_newline
          (λ s' cs', rmatch GENERAL_TAIL s'
                       (<[0%nat := Some (take (length s - length s') s)]> cs')
                       (λ _ cs'', Some cs''))
          s1 cs
  = (λ h, Some (Some h)) <$> find_head pre s1.
Proof.
  intros -> Hcs. revert pre.
  induction s1 as [|c s1 IH]; intros pre.
  - cbn [lazy_scan find_head sep_ok].
    pose proof (rmatch_general_tail []
      (<[0%nat := Some (take (length (pre ++ []) - length (@nil ascii)) (pre ++ []))]> cs))
      as HK.
    cbn [sep_ok] in HK. apply fmap_None_inv in HK. by rewrite HK.
  - cbn [lazy_scan find_head].
    pose proof (rmatch_general_tail (c :: s1)
      (<[0%nat := Some (take (length (pre ++ c :: s1) - length (c :: s1)) (pre ++ c :: s1))]> cs))
      as HK.
    destruct (sep_ok (c :: s1)).
    + apply fmap_Some_inv in HK as (r & -> & Hr). cbn [or_else fmap option_fmap option_map].
      rewrite <- Hr, list_lookup_insert_eq by done. by rewrite take_consumed.
    + apply fmap_None_inv in HK. rewrite HK. cbn [or_else].
      destruct (not_newline c); [|done].
      specialize (IH (pre ++ [c])). rewrite <- app_assoc in IH. exact IH.
Qed.

Lemma rmatch_general s :
  (λ r : captures, r !! 0%nat)
    <$> rmatch RE_GENERAL s (replicate 4 None) (λ _ cs', Some cs')
  = (λ h, Some (Some h)) <$> general_head s.
Proof.
  change RE_GENERAL with (Grp 0 (Plus false Dot) @@ GENERAL_TAIL).
  cbn [rmatch Plus]. destruct s as [|c s1]; [done|].
  cbn [one_char general_head].
  change (negb (bool_decide (c = newline))) with (not_newline c).
  destruct (not_newline c); [|done].
  match goal with
  | |- context [star_loop false ?b ?k ?f ?s ?cs] =>
      rewrite (star_loop_lazy_class not_newline k f s cs (le_n _)
               : star_loop false b k f s cs = _)
  end.
  apply (lazy_scan_head (c :: s1) _ s1 [c]); [reflexivity | cbn; lia].
Qed.

Lemma extact_general_head category :
  extact_general category = str <$> general_head (chars category).
Proof.
  unfold extact_general, re_match.
  pose proof (rmatch_general (chars category)) as H.
  destruct (general_head (chars category)) as [h|].
  - apply fmap_Some_inv in H as (r & -> & Hr).
    destruct r as [|[x|] r]; try discriminate Hr. cbn in Hr. by injection Hr as ->.
  - apply fmap_None_inv in H. by rewrite H.
Qed.

Lemma find_head_Some pre s h :
  find_head pre s = Some h →
  ∃ mid rest, h = pre ++ mid ∧ s = mid ++ rest ∧ forallb not_newline mid = true
    ∧ sep_ok rest = true
    ∧ ∀ mid' rest', s = mid' ++ rest' → sep_ok rest' = true →
        (length mid ≤ length mid')%nat.
Proof.
  revert pre. induction s as [|c s IH]; intros pre; cbn [find_head].
  - cbn [sep_ok]. done.
  - destruct (sep_ok (c :: s)) eqn:Hsep.
    + intros [= <-]. exists [], (c :: s). rewrite app_nil_r.
      repeat split; [done|]. intros. cbn. lia.
    + destruct (not_newline c) eqn:Hc; [|done]. intros H.
      apply IH in H as (mid & rest & -> & -> & Hmid & Hrest & Hmin).
      exists (c :: mid), rest. rewrite <- app_assoc. repeat split; [|done|].
      * cbn. by rewrite Hc.
      * intros [|c' mid'] rest' Heq Hsep'.
        -- cbn in Heq. subst rest'. congruence.
        -- injection Heq as -> Heq. cbn. apply le_n_S. by eapply Hmin.
Qed.

Lemma find_head_None pre s :
  find_head pre s = None →
  ∀ mid rest, s = mid ++ rest → forallb not_newline mid = true → sep_ok rest = false.
Proof.
  revert pre. induction s as [|c s IH]; intros pre; cbn [find_head].
  - intros _ mid rest Heq _. symmetry in Heq. apply app_eq_nil in Heq as [_ ->]. done.
  - destruct (sep_ok (c :: s)) eqn:Hsep; [done|].
    intros H [|c' mid] rest Heq Hmid.
    + cbn in Heq. by subst rest.
    + injection Heq as -> ->. cbn in Hmid. apply andb_prop in Hmid as [Hc Hmid].
      rewrite Hc in H. by eapply IH.
Qed.

Lemma general_head_Some s h :
  general_head s = Some h →
  is_head h s ∧ ∀ h', is_head h' s → (length h ≤ length h')%nat.
Proof.
  destruct s as [|c s1]; [done|]. cbn [general_head].
  destruct (not_newline c) eqn:Hc; [|done]. intros H.
  apply find_head_Some in H as (mid & rest & -> & -> & Hmid & Hrest & Hmin).
  split.
  - split; [done|]. split; [cbn; by rewrite Hc|]. by exists rest.
  - intros [|c' h'] (Hne & _ & rest' & Heq & Hsep'); [done|].
    injection Heq as -> Heq. cbn. apply le_n_S. by eapply Hmin.
Qed.

Lemma general_head_None s h : general_head s = None → ¬ is_head h s.
Proof.
  intros H (Hne & Hnl & rest & -> & Hsep).
  destruct h as [|c h]; [done|]. cbn in H, Hnl.
  apply andb_prop in Hnl as [Hc Hnl]. rewrite Hc in H.
  pose proof (find_head_None _ _ H h rest eq_refl Hnl). congruence.
Qed.

Lemma is_head_same_length h h' s :
  is_head h s → is_head h' s → length h = length h' → h = h'.
Proof.
  intros (_ & _ & rest & -> & _) (_ & _ & rest' & Heq & _) Hlen.
  by apply app_inj_1 in Heq as [-> _].
Qed.

(** C8, as stated, fails: a category whose keyword stands between two tabs
    matches [^(.+?)\s(in|of|by)\s(.+)$] and gives no head. *)
Lemma tab_separated_counterexample :
  ¬ (∀ category, extact_general category = spec_general category).
Proof.
  intros Hclaim. specialize (Hclaim tab_separated).
  vm_compute in Hclaim. discriminate.
Qed.

Lemma make_tags_elem order items x :
  x ∈ make_tags order items
  ↔ ∃ s, Some s ∈ items ∧ s ≠ "" ∧ (len s < 256)%nat ∧ x = lower (strip s).
Proof.
  unfold make_tags. rewrite set_list_elem, list_elem_of_omap. split.
  - intros ([s|] & Hin & Hx); [|done].
    destruct (String.eqb_spec s "") as [|Hne]; [done|].
    destruct (Nat.ltb_spec (len s) 256) as [Hlt|]; [|done].
    cbn in Hx. injection Hx as <-. eauto.
  - intros (s & Hin & Hne & Hlt & ->). exists (Some s). split; [done|].
    apply String.eqb_neq in Hne. rewrite Hne.
    by rewrite (proj2 (Nat.ltb_lt _ _) Hlt).
Qed.

Lemma extact_general_nonempty category head :
  extact_general category = Some head → head ≠ "".
Proof.
  rewrite extact_general_head. intros (h & Hh & ->)%fmap_Some_inv.
  apply general_head_Some in Hh as [(Hne & _) _].
  intros Hempty. apply (f_equal chars) in Hempty. by rewrite chars_str in Hempty.
Qed.

(** C8 (amended): [extact_general] gives the shortest head of the
    category, a head being a non-empty text without newline that is
    followed by one space, [in], [of] or [by], one space and one more
    character of the same line; it gives nothing when the category has no
    head.  [general] holds, trimmed and lowercased, the heads of fewer than
    256 characters of the categories that have one; a category without a
    head, and a head of 256 characters or more, contribute nothing. *)
Theorem extact_general_shortest_head :
  (∀ category head,
     extact_general category = Some head
     ↔ is_head (chars head) (chars category)
       ∧ ∀ h', is_head h' (chars category) → (length (chars head) ≤ length h')%nat)
  ∧ (∀ category, extact_general category = None ↔ ∀ h, ¬ is_head h (chars category))
  ∧ (∀ order categories x,
       x ∈ general order categories
       ↔ ∃ category head, category ∈ categories
           ∧ extact_general category = Some head
           ∧ (len head < 256)%nat ∧ x = lower (strip head))
  ∧ extact_general "Cities in France" = Some "Cities"
  ∧ extact_general "Paris" = None.
Proof.
  split; [|split; [|split; [|split; vm_compute; reflexivity]]].
  - intros category head. rewrite extact_general_head. split.
    + intros (h & Hh & ->)%fmap_Some_inv. rewrite chars_str.
      by apply general_head_Some.
    + intros [Hhead Hmin].
      destruct (general_head (chars category)) as [h|] eqn:Hh.
      * apply general_head_Some in Hh as [Hh Hhmin]. cbn. f_equal.
        rewrite (is_head_same_length h (chars head) (chars category)); auto using str_chars.
        apply Nat.le_antisymm; auto.
      * by destruct (general_head_None _ (chars head) Hh).
  - intros category. rewrite extact_general_head. split.
    + intros Hnone%fmap_None_inv h. by apply general_head_None.
    + intros Hno. destruct (general_head (chars category)) as [h|] eqn:Hh; [|done].
      apply general_head_Some in Hh as [Hh _]. by destruct (Hno h).
  - intros order categories x. unfold general. rewrite make_tags_elem. split.
    + intros (head & Hin & Hne & Hlt & ->).
      apply list_elem_of_In, in_map_iff in Hin as (category & Heq & Hin).
      apply list_elem_of_In in Hin. eauto 10.
    + intros (category & head & Hin & Heq & Hlt & ->).
      exists head. split; [|by split; [eapply extact_general_nonempty|]].
      apply list_elem_of_In, in_map_iff.
      exists category. by rewrite <- list_elem_of_In.
Qed.

(** ** The infobox of a page *)

Lemma str_app a b : str (a ++ b) = str a +:+ str b.
Proof.
  unfold str. induction a as [|c a IH]; [done|].
  change (String c (string_of_list_ascii (a ++ b))
          = String c (string_of_list_ascii a +:+ string_of_list_ascii b)).
  by rewrite IH.
Qed.

Lemma len_chars s : len s = length (chars s).
Proof. unfold len, chars. induction s as [|c s IH]; cbn; [done | by f_equal]. Qed.

Lemma starts_with_split p l : starts_with p l = true ↔ ∃ r, l = p ++ r.
Proof.
  revert l. induction p as [|a p IH]; intros l; cbn.
  - split; [eauto|done].
  - destruct l as [|b l]; [split; [done | by intros [r Hr]]|].
    case_decide as Hab.
    + subst b. rewrite IH. split; intros [r Hr]; exists r; congruence.
    + split; [done|]. intros [r [= ? _]]. done.
Qed.

Lemma startswith_split x p :
  startswith x p = true ↔ x = p +:+ str_from (len p) x.
Proof.
  unfold startswith, str_from. rewrite starts_with_split. split.
  - intros [r Hr]. rewrite Hr, len_chars, drop_app_length.
    by rewrite <- (str_chars p) at 1; rewrite <- str_app, <- Hr, str_chars.
  - intros Hx. exists (drop (len p) (chars x)). rewrite Hx at 1.
    by rewrite chars_app, chars_str.
Qed.

Lemma startswith_prefix p box :
  startswith (p +:+ box) p = true ∧ str_from (len p) (p +:+ box) = box.
Proof.
  unfold startswith, str_from. rewrite chars_app, len_chars, drop_app_length, str_chars.
  split; [|done]. apply starts_with_split. eauto.
Qed.

Section infobox.

Variable order : SetOrder.

Lemma find_infobox_Some names box :
  find_infobox names = Some box
  ↔ ∃ before after,
      names = before ++ (INFOBOX_PREFIX +:+ box) :: after
      ∧ Forall (λ x, startswith x INFOBOX_PREFIX = false) before.
Proof.
  induction names as [|x names IH]; cbn [find_infobox].
  - split; [done|]. intros (before & after & Heq & _). by destruct before.
  - destruct (startswith x INFOBOX_PREFIX) eqn:Hx.
    + split.
      * intros [= <-]. exists [], names. split; [|constructor]. cbn. f_equal.
        by apply startswith_split.
      * intros ([|y before] & after & Heq & Hall).
        -- injection Heq as -> _. f_equal. apply startswith_prefix.
        -- injection Heq as -> _. apply Forall_cons in Hall as [Hy _]. congruence.
    + rewrite IH. split.
      * intros (before & after & -> & Hall). exists (x :: before), after.
        split; [done|]. by constructor.
      * intros ([|y before] & after & Heq & Hall).
        -- injection Heq as -> _.
           pose proof (proj1 (startswith_prefix INFOBOX_PREFIX box)). congruence.
        -- injection Heq as -> ->. apply Forall_cons in Hall as [_ Hall]. eauto.
Qed.

Lemma find_infobox_None names :
  find_infobox names = None ↔ ∀ x, x ∈ names → startswith x INFOBOX_PREFIX = false.
Proof.
  induction names as [|x names IH]; cbn [find_infobox].
  - split; [|done]. intros _ x Hx. by apply elem_of_nil in Hx.
  - destruct (startswith x INFOBOX_PREFIX) eqn:Hx.
    + split; [done|]. intros H. specialize (H x (list_elem_of_here _ _)). congruence.
    + rewrite IH. split.
      * intros H y [->|Hy]%elem_of_cons; auto.
      * intros H y Hy. apply H. by apply list_elem_of_further.
Qed.

Lemma template_names_elem w x :
  x ∈ template_names order w
  ↔ ∃ t, t ∈ filter_templates w ∧ strip_template_name t ≠ ""
      ∧ (len (strip_template_name t) < 256)%nat
      ∧ x = lower (strip (strip_template_name t)).
Proof.
  unfold template_names. rewrite make_tags_elem. split.
  - intros (s & Hin & Hne & Hlt & ->).
    apply list_elem_of_In, in_map_iff in Hin as (t & [= <-] & Hin).
    apply list_elem_of_In in Hin. eauto 10.
  - intros (t & Hin & Hne & Hlt & ->). exists (strip_template_name t).
    split; [|done]. apply list_elem_of_In, in_map_iff. exists t.
    by rewrite <- list_elem_of_In.
Qed.

End infobox.

Lemma settlement_infobox order :
  find_infobox (template_names order settlement_page) = Some "settlement".
Proof.
  assert (∀ x, x ∈ template_names order settlement_page
               ↔ x = "infobox settlement" ∨ x = "cite web") as Hnames.
  { intros x. rewrite template_names_elem. split.
    - intros (t & Hin & _ & _ & ->). cbn in Hin.
      rewrite !elem_of_cons, elem_of_nil in Hin.
      destruct Hin as [->|[->|[]]]; [left | right]; vm_compute; reflexivity.
    - intros [->| ->]; [exists infobox_settlement | exists cite_web];
        (split; [cbn; rewrite !elem_of_cons; eauto|]);
        (split; [discriminate|]); (split; [vm_compute; lia|]); vm_compute; reflexivity. }
  destruct (find_infobox (template_names order settlement_page)) as [box|] eqn:Hfind.
  - apply find_infobox_Some in Hfind as (before & after & Heq & _).
    assert (INFOBOX_PREFIX +:+ box ∈ template_names order settlement_page) as Hin.
    { rewrite Heq. apply elem_of_app. right. constructor. }
    apply Hnames in Hin as [Hin|Hin].
    + f_equal. apply (f_equal (str_from (len INFOBOX_PREFIX))) in Hin.
      rewrite (proj2 (startswith_prefix INFOBOX_PREFIX box)) in Hin. by subst box.
    + apply (f_equal (λ x, startswith x INFOBOX_PREFIX)) in Hin.
      rewrite (proj1 (startswith_prefix INFOBOX_PREFIX box)) in Hin. discriminate Hin.
  - rewrite find_infobox_None in Hfind.
    specialize (Hfind "infobox settlement" (proj2 (Hnames _) (or_introl eq_refl))).
    discriminate Hfind.
Qed.

(** What the loop of the infobox computes: the names it visits are the
    template names of the page that are not empty and shorter than 256
    characters, trimmed and lowercased, each listed once, in the order the
    set of them is enumerated; the infobox is the first of these names, in
    that order, that starts with [infobox ], without the prefix, and null
    when none of them starts with it. *)
Lemma find_infobox_in_set_order order w :
  let names := template_names order w in
  NoDup names
  ∧ (∀ x, x ∈ names
          ↔ ∃ t, t ∈ filter_templates w ∧ strip_template_name t ≠ ""
              ∧ (len (strip_template_name t) < 256)%nat
              ∧ x = lower (strip (strip_template_name t)))
  ∧ (∀ box, find_infobox names = Some box
            ↔ ∃ before after,
                names = before ++ (INFOBOX_PREFIX +:+ box) :: after
                ∧ Forall (λ x, startswith x INFOBOX_PREFIX = false) before)
  ∧ (find_infobox names = None
     ↔ ∀ x, x ∈ names → startswith x INFOBOX_PREFIX = false).
Proof.
  intros names. split; [apply set_list_NoDup|].
  split; [apply template_names_elem|].
  split; [apply find_infobox_Some | apply find_infobox_None].
Qed.

(** C3, the defect: the names the infobox is looked for in come out of a
    set, so the loop visits them in the order the set is enumerated, which
    is not the order of the page and changes from run to run.  For a page
    that invokes [Infobox a] and then [Infobox b], the infobox is [a] when
    the set lists the names as they first appear and [b] when it lists them
    the other way round, where the first such name of the page is
    [infobox a].  For a page with one infobox template, as in the example
    of the templates [Infobox settlement] and [Cite web], the infobox is the
    same in every order. *)
Theorem infobox_depends_on_set_order :
  find_infobox (template_names first_seen two_infoboxes) = Some "a"
  ∧ find_infobox (template_names last_seen two_infoboxes) = Some "b"
  ∧ ∀ order, find_infobox (template_names order settlement_page) = Some "settlement".
Proof.
  split; [vm_compute; reflexivity|]. split; [vm_compute; reflexivity|].
  apply settlement_infobox.
Qed.

(** ** Pages of the wikitext dump *)

Lemma close_field_values_ne name k b :
  k ≠ name → _values (close_field name b) !! k = _values b !! k.
Proof.
  intros Hk. unfold close_field. case_bool_decide; [|done]. cbn.
  destruct (_values b !! name); [done|]. by rewrite lookup_insert_ne.
Qed.

Lemma len_str l : len (str l) = length l.
Proof. by rewrite len_chars, chars_str. Qed.

Lemma lstrip_chars_length l : (length (lstrip_chars l) ≤ length l)%nat.
Proof.
  induction l as [|c l IH]; cbn; [done|]. destruct (py_isspace c); cbn; lia.
Qed.

Lemma len_strip s : (len (strip s) ≤ len s)%nat.
Proof.
  unfold strip. rewrite len_str, length_rev, (len_chars s).
  etransitivity; [apply lstrip_chars_length|]. rewrite length_rev.
  apply lstrip_chars_length.
Qed.

Lemma len_lower s : len (lower s) = len s.
Proof. unfold lower. by rewrite len_str, length_map, <- len_chars. Qed.

(** The names are shorter than 256 characters, so the infobox is never
    longer than 1024: only the title can make a page oversized. *)
Lemma infobox_never_oversized order w :
  (len (default "" (find_infobox (template_names order w))) < 256)%nat.
Proof.
  destruct (find_infobox (template_names order w)) as [box|] eqn:Hfind; cbn; [|lia].
  apply find_infobox_Some in Hfind as (before & after & Heq & _).
  assert (INFOBOX_PREFIX +:+ box ∈ template_names order w) as Hin.
  { rewrite Heq. apply elem_of_app. right. constructor. }
  apply template_names_elem in Hin as (t & _ & _ & Hlt & Hx).
  apply (f_equal len) in Hx. rewrite len_lower in Hx.
  pose proof (len_strip (strip_template_name t)) as Hs.
  rewrite (len_chars (INFOBOX_PREFIX +:+ box)), chars_app, length_app, <- !len_chars in Hx.
  change (len INFOBOX_PREFIX) with 8%nat in Hx. unfold len in *. lia.
Qed.

(** C4: when the page element closes on a page whose title, or whose
    infobox, has more than 1024 characters, no row is inserted and the
    page is not counted, the last line printed is the parse-error line with
    the title, the buffers are reset, and the events that follow are
    handled from there. *)
Theorem oversized_page_dropped order mw_parse h title text :
  _values (buf h) !! "title" = Some title →
  _values (buf h) !! "text" = Some text →
  (1024 < len title)%nat
  ∨ (∃ w, mw_parse text = Some w
          ∧ (1024 < len (default "" (find_infobox (template_names order w))))%nat) →
  ∃ h', endElement order mw_parse "page" h = Ok h'
    ∧ inserted h' = inserted h
    ∧ _count h' = _count h
    ∧ commits h' = commits h
    ∧ buf h' = reset
    ∧ last (stdout h') = Some ("mwparser error for: " +:+ title)
    ∧ ∀ rest, feed order mw_parse (End "page" :: rest) h = feed order mw_parse rest h'.
Proof.
  intros Htitle Htext Hlong.
  assert (∃ out, page_try order mw_parse (with_buf h (close_field "page" (buf h)))
                 = (with_stdout (with_buf h (close_field "page" (buf h))) (stdout h ++ out),
                    Some ParserError)) as [out Htry].
  { unfold page_try. cbn [buf with_buf stdout].
    rewrite !close_field_values_ne by done. rewrite Htext.
    destruct (mw_parse text) as [w|] eqn:Hw.
    - exists ["Too long"]. 
      destruct (Nat.ltb_spec 1024 (len (default "" (find_infobox (template_names order w)))))
        as [Hbox|Hbox]; [done|].
      rewrite Htitle. destruct Hlong as [Hlen|(w' & [= <-] & Hlen)]; [|lia].
      by rewrite (proj2 (Nat.ltb_lt _ _) Hlen).
    - exists []. rewrite app_nil_r. by destruct h. }
  assert (endElement order mw_parse "page" h
          = Ok {| buf := reset; _count := _count h; inserted := inserted h;
                  commits := commits h;
                  stdout := (stdout h ++ out) ++ ["mwparser error for: " +:+ title] |})
    as Hend.
  { unfold endElement. cbn [String.eqb Ascii.eqb Bool.eqb]. rewrite Htry.
    unfold values_item. cbn [with_stdout with_buf buf].
    rewrite close_field_values_ne by done. rewrite Htitle. reflexivity. }
  eexists. split; [exact Hend|].
  do 4 (split; [reflexivity|]). split.
  - cbn [stdout]. by rewrite last_snoc.
  - intros rest.
    change (feed order mw_parse (End "page" :: rest) h)
      with (endElement order mw_parse "page" h ≫= feed order mw_parse rest).
    by rewrite Hend.
Qed.

Lemma oversized_page_dropped_witness :
  ∃ h', endElement first_seen parse_settlement "page" oversized = Ok h'
    ∧ inserted h' = inserted oversized
    ∧ stdout h' = ["Too long"; "mwparser error for: " +:+ long_title].
Proof.
  destruct (oversized_page_dropped first_seen parse_settlement oversized
              long_title "{{Infobox x}}" eq_refl eq_refl) as (h' & Hend & Hins & _).
  - left. vm_compute. lia.
  - exists h'. split; [exact Hend|]. split; [exact Hins|].
    vm_compute in Hend. by injection Hend as <-.
Defined.

(** ** Records of the entity dump *)

Lemma parse_props_not_dict py_float d m :
  is_dict d = false → parse_props py_float d m = Ok None.
Proof. by destruct d. Qed.

Lemma parse_props_no_labels py_float kv m :
  has_labels kv = false → parse_props py_float (JObj kv) m = Ok None.
Proof. unfold has_labels, parse_props. by intros ->. Qed.

Lemma dict_lookup_elem kv k v : dict_lookup kv k = Some v → (k, v) ∈ kv.
Proof.
  induction kv as [|[k' v'] kv IH]; [done|]. cbn.
  destruct (String.eqb_spec k' k) as [->|_].
  - intros [= ->]. constructor.
  - intros H. apply list_elem_of_further. auto.
Qed.

Lemma dict_lookup_key kv k v : (k, v) ∈ kv → is_Some (dict_lookup kv k).
Proof.
  induction kv as [|[k' v'] kv IH]; [by intros ?%elem_of_nil|]. cbn.
  destruct (String.eqb_spec k' k) as [->|Hne]; [eauto|].
  intros [[= -> _]|Hin]%elem_of_cons; [done | auto].
Qed.

Lemma py_at_key kv k v : dict_lookup kv k = Some v → py_at (JObj kv) (JStr k) = Ok v.
Proof. intros H. cbn. by rewrite H. Qed.

(** Reading well-formed labels raises nothing. *)
Lemma read_labels_well_formed kv lkv :
  dict_lookup kv "labels" = Some (JObj lkv) → labels_well_formed lkv →
  ∃ labels title, read_labels kv = Ok (labels, title).
Proof.
  intros Hl Hwf. unfold read_labels. py_step. rewrite Hl. py_step.
  cbn [py_iter mbind res_bind].
  assert (∀ keys, Forall (λ p, is_Some (dict_lookup lkv (fst p))) keys →
    ∃ labels, mapM (λ x, e ← py_at (JObj lkv) x; py_item e "value")
                (map (λ p : string * json, JStr (fst p)) keys) = Ok labels) as Hmap.
  { induction 1 as [|[k v] keys [e He] _ [labels IH]]; [by exists []|].
    cbn [map mapM fst]. cbn [fst] in He. rewrite (py_at_key _ _ _ He).
    cbn [mbind res_bind]. apply dict_lookup_elem in He. unfold labels_well_formed in Hwf.
    rewrite Forall_forall in Hwf. destruct (Hwf _ He) as (ekv & v' & Heq & Hv).
    cbn [snd] in Heq. subst e.
    cbn [py_item mbind res_bind]. rewrite Hv, IH. cbn [mbind res_bind]. eauto. }
  destruct (Hmap lkv) as [labels ->].
  { apply Forall_forall. intros [k v] Hin. by eapply dict_lookup_key. }
  cbn [mbind res_bind].
  destruct (dict_lookup lkv "en") as [en|] eqn:Hen; cbn [default from_option id].
  - apply dict_lookup_elem in Hen. unfold labels_well_formed in Hwf.
    rewrite Forall_forall in Hwf. destruct (Hwf _ Hen) as (ekv & v' & Heq & Hv).
    cbn in Heq. subst en. py_step. eauto.
  - unfold empty_dict. py_step. eauto.
Qed.

(** What [parse_props] does once the labels are read: the null record
    when the [enwiki] title or the English label is missing or when the
    [claims] entry is not a dict, and a [KeyError] when the record has both
    and no [claims] entry. *)
Lemma parse_props_guards py_float kv m labels title :
  has_labels kv = true →
  read_labels kv = Ok (labels, title) →
  (truthy (enwiki_title kv) && truthy title = false →
     parse_props py_float (JObj kv) m = Ok None)
  ∧ (∀ c, dict_lookup kv "claims" = Some c → is_dict c = false →
       parse_props py_float (JObj kv) m = Ok None)
  ∧ (truthy (enwiki_title kv) && truthy title = true →
     dict_lookup kv "claims" = None →
     parse_props py_float (JObj kv) m = Raise KeyError).
Proof.
  intros Hlabels Hread. unfold has_labels in Hlabels. unfold read_labels in Hread.
  unfold parse_props. rewrite Hlabels.
  destruct (py_item (JObj kv) "labels") as [lbls|] eqn:E1; [|done].
  cbn [mbind res_bind] in Hread |- *.
  destruct (py_iter (default empty_dict (dict_lookup kv "labels"))) as [keys|] eqn:E2;
    [|done].
  cbn [mbind res_bind] in Hread |- *.
  destruct (mapM _ keys) as [ls|] eqn:E3; [|done].
  cbn [mbind res_bind] in Hread |- *.
  destruct (py_get lbls "en" empty_dict) as [en|] eqn:E4; [|done].
  cbn [mbind res_bind] in Hread |- *.
  destruct (py_get en "value" JNull) as [t|] eqn:E5; [|done].
  cbn [mbind res_bind] in Hread |- *. injection Hread as -> ->.
  unfold enwiki_title.
  match goal with
  | |- context [let '(sl, wid) := ?rs in _] => change rs with (read_sitelinks kv)
  end.
  destruct (read_sitelinks kv) as [sl wid]. cbn [snd].
  split; [|split].
  - by intros ->.
  - intros c Hc Hdict. destruct (truthy wid && truthy title); [|done].
    py_step. rewrite Hc. py_step. by destruct c.
  - intros -> Hc. py_step. by rewrite Hc.
Qed.

(** C5, the defect: a record with labels, an [enwiki] sitelink and no
    [claims] entry makes [d['claims']] raise [KeyError] instead of giving
    the null record, which a [claims] entry that is not a dict does give;
    a label that is not a dict raises [TypeError]. *)
Theorem parse_props_missing_claims_raises :
  parse_props no_float (entity_doc []) lookup_X = Raise KeyError
  ∧ parse_props no_float (entity_doc [("claims", JArr [])]) lookup_X = Ok None
  ∧ parse_props no_float bare_label_doc lookup_X = Raise TypeError.
Proof. repeat split; vm_compute; reflexivity. Qed.

(** ** Pages of the entity dump *)

(** C9, the defect: on the entity dump a page whose text does not decode
    is skipped and the next page is counted, but a page whose record has
    labels, an [enwiki] sitelink and no [claims] raises a [KeyError] that
    neither [except] clause catches: the run ends there and the page after
    it is never handled. *)
Theorem shape_mismatch_aborts_stream :
  (∃ h, wikidata_feed (page_events "Q2" "2" "not json" ++ page_events "Q1" "1" "text of Q1")
        = Ok h
        ∧ UpdateWikidata._count h = 1
        ∧ UpdateWikidata.stdout h = ["failed to parse json Q2"])
  ∧ wikidata_feed (page_events "Q3" "3" "text of Q3" ++ page_events "Q1" "1" "text of Q1")
    = Raise KeyError.
Proof.
  split; [eexists; split; [vm_compute; reflexivity | split; reflexivity]|].
  vm_compute. reflexivity.
Qed.

Example wikitext_page_isolated :
  ∃ h, feed first_seen parse_unless_bad
         (page_events "A" "1" "a" ++ page_events "B" "2" "bad" ++ page_events "C" "3" "c")
         init = Ok h
    ∧ map row_title (inserted h) = ["A"; "C"]
    ∧ stdout h = ["mwparser error for: B"].
Proof. eexists. split; [vm_compute; reflexivity | split; reflexivity]. Qed.

Lemma foldM_app {A S} (f : S → A → res S) l1 l2 s :
  foldM f (l1 ++ l2) s = foldM f l1 s ≫= foldM f l2.
Proof.
  revert s. induction l1 as [|a l1 IH]; intros s; [done|].
  cbn [app foldM]. destruct (f s a) as [s'|e]; [|done]. cbn [mbind res_bind]. apply IH.
Qed.

Lemma join_single s : join [s] = s.
Proof.
  unfold join. cbn [fold_right]. induction s as [|c s IH]; [done|].
  change (String c (s +:+ "") = String c s). by rewrite IH.
Qed.

Section stream_lemmas.

Variable order : SetOrder.
Variable mw_parse : string → option wikicode.

Lemma handle_buffer_step h e :
  ends_page e = false →
  handle order mw_parse h e = Ok (with_buf h (buffer_step (buf h) e)).
Proof.
  destruct e as [name|content|name]; [done..|]. cbn [ends_page handle buffer_step].
  intros Hname. unfold endElement. by rewrite Hname.
Qed.

Lemma feed_buffer es h :
  forallb (λ e, negb (ends_page e)) es = true →
  feed order mw_parse es h = Ok (with_buf h (foldl buffer_step (buf h) es)).
Proof.
  revert h. induction es as [|e es IH]; intros h Hes.
  - by destruct h.
  - cbn [forallb] in Hes. apply andb_prop in Hes as [He Hes].
    apply negb_true_iff in He. unfold feed in *. cbn [foldM foldl].
    rewrite handle_buffer_step by done. cbn [mbind res_bind].
    rewrite IH by done. by destruct h.
Qed.

Lemma feed_app es1 es2 h :
  feed order mw_parse (es1 ++ es2) h
  = feed order mw_parse es1 h ≫= feed order mw_parse es2.
Proof. apply foldM_app. Qed.

(** What the events of a page before its closing tag leave in the buffer. *)
Lemma feed_page_fields p h rest :
  buf h = reset →
  feed order mw_parse (events_of p ++ rest) h
  = feed order mw_parse (End "page" :: rest)
      (with_buf h {| _buffer := []; _state := None; _values := fields_of p |}).
Proof.
  intros Hbuf. destruct p as [title id text].
  change (events_of {| page_title := title; page_id := id; page_text := text |} ++ rest)
    with ([Start "page"; Start "title"; Chars title; End "title";
           Start "ns"; Chars "0"; End "ns"; Start "id"; Chars id; End "id";
           Start "revision"; Start "id"; Chars "1001"; End "id";
           Start "text"; Chars text; End "text"; End "revision"]
          ++ End "page" :: rest).
  rewrite feed_app, feed_buffer by reflexivity. cbn [mbind res_bind].
  rewrite Hbuf. do 2 f_equal. unfold fields_of. cbn [page_title page_id page_text].
  rewrite <- (join_single title) at 2. rewrite <- (join_single id) at 2.
  rewrite <- (join_single text) at 2.
  vm_compute. reflexivity.
Qed.

(** The [try] block on a page that has its three fields. *)
Lemma page_try_fields h p :
  _values (buf h) !! "title" = Some (page_title p) →
  _values (buf h) !! "id" = Some (page_id p) →
  _values (buf h) !! "text" = Some (page_text p) →
  page_try order mw_parse h
  = match row_of order mw_parse p with
    | Some r =>
        ({| buf := buf h; _count := _count h + 1; inserted := inserted h ++ [r];
            commits := if (_count h + 1) mod 100000 =? 0 then S (commits h)
                       else commits h;
            stdout := stdout h |}, None)
    | None =>
        (match mw_parse (page_text p) with
         | Some _ => with_stdout h (print "Too long" (stdout h))
         | None => h
         end, Some ParserError)
    end.
Proof.
  intros Htitle Hid Htext. unfold page_try, row_of. rewrite Htext.
  destruct (mw_parse (page_text p)) as [w|]; cbn [mbind option_bind]; [|done].
  destruct (1024 <? len (default "" (find_infobox (template_names order w))))%nat;
    cbn [orb]; [done|].
  rewrite Htitle. destruct (1024 <? len (page_title p))%nat; [done|].
  by rewrite Hid.
Qed.

(** A whole page is handled without an exception, whatever its text. *)
Lemma feed_page p h rest :
  buf h = reset →
  feed order mw_parse (events_of p ++ rest) h
  = feed order mw_parse rest (after_page order mw_parse h p).
Proof.
  intros Hbuf. rewrite feed_page_fields by done.
  change (feed order mw_parse (End "page" :: ?r) ?x)
    with (endElement order mw_parse "page" x ≫= feed order mw_parse r).
  assert (endElement order mw_parse "page"
            (with_buf h {| _buffer := []; _state := None; _values := fields_of p |})
          = Ok (after_page order mw_parse h p)) as ->; [|done].
  unfold endElement. change (String.eqb "page" "page") with true.
  cbn [with_buf buf]. rewrite close_field_inactive by done.
  rewrite (page_try_fields _ p) by (by destruct p).
  unfold after_page, rejection_lines.
  destruct (row_of order mw_parse p) as [r|]; [done|].
  unfold values_item, print, with_stdout, with_buf.
  destruct h as [b n ins cm out].
  destruct (mw_parse (page_text p)); cbn [buf _values stdout _count inserted commits];
    change (fields_of p !! "title") with (Some (page_title p));
    cbn [from_option mbind res_bind]; [|done].
  by rewrite <- app_assoc.
Qed.

End stream_lemmas.

(** ** Streams of pages of the entity dump *)

Section entity_stream.

Variable py_float : json → res json.
Variable json_loads : string → res json.

Lemma entity_handle_buffer_step h e :
  ends_page e = false →
  UpdateWikidata.handle py_float json_loads h e
  = Ok (UpdateWikidata.with_buf h (buffer_step (UpdateWikidata.buf h) e)).
Proof.
  destruct e as [name|content|name]; [done..|].
  cbn [ends_page UpdateWikidata.handle buffer_step].
  intros Hname. unfold UpdateWikidata.endElement. by rewrite Hname.
Qed.

Lemma entity_feed_buffer es h :
  forallb (λ e, negb (ends_page e)) es = true →
  UpdateWikidata.feed py_float json_loads es h
  = Ok (UpdateWikidata.with_buf h (foldl buffer_step (UpdateWikidata.buf h) es)).
Proof.
  revert h. induction es as [|e es IH]; intros h Hes.
  - by destruct h.
  - cbn [forallb] in Hes. apply andb_prop in Hes as [He Hes].
    apply negb_true_iff in He. unfold UpdateWikidata.feed in *. cbn [foldM foldl].
    rewrite entity_handle_buffer_step by done. cbn [mbind res_bind].
    rewrite IH by done. by destruct h.
Qed.

Lemma entity_page_fields p h rest :
  UpdateWikidata.buf h = reset →
  UpdateWikidata.feed py_float json_loads (events_of p ++ rest) h
  = UpdateWikidata.feed py_float json_loads (End "page" :: rest)
      (UpdateWikidata.with_buf h
         {| _buffer := []; _state := None; _values := fields_of p |}).
Proof.
  intros Hbuf. destruct p as [title id text].
  change (events_of {| page_title := title; page_id := id; page_text := text |} ++ rest)
    with ([Start "page"; Start "title"; Chars title; End "title";
           Start "ns"; Chars "0"; End "ns"; Start "id"; Chars id; End "id";
           Start "revision"; Start "id"; Chars "1001"; End "id";
           Start "text"; Chars text; End "text"; End "revision"]
          ++ End "page" :: rest).
  unfold UpdateWikidata.feed at 1. rewrite foldM_app.
  change (foldM (UpdateWikidata.handle py_float json_loads) ?es ?x)
    with (UpdateWikidata.feed py_float json_loads es x).
  rewrite entity_feed_buffer by reflexivity. cbn [mbind res_bind].
  rewrite Hbuf. do 2 f_equal. unfold fields_of. cbn [page_title page_id page_text].
  rewrite <- (join_single title) at 2. rewrite <- (join_single id) at 2.
  rewrite <- (join_single text) at 2.
  vm_compute. reflexivity.
Qed.

(** X16: what a whole page of the entity dump does to the run.  When
    [json.loads] decodes its text and [parse_props] returns, the page is
    counted and nothing is printed; a [ValueError] of either (a text that is
    no JSON, a quantity whose amount is no number) is logged as [failed to
    parse json] with the title, a [ParserError] as [mwparser error for:],
    and the run goes on with the count unchanged; any other exception of
    [json.loads] (a [RecursionError] on a text nested too deep) or of
    [parse_props] ends the run.  In each case that goes on the buffers are
    reset and the lookup is unchanged. *)
Theorem entity_page_outcome p h rest :
  UpdateWikidata.buf h = reset →
  UpdateWikidata.feed py_float json_loads (events_of p ++ rest) h
  = let logged line :=
      UpdateWikidata.feed py_float json_loads rest
        {| UpdateWikidata.buf := reset;
           UpdateWikidata._id_name_map := UpdateWikidata._id_name_map h;
           UpdateWikidata._count := UpdateWikidata._count h;
           UpdateWikidata.stdout := UpdateWikidata.stdout h ++ [line +:+ page_title p] |} in
    match (d ← json_loads (page_text p);
           parse_props py_float d (UpdateWikidata._id_name_map h)) with
    | Ok _ =>
        UpdateWikidata.feed py_float json_loads rest
          {| UpdateWikidata.buf := reset;
             UpdateWikidata._id_name_map := UpdateWikidata._id_name_map h;
             UpdateWikidata._count := UpdateWikidata._count h + 1;
             UpdateWikidata.stdout := UpdateWikidata.stdout h |}
    | Raise ValueError => logged "failed to parse json "
    | Raise ParserError => logged "mwparser error for: "
    | Raise e => Raise e
    end.
Proof.
  intros Hbuf. rewrite entity_page_fields by done.
  change (UpdateWikidata.feed py_float json_loads (End "page" :: ?r) ?x)
    with (UpdateWikidata.endElement py_float json_loads "page" x
          ≫= UpdateWikidata.feed py_float json_loads r).
  destruct h as [b m n out]. destruct p as [title id text].
  unfold UpdateWikidata.endElement, UpdateWikidata.page_try, UpdateWikidata.with_buf,
    values_item.
  cbn [UpdateWikidata.buf UpdateWikidata._count UpdateWikidata._id_name_map
       UpdateWikidata.stdout page_title page_id page_text].
  rewrite close_field_inactive by done.
  change (String.eqb "page" "page") with true. cbn [_values].
  change (fields_of _ !! "title") with (Some title).
  change (fields_of _ !! "text") with (Some text).
  cbn [from_option mbind res_bind].
  destruct (json_loads text) as [d|[]]; cbn [from_option mbind res_bind]; try done.
  destruct (parse_props py_float d m) as [r|[]]; cbn [mbind res_bind]; done.
Qed.

End entity_stream.

Lemma entity_page_outcome_witness :
  UpdateWikidata.feed no_float nested_loads
    (events_of {| page_title := "Q2"; page_id := "2"; page_text := "not json" |}
     ++ events_of {| page_title := "Q1"; page_id := "1"; page_text := "text of Q1" |})
    (UpdateWikidata.init lookup_X)
  = Ok {| UpdateWikidata.buf := reset; UpdateWikidata._id_name_map := lookup_X;
          UpdateWikidata._count := 1;
          UpdateWikidata.stdout := ["failed to parse json Q2"] |}
  ∧ UpdateWikidata.feed no_float nested_loads
      (events_of {| page_title := "Q4"; page_id := "4"; page_text := "deep" |}
       ++ events_of {| page_title := "Q1"; page_id := "1"; page_text := "text of Q1" |})
      (UpdateWikidata.init lookup_X)
    = Raise RecursionError.
Proof.
  split.
  - rewrite (entity_page_outcome no_float nested_loads
               {| page_title := "Q2"; page_id := "2"; page_text := "not json" |}
               (UpdateWikidata.init lookup_X)) by reflexivity.
    reflexivity.
  - rewrite (entity_page_outcome no_float nested_loads
               {| page_title := "Q4"; page_id := "4"; page_text := "deep" |}
               (UpdateWikidata.init lookup_X)) by reflexivity.
    reflexivity.
Defined.

(** ** Tags *)

Lemma lower_char_idem c : lower_char (lower_char c) = lower_char c.
Proof. by destruct c as [[] [] [] [] [] [] [] []]. Qed.

Lemma py_isspace_lower_char c : py_isspace (lower_char c) = py_isspace c.
Proof. by destruct c as [[] [] [] [] [] [] [] []]. Qed.

Lemma lower_idem s : lower (lower s) = lower s.
Proof.
  unfold lower. rewrite chars_str, map_map. f_equal.
  apply map_ext. intros c. apply lower_char_idem.
Qed.

Lemma lstrip_chars_idem l : lstrip_chars (lstrip_chars l) = lstrip_chars l.
Proof.
  induction l as [|c l IH]; [done|]. cbn [lstrip_chars].
  destruct (py_isspace c) eqn:Hc; [done|]. cbn [lstrip_chars]. by rewrite Hc.
Qed.

Lemma lstrip_chars_suffix l : ∃ sp, l = sp ++ lstrip_chars l.
Proof.
  induction l as [|c l [sp IH]]; [by exists []|]. cbn [lstrip_chars].
  destruct (py_isspace c); [|by exists []].
  exists (c :: sp). cbn. by rewrite <- IH.
Qed.

Lemma lstrip_chars_fixed l :
  lstrip_chars l = l ↔ match l with [] => True | c :: _ => py_isspace c = false end.
Proof.
  destruct l as [|c l]; [done|]. cbn [lstrip_chars].
  destruct (py_isspace c) eqn:Hc; [|done]. split; [|done].
  intros Heq. pose proof (lstrip_chars_length l) as Hlen.
  rewrite Heq in Hlen. cbn in Hlen. lia.
Qed.

Lemma lstrip_chars_map_lower l :
  lstrip_chars (map lower_char l) = map lower_char (lstrip_chars l).
Proof.
  induction l as [|c l IH]; [done|]. cbn [map lstrip_chars].
  rewrite py_isspace_lower_char. by destruct (py_isspace c).
Qed.

Lemma trimmed_strip s : trimmed (chars (strip s)).
Proof.
  unfold strip. rewrite chars_str.
  set (a := lstrip_chars (chars s)). set (b := lstrip_chars (rev a)).
  split; [|by rewrite rev_involutive; apply lstrip_chars_idem].
  destruct (lstrip_chars_suffix (rev a)) as [sp Hsp]. fold b in Hsp.
  apply (f_equal (@rev ascii)) in Hsp. rewrite rev_involutive, rev_app_distr in Hsp.
  apply lstrip_chars_fixed.
  destruct (rev b) as [|c rb] eqn:Hrb; [done|].
  assert (lstrip_chars a = a) as Ha by apply lstrip_chars_idem.
  apply lstrip_chars_fixed in Ha. rewrite Hsp in Ha. exact Ha.
Qed.

Lemma strip_trimmed l : trimmed l → strip (str l) = str l.
Proof.
  intros [Hl Hr]. unfold strip. rewrite chars_str, Hl, Hr. by rewrite rev_involutive.
Qed.

Lemma trimmed_map_lower l : trimmed l → trimmed (map lower_char l).
Proof.
  intros [Hl Hr]. split.
  - by rewrite lstrip_chars_map_lower, Hl.
  - by rewrite <- map_rev, lstrip_chars_map_lower, Hr.
Qed.

Lemma strip_lower_strip s : strip (lower (strip s)) = lower (strip s).
Proof.
  unfold lower. apply strip_trimmed, trimmed_map_lower, trimmed_strip.
Qed.

(** X1: the tags [make_tags] returns hold no tag twice; they are the
    trimmed and lowercased forms of the items that are neither [None] nor
    empty and have fewer than 256 characters, the length being tested on
    the item as given, before it is trimmed and lowercased; every tag is
    entirely lowercase and has no space at either end, so that two tags that
    differ only by case or by surrounding spaces cannot both occur. *)
Theorem make_tags_normalized order items :
  NoDup (make_tags order items)
  ∧ (∀ x, x ∈ make_tags order items
          ↔ ∃ s, Some s ∈ items ∧ s ≠ "" ∧ (len s < 256)%nat ∧ x = lower (strip s))
  ∧ (∀ x, x ∈ make_tags order items → lower x = x ∧ strip x = x)
  ∧ (∀ x y, x ∈ make_tags order items → y ∈ make_tags order items →
       lower (strip x) = lower (strip y) → x = y).
Proof.
  assert (∀ x, x ∈ make_tags order items → lower x = x ∧ strip x = x) as Hall.
  { intros x (s & _ & _ & _ & ->)%make_tags_elem.
    split; [apply lower_idem | apply strip_lower_strip]. }
  split; [apply set_list_NoDup|]. split; [apply make_tags_elem|]. split; [exact Hall|].
  intros x y Hx Hy Heq.
  destruct (Hall x Hx) as [Hlx Hsx]. destruct (Hall y Hy) as [Hly Hsy].
  by rewrite Hsx, Hsy, Hlx, Hly in Heq.
Qed.

(** X2: the categories of a page are the wikilink titles that start with
    [Category:], capital first, without that prefix and normalized; a link
    without the prefix, or with nothing or 256 characters or more after
    it, gives no category. *)
Theorem categories_of_wikilinks order w x :
  x ∈ categories order w
  ↔ ∃ c, CAT_PREFIX +:+ c ∈ filter_wikilinks w
      ∧ c ≠ "" ∧ (len c < 256)%nat ∧ x = lower (strip c).
Proof.
  unfold categories. rewrite make_tags_elem. split.
  - intros (c & Hin & Hne & Hlt & ->).
    apply list_elem_of_In, in_map_iff in Hin as (l & [= <-] & Hin).
    apply list_elem_of_In, list_elem_of_filter in Hin as [Hpre Hin].
    apply startswith_split in Hpre. exists (str_from (len CAT_PREFIX) l).
    by rewrite <- Hpre.
  - intros (c & Hin & Hne & Hlt & ->). exists c. split; [|done].
    apply list_elem_of_In, in_map_iff. exists (CAT_PREFIX +:+ c).
    split; [by rewrite (proj2 (startswith_prefix CAT_PREFIX c))|].
    apply list_elem_of_In, list_elem_of_filter.
    split; [apply startswith_prefix | done].
Qed.

(** ** The general tags *)

Lemma lower_strip s : lower (strip s) = strip (lower s).
Proof.
  unfold lower, strip. rewrite !chars_str. f_equal.
  by rewrite lstrip_chars_map_lower, <- map_rev, lstrip_chars_map_lower, map_rev.
Qed.

(** A head that [extact_general] finds in a lowercase string is itself
    lowercase. *)
Lemma extact_general_lower c head :
  lower c = c → extact_general c = Some head → lower head = head.
Proof.
  intros Hlow Hhead. rewrite extact_general_head in Hhead.
  apply fmap_Some_inv in Hhead as (h & Hh & ->).
  apply general_head_Some in Hh as [(_ & _ & rest & Hc & _) _].
  apply (f_equal chars) in Hlow. unfold lower in Hlow.
  rewrite chars_str, Hc, map_app in Hlow.
  apply app_inj_1 in Hlow as [Hlow _]; [|by rewrite length_map].
  unfold lower. by rewrite chars_str, Hlow.
Qed.

(** X19: the general tags are computed from the categories after these
    have been trimmed and lowercased, so that the keyword is found whatever
    its case in the link: a general tag is the trimmed head that
    [extact_general] finds in one of the categories of the page, when this
    head has fewer than 256 characters, and every such head gives a general
    tag. *)
Theorem general_of_categories order w x :
  x ∈ general order (categories order w)
  ↔ ∃ c head, c ∈ categories order w ∧ extact_general c = Some head
      ∧ (len head < 256)%nat ∧ x = strip head.
Proof.
  assert (∀ c, c ∈ categories order w → lower c = c) as Hnorm.
  { intros c (s & _ & _ & _ & ->)%make_tags_elem. apply lower_idem. }
  unfold general. rewrite make_tags_elem. split.
  - intros (head & Hin & _ & Hlt & ->).
    apply list_elem_of_In, in_map_iff in Hin as (c & Hhead & Hc%list_elem_of_In).
    exists c, head. by rewrite lower_strip, (extact_general_lower c head (Hnorm c Hc) Hhead).
  - intros (c & head & Hc & Hhead & Hlt & ->).
    exists head. split; [|split; [by eapply extact_general_nonempty|]].
    + apply list_elem_of_In, in_map_iff. exists c. by rewrite <- list_elem_of_In.
    + by rewrite lower_strip, (extact_general_lower c head (Hnorm c Hc) Hhead).
Qed.

(** ** Runs of events *)

Lemma tracked_not_empty name : name ∈ tracked → String.eqb name "" = false.
Proof. unfold tracked. rewrite !elem_of_cons, elem_of_nil. by intros [->|[->|[->|[]]]]. Qed.

Lemma tracked_not_page name : name ∈ tracked → String.eqb name "page" = false.
Proof. unfold tracked. rewrite !elem_of_cons, elem_of_nil. by intros [->|[->|[->|[]]]]. Qed.

Lemma startElement_tracked name b :
  name ∈ tracked →
  startElement name b
  = {| _buffer := _buffer b; _state := Some name; _values := _values b |}.
Proof. intros Hin. unfold startElement. by rewrite bool_decide_eq_true_2. Qed.

Lemma startElement_untracked name b : name ∉ tracked → startElement name b = b.
Proof. intros Hin. unfold startElement. by rewrite bool_decide_eq_false_2. Qed.

Lemma buffer_ok_reset : buffer_ok reset.
Proof. by split; [left|]. Qed.

Lemma buffer_step_ok b e : buffer_ok b → buffer_ok (buffer_step b e).
Proof.
  intros [Hst Hbuf]. destruct e as [name|content|name]; cbn [buffer_step].
  - destruct (decide (name ∈ tracked)) as [Hin|Hin].
    + rewrite startElement_tracked by done. split; [right; eauto | done].
    + by rewrite startElement_untracked.
  - unfold characters. destruct (_state b) as [st|] eqn:Hs; [|by split; auto].
    destruct (negb (String.eqb st "")); [|split; [done | congruence]].
    split; [|cbn; intros; congruence].
    unfold state_ok in *. cbn [_state]. by rewrite Hs in Hst.
  - unfold close_field. case_bool_decide; [|done]. split; [by left | done].
Qed.

(** What the events that a handler ignores do to a buffer in such a
    state: nothing. *)
Lemma buffer_ok_ignores b :
  buffer_ok b →
  (∀ name, name ∉ tracked → startElement name b = b ∧ close_field name b = b)
  ∧ (∀ content, _state b = None → characters content b = b).
Proof.
  intros [Hst _]. split.
  - intros name Hname. split; [by apply startElement_untracked|].
    apply close_field_inactive. intros Heq.
    destruct Hst as [Hnone|(name' & Hin & Hsome)]; congruence.
  - intros content Hnone. unfold characters. by rewrite Hnone.
Qed.

Lemma ends_page_name e : ends_page e = true → e = End "page".
Proof. destruct e as [| |name]; try done. by intros ->%String.eqb_eq. Qed.

Section wikitext_handler.

Variable order : SetOrder.
Variable mw_parse : string → option wikicode.

Lemma endElement_page_reset h h' :
  endElement order mw_parse "page" h = Ok h' → buf h' = reset.
Proof.
  unfold endElement. change (String.eqb "page" "page") with true. cbn beta iota zeta.
  match goal with |- (?M ≫= _) = _ → _ => destruct M as [h1|e] end; [|done].
  by intros [= <-].
Qed.

Lemma handle_ok h e h' :
  buffer_ok (buf h) → handle order mw_parse h e = Ok h' → buffer_ok (buf h').
Proof.
  intros Hok. destruct (ends_page e) eqn:He.
  - apply ends_page_name in He as ->. cbn [handle].
    intros ->%endElement_page_reset. apply buffer_ok_reset.
  - rewrite handle_buffer_step by done. intros [= <-]. by apply buffer_step_ok.
Qed.

Lemma feed_ok es h h' :
  buffer_ok (buf h) → feed order mw_parse es h = Ok h' → buffer_ok (buf h').
Proof.
  revert h. induction es as [|e es IH]; intros h Hok; [by intros [= <-]|].
  unfold feed in *. cbn [foldM].
  destruct (handle order mw_parse h e) as [h1|] eqn:Hh; [|done].
  cbn [mbind res_bind]. apply IH. by eapply handle_ok.
Qed.

Lemma handle_ignores h :
  buffer_ok (buf h) →
  (∀ name, name ∉ tracked →
     handle order mw_parse h (Start name) = Ok h
     ∧ (name ≠ "page" → handle order mw_parse h (End name) = Ok h))
  ∧ (∀ content, _state (buf h) = None → handle order mw_parse h (Chars content) = Ok h).
Proof.
  intros Hok. destruct (buffer_ok_ignores _ Hok) as [Htags Htext].
  split.
  - intros name Hname. destruct (Htags name Hname) as [Hstart Hend].
    cbn [handle]. rewrite Hstart. split; [by destruct h|].
    intros Hpage%String.eqb_neq. unfold endElement. rewrite Hend, Hpage. by destruct h.
  - intros content Hnone. cbn [handle]. rewrite Htext by done. by destruct h.
Qed.

Lemma feed_field name mid h :
  name ∈ tracked → forallb inner mid = true →
  feed order mw_parse (Start name :: mid ++ [End name]) h
  = Ok (with_buf h (foldl buffer_step (buf h) (Start name :: mid ++ [End name]))).
Proof.
  intros Hin Hmid. apply feed_buffer. cbn [forallb ends_page negb andb].
  rewrite forallb_app. cbn [forallb ends_page]. rewrite (tracked_not_page _ Hin).
  cbn [negb andb]. rewrite andb_true_r.
  apply forallb_forall. intros e He. rewrite forallb_forall in Hmid.
  specialize (Hmid e He). destruct e as [| |n]; try done. cbn [inner ends_page] in *.
  by apply andb_prop in Hmid as [_ ->].
Qed.

End wikitext_handler.

Section entity_handler.

Variable py_float : json → res json.
Variable json_loads : string → res json.

Lemma entity_endElement_page_reset h h' :
  UpdateWikidata.endElement py_float json_loads "page" h = Ok h' →
  UpdateWikidata.buf h' = reset.
Proof.
  unfold UpdateWikidata.endElement. change (String.eqb "page" "page") with true.
  cbn beta iota zeta.
  match goal with |- (?M ≫= _) = _ → _ => destruct M as [h1|e] end; [|done].
  by intros [= <-].
Qed.

Lemma entity_handle_ok h e h' :
  buffer_ok (UpdateWikidata.buf h) →
  UpdateWikidata.handle py_float json_loads h e = Ok h' →
  buffer_ok (UpdateWikidata.buf h').
Proof.
  intros Hok. destruct (ends_page e) eqn:He.
  - apply ends_page_name in He as ->. cbn [UpdateWikidata.handle].
    intros ->%entity_endElement_page_reset. apply buffer_ok_reset.
  - rewrite entity_handle_buffer_step by done. intros [= <-]. by apply buffer_step_ok.
Qed.

Lemma entity_feed_ok es h h' :
  buffer_ok (UpdateWikidata.buf h) →
  UpdateWikidata.feed py_float json_loads es h = Ok h' →
  buffer_ok (UpdateWikidata.buf h').
Proof.
  revert h. induction es as [|e es IH]; intros h Hok; [by intros [= <-]|].
  unfold UpdateWikidata.feed in *. cbn [foldM].
  destruct (UpdateWikidata.handle py_float json_loads h e) as [h1|] eqn:Hh; [|done].
  cbn [mbind res_bind]. apply IH. by eapply entity_handle_ok.
Qed.

Lemma entity_handle_ignores h :
  buffer_ok (UpdateWikidata.buf h) →
  (∀ name, name ∉ tracked →
     UpdateWikidata.handle py_float json_loads h (Start name) = Ok h
     ∧ (name ≠ "page" → UpdateWikidata.handle py_float json_loads h (End name) = Ok h))
  ∧ (∀ content, _state (UpdateWikidata.buf h) = None →
       UpdateWikidata.handle py_float json_loads h (Chars content) = Ok h).
Proof.
  intros Hok. destruct (buffer_ok_ignores _ Hok) as [Htags Htext].
  split.
  - intros name Hname. destruct (Htags name Hname) as [Hstart Hend].
    cbn [UpdateWikidata.handle]. rewrite Hstart. split; [by destruct h|].
    intros Hpage%String.eqb_neq. unfold UpdateWikidata.endElement.
    rewrite Hend, Hpage. by destruct h.
  - intros content Hnone. cbn [UpdateWikidata.handle]. rewrite Htext by done.
    by destruct h.
Qed.

Lemma entity_feed_field name mid h :
  name ∈ tracked → forallb inner mid = true →
  UpdateWikidata.feed py_float json_loads (Start name :: mid ++ [End name]) h
  = Ok (UpdateWikidata.with_buf h
          (foldl buffer_step (UpdateWikidata.buf h) (Start name :: mid ++ [End name]))).
Proof.
  intros Hin Hmid. apply entity_feed_buffer. cbn [forallb ends_page negb andb].
  rewrite forallb_app. cbn [forallb ends_page]. rewrite (tracked_not_page _ Hin).
  cbn [negb andb]. rewrite andb_true_r.
  apply forallb_forall. intros e He. rewrite forallb_forall in Hmid.
  specialize (Hmid e He). destruct e as [| |n]; try done. cbn [inner ends_page] in *.
  by apply andb_prop in Hmid as [_ ->].
Qed.

End entity_handler.

(** X3: in every state a run of either handler reaches, whatever the
    events and the pages were, no field is active or one of [title],
    [text], [id] is, and the text buffer is empty whenever no field is
    active; in such a state the opening tag of an element other than these
    three, the closing tag of an element other than these three and the
    page, and text outside the tracked fields leave the handler as it is.
    (The closing tag of the page is the one that processes the page.) *)
Theorem untracked_elements_ignored :
  (∀ order mw_parse es h,
     feed order mw_parse es init = Ok h →
     buffer_ok (buf h)
     ∧ (∀ name, name ∉ tracked →
          handle order mw_parse h (Start name) = Ok h
          ∧ (name ≠ "page" → handle order mw_parse h (End name) = Ok h))
     ∧ (∀ content, _state (buf h) = None →
          handle order mw_parse h (Chars content) = Ok h))
  ∧ (∀ py_float json_loads id_name_map es h,
       UpdateWikidata.feed py_float json_loads es (UpdateWikidata.init id_name_map) = Ok h →
       buffer_ok (UpdateWikidata.buf h)
       ∧ (∀ name, name ∉ tracked →
            UpdateWikidata.handle py_float json_loads h (Start name) = Ok h
            ∧ (name ≠ "page" →
               UpdateWikidata.handle py_float json_loads h (End name) = Ok h))
       ∧ (∀ content, _state (UpdateWikidata.buf h) = None →
            UpdateWikidata.handle py_float json_loads h (Chars content) = Ok h)).
Proof.
  split.
  - intros order mw_parse es h Hrun.
    assert (buffer_ok (buf h)) as Hok
      by (eapply feed_ok; [|exact Hrun]; apply buffer_ok_reset).
    split; [done|]. by apply handle_ignores.
  - intros py_float json_loads id_name_map es h Hrun.
    assert (buffer_ok (UpdateWikidata.buf h)) as Hok
      by (eapply entity_feed_ok; [|exact Hrun]; apply buffer_ok_reset).
    split; [done|]. by apply entity_handle_ignores.
Qed.

Lemma inner_run name mid b :
  name ∈ tracked → _state b = Some name → forallb inner mid = true →
  foldl buffer_step b mid
  = {| _buffer := _buffer b ++ texts mid; _state := Some name; _values := _values b |}.
Proof.
  intros Hin. revert b. induction mid as [|e mid IH]; intros b Hst Hmid.
  - cbn. rewrite app_nil_r, <- Hst. by destruct b.
  - cbn [forallb] in Hmid. apply andb_prop in Hmid as [He Hmid]. cbn [foldl].
    destruct e as [n|content|n]; cbn [inner buffer_step texts omap list_omap] in *.
    + apply andb_prop in He as [He _]. apply negb_true_iff, bool_decide_eq_false in He.
      rewrite startElement_untracked by done. by apply IH.
    + unfold characters. rewrite Hst, (tracked_not_empty _ Hin). cbn [negb].
      rewrite IH by done. cbn. by rewrite <- app_assoc.
    + apply andb_prop in He as [He _]. apply negb_true_iff, bool_decide_eq_false in He.
      rewrite close_field_inactive by (rewrite Hst; congruence). by apply IH.
Qed.

Lemma field_run name mid b :
  name ∈ tracked →
  _buffer b = [] →
  _values b !! name = None →
  forallb inner mid = true →
  foldl buffer_step b (Start name :: mid ++ [End name])
  = {| _buffer := []; _state := None;
       _values := <[name := join (texts mid)]> (_values b) |}.
Proof.
  intros Hin Hbuf Hval Hmid. cbn [foldl buffer_step].
  rewrite foldl_app, startElement_tracked by done.
  rewrite (inner_run name mid) by done. cbn [foldl buffer_step].
  unfold close_field. cbn [_state _buffer _values].
  rewrite bool_decide_eq_true_2 by done. by rewrite Hval, Hbuf.
Qed.

(** X4: in either handler, a tracked field that opens while the text
    buffer is empty and the page has no value for it yet gets, when it
    closes, the concatenation of all the pieces of text delivered in
    between, in order: the text may arrive in any number of pieces, and the
    tags of elements nested in the field, other than the three fields and
    the page, are dropped while their text is kept.  Nothing else of the
    handler changes. *)
Theorem field_text_is_joined name mid :
  name ∈ tracked →
  forallb inner mid = true →
  (∀ order mw_parse h,
     _buffer (buf h) = [] → _values (buf h) !! name = None →
     feed order mw_parse (Start name :: mid ++ [End name]) h
     = Ok (with_buf h {| _buffer := []; _state := None;
                         _values := <[name := join (texts mid)]> (_values (buf h)) |}))
  ∧ (∀ py_float json_loads h,
       _buffer (UpdateWikidata.buf h) = [] → _values (UpdateWikidata.buf h) !! name = None →
       UpdateWikidata.feed py_float json_loads (Start name :: mid ++ [End name]) h
       = Ok (UpdateWikidata.with_buf h
               {| _buffer := []; _state := None;
                  _values := <[name := join (texts mid)]>
                               (_values (UpdateWikidata.buf h)) |})).
Proof.
  intros Hin Hmid. split.
  - intros order mw_parse h Hbuf Hval.
    by rewrite feed_field, field_run by done.
  - intros py_float json_loads h Hbuf Hval.
    by rewrite entity_feed_field, field_run by done.
Qed.

Lemma field_text_is_joined_witness :
  feed first_seen parse_settlement
    [Start "title"; Chars "Pa"; Start "i"; Chars "ri"; End "i"; Chars "s"; End "title"] init
  = Ok (with_buf init {| _buffer := []; _state := None; _values := {["title" := "Paris"]} |}).
Proof.
  apply (proj1 (field_text_is_joined "title"
                  [Chars "Pa"; Start "i"; Chars "ri"; End "i"; Chars "s"]
                  ltac:(by vm_compute; left) eq_refl)
           first_seen parse_settlement init eq_refl eq_refl).
Defined.

(** ** Streams of pages of the wikitext dump: the whole run *)

Lemma commits_step n c :
  0 ≤ n → c = Z.to_nat (n / 100000) →
  (if (n + 1) mod 100000 =? 0 then S c else c) = Z.to_nat ((n + 1) / 100000).
Proof.
  intros Hn ->. destruct (Z.eqb_spec ((n + 1) mod 100000) 0) as [Hz|Hz].
  - rewrite <- Z2Nat.inj_succ by (apply Z.div_pos; lia). f_equal.
    Z.div_mod_to_equations. lia.
  - f_equal. Z.div_mod_to_equations. lia.
Qed.

Section whole_run.

Variable order : SetOrder.
Variable mw_parse : string → option wikicode.

Lemma buf_after_page h p : buf (after_page order mw_parse h p) = reset.
Proof. unfold after_page. by destruct (row_of order mw_parse p). Qed.

Lemma feed_pages pages h :
  buf h = reset →
  feed order mw_parse (concat (map events_of pages)) h
  = Ok (foldl (after_page order mw_parse) h pages).
Proof.
  revert h. induction pages as [|p pages IH]; intros h Hbuf; [done|].
  cbn [map concat foldl]. rewrite feed_page by done. apply IH, buf_after_page.
Qed.

Lemma inserted_after_pages pages h :
  inserted (foldl (after_page order mw_parse) h pages)
  = inserted h ++ omap (row_of order mw_parse) pages.
Proof.
  revert h. induction pages as [|p pages IH]; intros h; [by rewrite app_nil_r|].
  cbn [foldl omap list_omap]. rewrite IH. unfold after_page.
  destruct (row_of order mw_parse p); cbn [inserted]; [|done].
  by rewrite <- app_assoc.
Qed.

Lemma count_after_pages pages h :
  _count (foldl (after_page order mw_parse) h pages)
  = _count h + Z.of_nat (length (omap (row_of order mw_parse) pages)).
Proof.
  revert h. induction pages as [|p pages IH]; intros h; [cbn; lia|].
  cbn [foldl omap list_omap]. rewrite IH. unfold after_page.
  destruct (row_of order mw_parse p); cbn [_count length]; lia.
Qed.

Lemma stdout_after_pages pages h :
  stdout (foldl (after_page order mw_parse) h pages)
  = stdout h ++ concat (map (page_log order mw_parse) pages).
Proof.
  revert h. induction pages as [|p pages IH]; intros h; [by rewrite app_nil_r|].
  cbn [foldl map concat]. rewrite IH. unfold after_page, page_log.
  destruct (row_of order mw_parse p); cbn [stdout]; [done|].
  by rewrite <- app_assoc.
Qed.

Lemma commits_after_pages pages h :
  0 ≤ _count h → commits h = Z.to_nat (_count h / 100000) →
  let h' := foldl (after_page order mw_parse) h pages in
  commits h' = Z.to_nat (_count h' / 100000).
Proof.
  revert h. induction pages as [|p pages IH]; intros h Hpos Hc; [done|].
  cbn [foldl]. apply IH; unfold after_page;
    destruct (row_of order mw_parse p); cbn [_count commits]; try done; [lia|].
  by apply commits_step.
Qed.

(** X5: a run over any number of pages of the shape of the dump, each
    with its title, id and text, never raises, whatever the texts are: it
    inserts one row for each
    page whose text parses and whose title has at most 1024 characters, in
    the order of the pages; it counts exactly the rows inserted; for every
    other page it prints the parse-error line with the title (after the line
    [Too long] when the text did parse); and the buffers end up reset. *)
Theorem wikitext_stream_rows pages :
  ∃ h, feed order mw_parse (concat (map events_of pages)) init = Ok h
    ∧ buf h = reset
    ∧ inserted h = omap (row_of order mw_parse) pages
    ∧ _count h = Z.of_nat (length (inserted h))
    ∧ stdout h = concat (map (page_log order mw_parse) pages).
Proof.
  exists (foldl (after_page order mw_parse) init pages).
  split; [by apply feed_pages|].
  split; [destruct pages as [|p pages _] using rev_ind; [done|];
          rewrite foldl_app; apply buf_after_page|].
  rewrite inserted_after_pages, count_after_pages, stdout_after_pages. done.
Qed.

(** X6: the handler commits once every 100000 rows: after a run over any
    pages the number of commits is the number of rows counted divided by
    100000, rounded down, so that the rows after the last full 100000 are
    left to the commit of the caller. *)
Theorem commit_every_100000 pages :
  ∃ h, feed order mw_parse (concat (map events_of pages)) init = Ok h
    ∧ commits h = Z.to_nat (_count h / 100000).
Proof.
  exists (foldl (after_page order mw_parse) init pages).
  split; [by apply feed_pages|]. by apply commits_after_pages.
Qed.


(** X8: among any pages, one page that gets no row leaves one row
    fewer than there are pages when all the other pages get theirs. *)
Theorem one_page_dropped before p after :
  Forall (λ q, is_Some (row_of order mw_parse q)) (before ++ after) →
  row_of order mw_parse p = None →
  ∃ h, feed order mw_parse (concat (map events_of (before ++ p :: after))) init = Ok h
    ∧ length (inserted h) = (length (before ++ p :: after) - 1)%nat
    ∧ stdout h = rejection_lines mw_parse p.
Proof.
  intros Hgood Hbad.
  exists (foldl (after_page order mw_parse) init (before ++ p :: after)).
  split; [by apply feed_pages|].
  rewrite inserted_after_pages, stdout_after_pages. cbn [inserted stdout init app].
  assert (∀ l, Forall (λ q, is_Some (row_of order mw_parse q)) l →
               length (omap (row_of order mw_parse) l) = length l
               ∧ concat (map (page_log order mw_parse) l) = []) as Hlen.
  { induction 1 as [|q l [r Hr] _ [IH1 IH2]]; [done|]. cbn. unfold page_log at 1.
    rewrite Hr. cbn. by rewrite IH1, IH2. }
  apply Forall_app in Hgood as [Hb Ha].
  destruct (Hlen _ Hb) as [Hb1 Hb2]. destruct (Hlen _ Ha) as [Ha1 Ha2].
  rewrite omap_app, map_app, concat_app. cbn [omap list_omap map concat]. unfold page_log at 2. rewrite Hbad.
  rewrite !length_app, Hb1, Ha1, Hb2, Ha2, app_nil_r. cbn [length app]. split; [lia|done].
Qed.

(** X9: a page element that closes while the page has no title, or no
    text, raises [KeyError], which the handler does not catch: the run
    ends there. *)
Theorem page_without_title_or_text_raises h rest :
  _values (buf h) !! "title" = None ∨ _values (buf h) !! "text" = None →
  feed order mw_parse (End "page" :: rest) h = Raise KeyError.
Proof.
  intros Hmiss.
  change (feed order mw_parse (End "page" :: rest) h)
    with (endElement order mw_parse "page" h ≫= feed order mw_parse rest).
  assert (endElement order mw_parse "page" h = Raise KeyError) as ->; [|done].
  unfold endElement. change (String.eqb "page" "page") with true. cbn beta iota zeta.
  unfold page_try, values_item. cbn [with_buf buf].
  rewrite !close_field_values_ne by done.
  destruct (_values (buf h) !! "text") as [text|] eqn:Htext; [|done].
  destruct Hmiss as [Htitle|]; [|done]. rewrite Htitle.
  destruct (mw_parse text) as [w|];
    [|cbn [with_buf buf]; by rewrite close_field_values_ne, Htitle by done].
  pose proof (infobox_never_oversized order w) as Hbox.
  by rewrite (proj2 (Nat.ltb_ge _ _)) by lia.
Qed.

End whole_run.


Lemma one_page_dropped_witness :
  ∃ h, feed first_seen parse_unless_bad
         (concat (map events_of
            ([{| page_title := "A"; page_id := "1"; page_text := "a" |}]
             ++ {| page_title := "B"; page_id := "2"; page_text := "bad" |}
             :: [{| page_title := "C"; page_id := "3"; page_text := "c" |}]))) init = Ok h
    ∧ length (inserted h) = 2%nat
    ∧ stdout h = ["mwparser error for: B"].
Proof.
  apply (one_page_dropped first_seen parse_unless_bad
           [{| page_title := "A"; page_id := "1"; page_text := "a" |}]
           {| page_title := "B"; page_id := "2"; page_text := "bad" |}
           [{| page_title := "C"; page_id := "3"; page_text := "c" |}]).
  - repeat constructor; vm_compute; eauto.
  - reflexivity.
Defined.

Lemma page_without_title_or_text_raises_witness :
  feed first_seen parse_settlement [End "page"; Start "page"] init = Raise KeyError.
Proof.
  apply (page_without_title_or_text_raises first_seen parse_settlement init [Start "page"]).
  left. reflexivity.
Defined.

(** ** Values of the other types *)

Section values.

Variable py_float : json → res json.
Variable m : gmap string string.

(** Past its guard, [map_value] reads the type and the payload. *)
Lemma map_value_typed o typ value :
  dict_lookup o "type" = Some typ →
  dict_lookup o "value" = Some value →
  map_value py_float (JObj o) m
  = map_value py_float (JObj [("type", typ); ("value", value)]) m.
Proof.
  intros Hty Hval. unfold map_value.
  rewrite (truthy_dict_lookup _ _ _ Hty). cbn [truthy negb py_in mbind res_bind].
  rewrite !bool_decide_eq_true_2 by (rewrite ?Hty, ?Hval; eauto).
  cbn [negb py_item]. rewrite Hty, Hval. reflexivity.
Qed.

(** X14: an entity reference resolves to the label its id has in the
    lookup, and to no value when the lookup does not know the id; nothing
    is raised, and the other fields of the reference are not read. *)
Theorem map_value_entity_label o ref id :
  dict_lookup o "type" = Some (JStr "wikibase-entityid") →
  dict_lookup o "value" = Some (JObj ref) →
  dict_lookup ref "id" = Some (JStr id) →
  map_value py_float (JObj o) m = Ok (from_option JStr JNull (m !! id)).
Proof.
  intros Hty Hval Hid. rewrite (map_value_typed _ _ _ Hty Hval).
  unfold map_value. cbn [truthy negb py_in mbind res_bind dict_lookup String.eqb Ascii.eqb
    Bool.eqb bool_decide decide_rel is_Some].
  rewrite !bool_decide_eq_true_2 by eauto. cbn [negb py_item dict_lookup String.eqb
    Ascii.eqb Bool.eqb mbind res_bind is_str]. by rewrite Hid.
Qed.

(** X15: [map_value] gives no value, and raises nothing, for a value
    that is falsy ([None], an empty dict), for a dict without a [type] or
    without a [value], and for a type it does not know. *)
Theorem map_value_no_payload v :
  truthy v = false
  ∨ (∃ o, v = JObj o ∧ (dict_lookup o "type" = None ∨ dict_lookup o "value" = None))
  ∨ (∃ o typ value, v = JObj o ∧ dict_lookup o "type" = Some typ
       ∧ dict_lookup o "value" = Some value
       ∧ Forall (λ known, is_str typ known = false)
           ["string"; "wikibase-entityid"; "time"; "quantity"; "monolingualtext";
            "globecoordinate"]) →
  map_value py_float v m = Ok JNull.
Proof.
  intros [Hfalsy|[(o & -> & Hmiss)|(o & typ & value & -> & Hty & Hval & Hknown)]].
  - unfold map_value. by rewrite Hfalsy.
  - unfold map_value. destruct (truthy (JObj o)); [|done].
    cbn [negb py_in mbind res_bind].
    destruct (dict_lookup o "type") as [typ|] eqn:Hty;
      [|by rewrite bool_decide_eq_false_2 by (by intros [? ?])].
    rewrite bool_decide_eq_true_2 by eauto. cbn [negb].
    destruct Hmiss as [|Hval]; [done|]. rewrite Hval.
    by rewrite bool_decide_eq_false_2 by (by intros [? ?]).
  - rewrite (map_value_typed _ _ _ Hty Hval).
    unfold map_value. cbn [truthy negb py_in mbind res_bind dict_lookup String.eqb Ascii.eqb
      Bool.eqb bool_decide decide_rel is_Some].
    rewrite !bool_decide_eq_true_2 by eauto. cbn [negb py_item dict_lookup String.eqb
      Ascii.eqb Bool.eqb mbind res_bind].
    repeat (apply Forall_cons in Hknown as [-> Hknown]). done.
Qed.

End values.

Lemma map_value_entity_label_witness :
  map_value no_float (entity_ref "Q5") lookup_X = Ok (JStr "X")
  ∧ map_value no_float (entity_ref "Q404") lookup_X = Ok JNull.
Proof.
  split.
  - apply (map_value_entity_label no_float lookup_X
             [("value", JObj [("entity-type", JStr "item"); ("id", JStr "Q5")]);
              ("type", JStr "wikibase-entityid")]
             [("entity-type", JStr "item"); ("id", JStr "Q5")] "Q5" eq_refl eq_refl eq_refl).
  - apply (map_value_entity_label no_float lookup_X
             [("value", JObj [("entity-type", JStr "item"); ("id", JStr "Q404")]);
              ("type", JStr "wikibase-entityid")]
             [("entity-type", JStr "item"); ("id", JStr "Q404")] "Q404"
             eq_refl eq_refl eq_refl).
Defined.

Lemma map_value_no_payload_witness :
  map_value no_float (JObj [("type", JStr "string")]) lookup_X = Ok JNull
  ∧ map_value no_float (datavalue "math" (JStr "x^2")) lookup_X = Ok JNull.
Proof.
  split; apply map_value_no_payload.
  - right. left. exists [("type", JStr "string")]. split; [reflexivity|]. right. reflexivity.
  - right. right. exists [("value", JStr "x^2"); ("type", JStr "math")], (JStr "math"), (JStr "x^2").
    repeat split; repeat constructor.
Defined.

(** ** The value of a property *)

(** X20: for a property id the lookup names, over statements each of
    which is filed or left out, only the statements of one rank count: those
    of rank [preferred] when there is one, else those of rank [normal], else
    those of the rank spelt [depricated]; statements of any other rank never
    count.  The property is set to the single value, or to the sorted list
    of the values, that this rank holds from its last value that is not an
    entity reference on; with no such statement the properties are left as
    they are. *)
Theorem property_value_by_rank py_float m props prop_id name claims ts :
  m !! prop_id = Some name →
  name ≠ "" →
  Forall2 (files py_float m) claims ts →
  add_property py_float m props (prop_id, JArr claims)
  = match chosen_run ts with
    | [] => Ok props
    | value => v ← collapse value; Ok (dict_set props name v)
    end.
Proof.
  intros Hm Hname Hfiles. unfold add_property. rewrite Hm.
  apply String.eqb_neq in Hname. rewrite Hname. cbn [negb py_iter mbind res_bind].
  destruct (foldM_add_claim py_float m claims ts ∅ Hfiles) as (ranks & -> & Hb).
  cbn [mbind res_bind].
  assert (∀ r, bucket ranks r = map snd (last_run (of_rank r ts))) as Hrun.
  { intros r. rewrite Hb, fold_file_value_of_rank. unfold bucket. rewrite lookup_empty.
    apply fold_last_run. }
  unfold chosen_run, rank_order. cbn [pick_rank]. rewrite !Hrun.
  destruct (map snd (last_run (of_rank "preferred" ts))) as [|v1 l1];
    [destruct (map snd (last_run (of_rank "normal" ts))) as [|v2 l2];
     [destruct (map snd (last_run (of_rank "depricated" ts))) as [|v3 l3]|]|];
    try done;
    match goal with |- context [collapse ?l] => by destruct (collapse l) end.
Qed.

Lemma property_value_by_rank_witness :
  add_property no_float lookup_X [] 
    ("P1", JArr [string_statement "deprecated" "C"; string_statement "normal" "A";
                 statement "preferred" (entity_ref "Q6");
                 statement "preferred" (entity_ref "Q5")])
  = Ok [("color", JArr [JStr "B"; JStr "X"])].
Proof.
  rewrite (property_value_by_rank no_float lookup_X [] "P1" "color" _
             [Some ("deprecated", false, JStr "C"); Some ("normal", false, JStr "A");
              Some ("preferred", true, JStr "B"); Some ("preferred", true, JStr "X")]).
  - reflexivity.
  - reflexivity.
  - discriminate.
  - repeat constructor; econstructor; reflexivity.
Defined.

(** ** The value of a property with several statements *)

Lemma chars_ltb_asym a b : chars_ltb a b = true → chars_ltb b a = false.
Proof.
  revert b. induction a as [|x a IH]; intros [|y b]; cbn; try done.
  destruct (N.ltb_spec (code x) (code y)), (N.ltb_spec (code y) (code x));
    try done; try lia. apply IH.
Qed.

Lemma sorted_insert_str x l :
  sorted_insert (JStr x) (map JStr l) = Ok (map JStr (insert_str x l)).
Proof.
  induction l as [|y l IH]; [done|]. cbn [map sorted_insert insert_str py_lt mbind res_bind].
  destruct (str_ltb x y); [done|]. by rewrite IH.
Qed.

Lemma sorted_strings acc l :
  foldM (λ acc x, sorted_insert x acc) (map JStr l) (map JStr acc)
  = Ok (map JStr (foldl (λ acc x, insert_str x acc) acc l)).
Proof.
  revert acc. induction l as [|x l IH]; intros acc; [done|].
  cbn [map foldM foldl]. rewrite sorted_insert_str. cbn [mbind res_bind]. apply IH.
Qed.

Lemma insert_str_perm x l : insert_str x l ≡ₚ x :: l.
Proof.
  induction l as [|y l IH]; [done|]. cbn. destruct (str_ltb x y); [done|].
  rewrite IH. apply Permutation_swap.
Qed.

Lemma insert_str_ascending x l : ascending l = true → ascending (insert_str x l) = true.
Proof.
  induction l as [|y l IH]; [done|]. intros Hl. cbn [insert_str].
  destruct (str_ltb x y) eqn:Hxy.
  - cbn [ascending] in *. rewrite Hl, andb_true_r.
    apply negb_true_iff, chars_ltb_asym, Hxy.
  - destruct l as [|z l]; [cbn; by rewrite Hxy|].
    cbn [ascending] in Hl. apply andb_prop in Hl as [Hyz Hl].
    specialize (IH Hl). cbn [insert_str] in IH |- *.
    destruct (str_ltb x z) eqn:Hxz.
    + change (negb (str_ltb x y) && ascending (x :: z :: l) = true). by rewrite Hxy.
    + change (negb (str_ltb z y) && ascending (z :: insert_str x l) = true).
      by rewrite Hyz.
Qed.

(** X12: the value of a property is a list only when the chosen rank
    holds several values; when these are strings (the labels of several
    entity references) the list holds the same strings, each as often as it
    was filed, in ascending order of code points; nothing is raised. *)
Theorem collapse_strings_sorted ss :
  length ss ≠ 1%nat →
  ∃ ss', collapse (map JStr ss) = Ok (JArr (map JStr ss'))
       ∧ ss' ≡ₚ ss ∧ ascending ss' = true.
Proof.
  intros Hlen. exists (foldl (λ acc x, insert_str x acc) [] ss).
  split; [|split].
  - assert (collapse (map JStr ss) = JArr <$> sorted (map JStr ss)) as ->
      by (by destruct ss as [|? [|? ?]]).
    pose proof (sorted_strings [] ss) as Hs. cbn [map] in Hs.
    unfold sorted. by rewrite Hs.
  - assert (∀ acc, foldl (λ acc x, insert_str x acc) acc ss ≡ₚ acc ++ ss) as Hperm.
    { clear Hlen. induction ss as [|x l IH]; intros acc; [by rewrite app_nil_r|].
      cbn [foldl]. rewrite IH, insert_str_perm. apply Permutation_middle. }
    apply (Hperm []).
  - assert (∀ acc, ascending acc = true →
                   ascending (foldl (λ acc x, insert_str x acc) acc ss) = true) as Hasc.
    { clear Hlen. induction ss as [|x l IH]; intros acc Hacc; [done|].
      cbn [foldl]. by apply IH, insert_str_ascending. }
    by apply Hasc.
Qed.

Lemma collapse_strings_sorted_witness :
  ∃ ss', collapse (map JStr ["Red"; "Green"; "Red"; "Blue"]) = Ok (JArr (map JStr ss'))
       ∧ ss' ≡ₚ ["Red"; "Green"; "Red"; "Blue"] ∧ ascending ss' = true.
Proof. apply (collapse_strings_sorted ["Red"; "Green"; "Red"; "Blue"]). cbn. lia. Defined.

(** X13: a chosen rank that holds a dict (a coordinate) together with
    any other value cannot be ordered: whatever the first two values are,
    when one of them is a dict the value of the property is not computed
    and [TypeError] is raised. *)
Theorem collapse_with_dict_raises v1 v2 rest :
  is_dict v1 || is_dict v2 = true →
  collapse (v1 :: v2 :: rest) = Raise TypeError.
Proof.
  intros Hdict. unfold collapse, sorted. cbn [foldM sorted_insert mbind res_bind].
  assert (py_lt v2 v1 = Raise TypeError) as ->; [|done].
  destruct v1, v2; try done.
Qed.

Lemma collapse_with_dict_raises_witness :
  collapse [JObj [("lat", JInt 1); ("lng", JInt 2)]; JStr "Mars"] = Raise TypeError.
Proof. apply collapse_with_dict_raises. reflexivity. Defined.

(** ** Records of the entity dump: what [parse_props] returns *)

Lemma parse_props_Some py_float kv m e :
  parse_props py_float (JObj kv) m = Ok (Some e) →
  ∃ lbls ttl items props,
    has_labels kv = true
    ∧ read_labels kv = Ok (lbls, ttl)
    ∧ truthy (enwiki_title kv) = true ∧ truthy ttl = true
    ∧ dict_lookup kv "claims" = Some (JObj items)
    ∧ foldM (add_property py_float m) items
        [("sitelinks", default JNull (dict_lookup kv "sitelinks"));
         ("labels", default JNull (dict_lookup kv "labels"))] = Ok props
    ∧ wikipedia_id e = enwiki_title kv ∧ title e = ttl ∧ labels e = lbls
    ∧ properties e = props.
Proof.
  unfold parse_props, read_labels. fold (has_labels kv).
  destruct (has_labels kv); [|done].
  destruct (py_item (JObj kv) "labels") as [lbls|] eqn:E1; [|done].
  cbn [mbind res_bind].
  destruct (py_iter (default empty_dict (dict_lookup kv "labels"))) as [keys|] eqn:E2;
    [|done].
  cbn [mbind res_bind].
  destruct (mapM _ keys) as [ls|] eqn:E3; [|done].
  cbn [mbind res_bind].
  destruct (py_get lbls "en" empty_dict) as [en|] eqn:E4; [|done].
  cbn [mbind res_bind].
  destruct (py_get en "value" JNull) as [t|] eqn:E5; [|done].
  cbn [mbind res_bind].
  unfold enwiki_title.
  match goal with
  | |- context [let '(sl, wid) := ?rs in _] => change rs with (read_sitelinks kv)
  end.
  destruct (read_sitelinks kv) as [sl wid]. cbn [snd].
  destruct (truthy wid) eqn:Hwid; [|done]. destruct (truthy t) eqn:Ht; [|done].
  cbn [andb]. py_step.
  destruct (dict_lookup kv "claims") as [c|] eqn:Hc; [|done]. py_step.
  destruct c as [| | | | | |items]; try done.
  destruct (foldM _ items _) as [props|] eqn:Hfold; [|done]. py_step.
  intros [= <-]. exists ls, t, items, props. done.
Qed.

Lemma truthy_default_lookup kv k dflt :
  truthy dflt = false → truthy (default dflt (dict_lookup kv k)) = true →
  ∃ v, dict_lookup kv k = Some v ∧ truthy v = true.
Proof. intros Hd. destruct (dict_lookup kv k) as [v|]; cbn; [eauto | congruence]. Qed.

(** The value [v.get(k1, {}).get(k2)] is truthy only when [v] has a dict
    under [k1] that has the value under [k2]. *)
Lemma nested_get_truthy v k1 k2 x :
  (e ← py_get v k1 empty_dict; py_get e k2 JNull) = Ok x → truthy x = true →
  ∃ kv ekv, v = JObj kv ∧ dict_lookup kv k1 = Some (JObj ekv) ∧ dict_lookup ekv k2 = Some x.
Proof.
  destruct v as [| | | | | |kv]; try done. cbn [py_get mbind res_bind].
  destruct (dict_lookup kv k1) as [e|] eqn:He; cbn [default from_option id].
  - destruct e as [| | | | | |ekv]; try done. cbn [py_get].
    destruct (dict_lookup ekv k2) as [y|] eqn:Hy; cbn [default from_option id].
    + intros [= ->] _. eauto.
    + by intros [= <-].
  - unfold empty_dict. cbn. by intros [= <-].
Qed.

(** X10: [parse_props] returns a record only for a dict whose
    [claims] entry is a dict, whose labels hold an English label with a
    truthy value and whose sitelinks hold an [enwiki] link with a truthy
    title; the record's title is that label and its Wikipedia id is that
    title.  In every other case that does not raise it returns the six
    [None]s. *)
Theorem parse_props_record_titles py_float d m e :
  parse_props py_float d m = Ok (Some e) →
  ∃ kv items lkv en skv enwiki,
    d = JObj kv
    ∧ dict_lookup kv "claims" = Some (JObj items)
    ∧ dict_lookup kv "labels" = Some (JObj lkv)
    ∧ dict_lookup lkv "en" = Some (JObj en)
    ∧ dict_lookup en "value" = Some (title e)
    ∧ dict_lookup kv "sitelinks" = Some (JObj skv)
    ∧ dict_lookup skv "enwiki" = Some (JObj enwiki)
    ∧ dict_lookup enwiki "title" = Some (wikipedia_id e)
    ∧ truthy (title e) = true ∧ truthy (wikipedia_id e) = true.
Proof.
  destruct d as [| | | | | |kv]; try done. intros Hp.
  apply parse_props_Some in Hp
    as (lbls & ttl & items & props & Hl & Hread & Hwid & Httl & Hc & _ & Ew & Et & _).
  rewrite Ew, Et. clear Ew Et e.
  (* the labels *)
  unfold has_labels in Hl. apply andb_prop in Hl as [Hdict Htruthy].
  destruct (dict_lookup kv "labels") as [l|] eqn:Hlab; [|done].
  destruct l as [| | | | | |lkv]; try done.
  unfold read_labels in Hread. py_step_in Hread. rewrite Hlab in Hread. py_step_in Hread.
  destruct (py_iter _) as [keys|]; [|done]. py_step_in Hread.
  destruct (mapM _ keys) as [ls|]; [|done]. py_step_in Hread.
  destruct (dict_lookup lkv "en") as [en|] eqn:Hen; py_step_in Hread;
    [|unfold empty_dict in Hread; cbn in Hread; injection Hread as _ <-; discriminate Httl].
  destruct en as [| | | | | |en]; try done. py_step_in Hread.
  destruct (dict_lookup en "value") as [v|] eqn:Hv; py_step_in Hread;
    [|injection Hread as _ <-; discriminate Httl].
  injection Hread as _ <-.
  (* the sitelinks *)
  unfold enwiki_title, read_sitelinks in Hwid |- *.
  destruct (_ ≫= _) as [sl|]; [|done]. cbn [snd] in Hwid |- *.
  unfold try_except in Hwid |- *.
  destruct (_ ≫= _) as [x|] eqn:Hx in Hwid |- *; [|done].
  apply nested_get_truthy in Hx as (skv' & enw & Hs & Henw & Ht); [|done].
  destruct (dict_lookup kv "sitelinks") as [s|] eqn:Hsl; cbn in Hs;
    [|unfold empty_dict in Hs; injection Hs as <-; discriminate Henw].
  subst s. exists kv, items, lkv, en, skv', enw. done.
Qed.

Lemma parse_props_record_titles_witness :
  ∃ e, parse_props no_float (entity_doc [("claims", JObj [])]) lookup_X = Ok (Some e)
     ∧ ∃ kv items lkv en skv enwiki,
         entity_doc [("claims", JObj [])] = JObj kv
         ∧ dict_lookup kv "claims" = Some (JObj items)
         ∧ dict_lookup kv "labels" = Some (JObj lkv)
         ∧ dict_lookup lkv "en" = Some (JObj en)
         ∧ dict_lookup en "value" = Some (title e)
         ∧ dict_lookup kv "sitelinks" = Some (JObj skv)
         ∧ dict_lookup skv "enwiki" = Some (JObj enwiki)
         ∧ dict_lookup enwiki "title" = Some (wikipedia_id e)
         ∧ truthy (title e) = true ∧ truthy (wikipedia_id e) = true.
Proof.
  eexists. split; [reflexivity|].
  apply (parse_props_record_titles no_float _ lookup_X). reflexivity.
Defined.

Lemma add_property_unnamed py_float m items props :
  Forall (λ item : string * json, m !! item.1 = None) items →
  foldM (add_property py_float m) items props = Ok props.
Proof.
  induction 1 as [|[prop_id claims] items Hnone _ IH]; [done|].
  cbn [foldM add_property]. cbn [fst] in Hnone. by rewrite Hnone.
Qed.

(** X11: with the empty lookup, which is the one [main] passes, no
    statement is looked at: whatever the [claims] hold, a record that is
    returned has the two properties [sitelinks] and [labels], copied from
    the input, and no other. *)
Theorem empty_lookup_keeps_no_claim py_float d e :
  parse_props py_float d ∅ = Ok (Some e) →
  ∃ kv, d = JObj kv
    ∧ properties e = [("sitelinks", default JNull (dict_lookup kv "sitelinks"));
                      ("labels", default JNull (dict_lookup kv "labels"))].
Proof.
  destruct d as [| | | | | |kv]; try done. intros Hp. exists kv. split; [done|].
  apply parse_props_Some in Hp
    as (lbls & ttl & items & props & _ & _ & _ & _ & _ & Hfold & _ & _ & _ & ->).
  rewrite add_property_unnamed in Hfold; [congruence|].
  apply Forall_forall. intros item _. apply lookup_empty.
Qed.

Lemma empty_lookup_keeps_no_claim_witness :
  ∃ e, parse_props no_float
         (entity_doc [("claims", JObj [("P1", JArr [string_statement "normal" "A"])])]) ∅
       = Ok (Some e)
     ∧ map fst (properties e) = ["sitelinks"; "labels"].
Proof.
  eexists. split; [reflexivity|].
  destruct (empty_lookup_keeps_no_claim no_float
              (entity_doc [("claims", JObj [("P1", JArr [string_statement "normal" "A"])])])
              _ eq_refl) as (kv & _ & ->).
  reflexivity.
Defined.

(** ** The choice of the incremental dumps *)

Section downloader.

Variable py_int : string → res Z.

Lemma step_ready r d :
  WdDownloader.step py_int r d
  = if ready d then
      rev_id ← py_int (WdDownloader.maxrevid d);
      if WdDownloader.max_rev_id r <? rev_id
      then Ok {| WdDownloader.max_rev_id := rev_id;
                 WdDownloader.loaded := WdDownloader.loaded r ++ [WdDownloader.date_str d] |}
      else Ok r
    else Ok r.
Proof. reflexivity. Qed.

Lemma main_loop days revs r :
  Forall2 (λ d n, py_int (WdDownloader.maxrevid d) = Ok n) (filter (λ d, ready d = true) days)
    revs →
  ∃ r', foldM (WdDownloader.step py_int) days r = Ok r'
      ∧ WdDownloader.max_rev_id r' = foldl Z.max (WdDownloader.max_rev_id r) revs
      ∧ (∃ more, WdDownloader.loaded r' = WdDownloader.loaded r ++ more
                 ∧ (more = [] ↔ Forall (λ n, n ≤ WdDownloader.max_rev_id r) revs)).
Proof.
  revert revs r. induction days as [|d days IH]; intros revs r Hrevs.
  - cbn in Hrevs. apply Forall2_nil_inv_l in Hrevs as ->.
    exists r. split; [done|]. split; [done|]. exists []. by rewrite app_nil_r.
  - cbn [foldM]. rewrite step_ready.
    rewrite filter_cons in Hrevs. destruct (decide (ready d = true)) as [Hd|Hd].
    + rewrite Hd. apply Forall2_cons_inv_l in Hrevs as (n & revs' & Hn & Hrevs & ->).
      rewrite Hn. cbn [mbind res_bind foldl].
      destruct (Z.ltb_spec (WdDownloader.max_rev_id r) n) as [Hlt|Hge];
        cbn [mbind res_bind].
      * destruct (IH revs' {| WdDownloader.max_rev_id := n;
                             WdDownloader.loaded :=
                               WdDownloader.loaded r ++ [WdDownloader.date_str d] |} Hrevs)
          as (r' & -> & Hmax & more & Hl & _).
        exists r'. split; [done|]. cbn [WdDownloader.max_rev_id WdDownloader.loaded] in *.
        split; [by rewrite Z.max_r by lia|].
        exists (WdDownloader.date_str d :: more). rewrite Hl, <- app_assoc.
        split; [done|]. split; [done|]. intros Hall%Forall_cons_1. lia.
      * destruct (IH revs' r Hrevs) as (r' & -> & Hmax & more & Hl & Hiff).
        exists r'. split; [done|]. split; [by rewrite Z.max_l by lia|].
        exists more. split; [done|]. rewrite Hiff. rewrite Forall_cons. intuition lia.
    + apply not_true_is_false in Hd. rewrite Hd. cbn [mbind res_bind]. by apply IH.
Qed.

(** X17: when [int] reads the revision id of every day whose status is
    [done:all], [main] returns the largest of these ids and the id it was
    given, whatever the statuses of the other days; and it downloads no dump
    exactly when none of these ids exceeds the id it was given. *)
Theorem main_returns_max days revs max_rev_id :
  Forall2 (λ d n, py_int (WdDownloader.maxrevid d) = Ok n) (filter (λ d, ready d = true) days)
    revs →
  ∃ r, WdDownloader.main py_int days max_rev_id = Ok r
     ∧ WdDownloader.max_rev_id r = foldl Z.max max_rev_id revs
     ∧ max_rev_id ≤ WdDownloader.max_rev_id r
     ∧ Forall (λ n, n ≤ WdDownloader.max_rev_id r) revs
     ∧ (WdDownloader.loaded r = [] ↔ Forall (λ n, n ≤ max_rev_id) revs).
Proof.
  intros Hrevs. unfold WdDownloader.main.
  destruct (main_loop days revs {| WdDownloader.max_rev_id := max_rev_id;
                                   WdDownloader.loaded := [] |} Hrevs)
    as (r & Hr & Hmax & more & Hl & Hiff).
  exists r. split; [done|]. cbn [WdDownloader.max_rev_id WdDownloader.loaded app] in *.
  rewrite Hmax, Hl. split; [done|].
  assert (∀ l m, m ≤ foldl Z.max m l ∧ Forall (λ n, n ≤ foldl Z.max m l) l) as Hfold.
  { induction l as [|n l IHl]; intros m; cbn [foldl]; [by split; [lia|]|].
    destruct (IHl (Z.max m n)) as [H1 H2]. split; [lia|]. constructor; [lia|done]. }
  destruct (Hfold revs max_rev_id). done.
Qed.

(** X18: a day whose status is [done:all] and whose revision id [int]
    rejects (such as the empty string of a resource that could not be read)
    makes [main] raise, whatever the days after it hold: no revision id is
    returned, also when dumps of earlier days have been loaded. *)
Theorem unreadable_revision_aborts before d after max_rev_id r e :
  WdDownloader.main py_int before max_rev_id = Ok r →
  ready d = true →
  py_int (WdDownloader.maxrevid d) = Raise e →
  WdDownloader.main py_int (before ++ d :: after) max_rev_id = Raise e.
Proof.
  intros Hbefore Hd He. unfold WdDownloader.main in *.
  rewrite foldM_app, Hbefore. cbn [mbind res_bind foldM].
  by rewrite step_ready, Hd, He.
Qed.

End downloader.

Lemma main_returns_max_witness :
  ∃ r, WdDownloader.main example_int
         [{| WdDownloader.date_str := "20240101"; WdDownloader.status := "done:all ";
             WdDownloader.maxrevid := "120" |};
          {| WdDownloader.date_str := "20240102"; WdDownloader.status := "";
             WdDownloader.maxrevid := "" |};
          {| WdDownloader.date_str := "20240103"; WdDownloader.status := "done:all";
             WdDownloader.maxrevid := "90" |}] 100 = Ok r
     ∧ WdDownloader.max_rev_id r = 120.
Proof.
  destruct (main_returns_max example_int
         [{| WdDownloader.date_str := "20240101"; WdDownloader.status := "done:all ";
             WdDownloader.maxrevid := "120" |};
          {| WdDownloader.date_str := "20240102"; WdDownloader.status := "";
             WdDownloader.maxrevid := "" |};
          {| WdDownloader.date_str := "20240103"; WdDownloader.status := "done:all";
             WdDownloader.maxrevid := "90" |}] [120; 90] 100)
    as (r & Hr & Hmax & _).
  - repeat constructor.
  - exists r. split; [exact Hr | exact Hmax].
Defined.

Lemma unreadable_revision_aborts_witness :
  WdDownloader.main example_int
    ([{| WdDownloader.date_str := "20240101"; WdDownloader.status := "done:all";
         WdDownloader.maxrevid := "120" |}]
     ++ {| WdDownloader.date_str := "20240102"; WdDownloader.status := "done:all";
           WdDownloader.maxrevid := "" |}
     :: [{| WdDownloader.date_str := "20240103"; WdDownloader.status := "done:all";
            WdDownloader.maxrevid := "90" |}]) 100
  = Raise ValueError.
Proof.
  apply (unreadable_revision_aborts example_int _ _ _ 100
           {| WdDownloader.max_rev_id := 120; WdDownloader.loaded := ["20240101"] |});
    reflexivity.
Defined.

(** ** The tally of the page views *)

Section page_views.

Variable unquote : string → string.
Variable decode : string → option string.
Variable py_int : string → res Z.

(** What a line does to the counter does not depend on the counter: it
    raises, leaves it as it is, or adds a number to the views of a title. *)
Lemma count_line_effect line :
  (∃ e, ∀ c, ImportStats.count_line unquote decode py_int c line = Raise e)
  ∨ (∀ c, ImportStats.count_line unquote decode py_int c line = Ok c)
  ∨ (∃ t n, ∀ c, ImportStats.count_line unquote decode py_int c line
                 = Ok (<[t := default 0 (c !! t) + n]> c)).
Proof.
  unfold ImportStats.count_line.
  destruct (startswith line "en "); [|by right; left].
  destruct (ImportStats.split " " line) as [|f1 [|f2 [|f3 [|f4 [|f5 fs]]]]];
    try (by left; eexists).
  destruct (negb _); [|by right; left].
  destruct (decode _) as [t|]; [|by right; left].
  destruct (py_int f3) as [n|e]; [|by left; exists e].
  right. right. by exists t, n.
Qed.

Lemma add_views_comm (c : gmap string Z) t1 n1 t2 n2 :
  <[t2 := default 0 (<[t1 := default 0 (c !! t1) + n1]> c !! t2) + n2]>
    (<[t1 := default 0 (c !! t1) + n1]> c)
  = <[t1 := default 0 (<[t2 := default 0 (c !! t2) + n2]> c !! t1) + n1]>
      (<[t2 := default 0 (c !! t2) + n2]> c).
Proof.
  destruct (decide (t1 = t2)) as [->|Hne].
  - rewrite !lookup_insert_eq, !insert_insert_eq. cbn. f_equal. lia.
  - rewrite !lookup_insert_ne by done. by apply insert_insert_ne.
Qed.

Lemma count_lines_perm lines lines' c c' :
  lines ≡ₚ lines' →
  foldM (ImportStats.count_line unquote decode py_int) lines c = Ok c' →
  foldM (ImportStats.count_line unquote decode py_int) lines' c = Ok c'.
Proof.
  intros Hperm. revert c c'.
  induction Hperm as [|l ls ls' _ IH|l1 l2 ls|ls1 ls2 ls3 _ IH1 _ IH2]; intros c c'.
  - done.
  - cbn [foldM]. destruct (ImportStats.count_line _ _ _ c l) as [c1|]; [|done]. apply IH.
  - cbn [foldM].
    destruct (count_line_effect l1) as [[e1 H1]|[H1|(t1 & n1 & H1)]];
      destruct (count_line_effect l2) as [[e2 H2]|[H2|(t2 & n2 & H2)]];
      rewrite ?H1, ?H2; cbn [mbind res_bind]; rewrite ?H1, ?H2; cbn [mbind res_bind];
      try done.
    by rewrite add_views_comm.
  - intros H. by apply IH2, IH1.
Qed.

Lemma count_file_gz c f :
  ImportStats.count_file unquote decode py_int c f
  = if ImportStats.endswith f.1 ".gz"
    then foldM (ImportStats.count_line unquote decode py_int) f.2 c else Ok c.
Proof. reflexivity. Qed.

Lemma count_files_lines files c :
  foldM (ImportStats.count_file unquote decode py_int) files c
  = foldM (ImportStats.count_line unquote decode py_int)
      (concat (map snd (filter (λ f, ImportStats.endswith f.1 ".gz" = true) files))) c.
Proof.
  revert c. induction files as [|f files IH]; intros c; [done|].
  cbn [foldM]. rewrite filter_cons, count_file_gz.
  destruct (decide (ImportStats.endswith f.1 ".gz" = true)) as [Hgz|Hgz].
  - rewrite Hgz. cbn [map concat]. rewrite foldM_app.
    destruct (foldM _ f.2 c) as [c1|]; [|done]. apply IH.
  - apply not_true_is_false in Hgz. rewrite Hgz. apply IH.
Qed.

(** X21: the tally does not depend on the order in which the directory
    lists the files, nor on the order of the lines: when [main] returns a
    counter for the files in one order, it returns the same counter for
    them in any other order. *)
Theorem tally_order_independent files files' c :
  files ≡ₚ files' →
  ImportStats.main unquote decode py_int files = Ok c →
  ImportStats.main unquote decode py_int files' = Ok c.
Proof.
  intros Hperm. unfold ImportStats.main. rewrite !count_files_lines.
  apply count_lines_perm.
  induction Hperm as [|f fs fs' _ IH|f1 f2 fs|fs1 fs2 fs3 _ IH1 _ IH2].
  - done.
  - rewrite !filter_cons. destruct (decide _); [|done]. cbn [map concat]. by f_equiv.
  - rewrite !filter_cons. repeat destruct (decide _); cbn [map concat]; try done.
    rewrite !app_assoc. f_equiv. apply Permutation_app_comm.
  - by etransitivity.
Qed.

(** X22: in a file whose name ends in [.gz], a line that starts with
    [en ] and does not have exactly four fields between single spaces makes
    [main] raise [ValueError], whatever the files and the lines after it
    hold, when the files and the lines before it are counted. *)
Theorem malformed_line_aborts files c name before c1 line after rest :
  ImportStats.main unquote decode py_int files = Ok c →
  ImportStats.endswith name ".gz" = true →
  foldM (ImportStats.count_line unquote decode py_int) before c = Ok c1 →
  startswith line "en " = true →
  length (ImportStats.split " " line) ≠ 4%nat →
  ImportStats.main unquote decode py_int (files ++ (name, before ++ line :: after) :: rest)
  = Raise ValueError.
Proof.
  intros Hfiles Hgz Hbefore Hen Hlen. unfold ImportStats.main in *.
  rewrite foldM_app, Hfiles. cbn [mbind res_bind foldM].
  rewrite count_file_gz. cbn [fst snd]. rewrite Hgz.
  rewrite foldM_app, Hbefore. cbn [mbind res_bind foldM].
  assert (ImportStats.count_line unquote decode py_int c1 line = Raise ValueError) as ->;
    [|done].
  unfold ImportStats.count_line. rewrite Hen.
  by destruct (ImportStats.split " " line) as [|f1 [|f2 [|f3 [|f4 [|f5 fs]]]]].
Qed.

End page_views.

Lemma tally_order_independent_witness :
  ImportStats.main id ascii_title digit_int
    [("b.gz", ["en Main_Page 2 10"]); ("a.gz", ["en Paris 3 10"; "en Main_Page 4 10"])]
  = Ok {["Main Page" := 6; "Paris" := 3]}.
Proof.
  apply (tally_order_independent id ascii_title digit_int
           [("a.gz", ["en Paris 3 10"; "en Main_Page 4 10"]); ("b.gz", ["en Main_Page 2 10"])]).
  - apply Permutation_swap.
  - vm_compute. reflexivity.
Defined.

Lemma malformed_line_aborts_witness :
  ImportStats.main id ascii_title digit_int
    ([("b.gz", ["en Main_Page 2 10"])]
     ++ [("a.gz", ["en Paris 3 10"] ++ ["en Paris 3"; "en Main_Page 4 10"])])
  = Raise ValueError.
Proof.
  apply (malformed_line_aborts id ascii_title digit_int [("b.gz", ["en Main_Page 2 10"])]
           {["Main Page" := 2]} "a.gz" ["en Paris 3 10"]
           {["Paris" := 3; "Main Page" := 2]} "en Paris 3" ["en Main_Page 4 10"] []).
  - vm_compute. reflexivity.
  - reflexivity.
  - vm_compute. reflexivity.
  - reflexivity.
  - vm_compute. lia.
Defined.
